(** * CalendarEventViewModel: a shallow embedding and its properties

    The view model of the calendar event editor (class
    [CalendarEventViewModel]) is embedded as pure functions over an explicit
    state record.  Synchronous methods are state transformers; asynchronous
    methods ([saveAndSend], [excludeThisOccurrence]) are resumptions that
    suspend on every call to an external collaborator (distributor, calendar
    store, confirmation callbacks). *)

From Stdlib Require Import ZArith List Lia Bool Sorted Permutation.
From stdpp Require Import base option gmap strings list pretty.

Open Scope string_scope.
Open Scope list_scope.
Open Scope Z_scope.

(** ** Constants of [TutanotaConstants] named by the view model *)

Inductive EventType := OWN | SHARED_RO | SHARED_RW | INVITE.
Inductive CalendarAttendeeStatus := ADDED | NEEDS_ACTION | ACCEPTED | DECLINED | TENTATIVE.
Inductive RecipientType := UNKNOWN | INTERNAL | EXTERNAL_RECIPIENT.
Inductive AccountType := FREE | PREMIUM | EXTERNAL.
Inductive ShareCapability := Read | Write | Invite.
Inductive EndType := Never | Count | UntilDate.
Inductive RepeatPeriod := DAILY | WEEKLY | MONTHLY | ANNUALLY.
Inductive CalendarEventValidity :=
  InvalidContainsInvalidDate | InvalidEndBeforeStart | InvalidPre1970 | Valid.
Inductive UpdateResponse := yes | no | cancel.

#[global] Instance EventType_eq_dec : EqDecision EventType.
Proof. solve_decision. Defined.
#[global] Instance CalendarAttendeeStatus_eq_dec : EqDecision CalendarAttendeeStatus.
Proof. solve_decision. Defined.
#[global] Instance RecipientType_eq_dec : EqDecision RecipientType.
Proof. solve_decision. Defined.
#[global] Instance AccountType_eq_dec : EqDecision AccountType.
Proof. solve_decision. Defined.
#[global] Instance EndType_eq_dec : EqDecision EndType.
Proof. solve_decision. Defined.
#[global] Instance RepeatPeriod_eq_dec : EqDecision RepeatPeriod.
Proof. solve_decision. Defined.
#[global] Instance UpdateResponse_eq_dec : EqDecision UpdateResponse.
Proof. solve_decision. Defined.

(** ** Entities *)

Definition Id := string.
Definition IdTuple := (Id * Id)%type.

(** A JS [Date] is its instant, [getTime()], in milliseconds. *)
Definition Date := Z.

Record Time := { hours : Z; minutes : Z }.

Record EncryptedMailAddress := { name : string; address : string }.

Record CalendarEventAttendee := {
  att_address : EncryptedMailAddress;
  att_status : CalendarAttendeeStatus }.

Record DateWrapper := { date : Date }.

Record CalendarRepeatRule := {
  rr_endType : EndType;
  rr_endValue : option string;
  rr_frequency : RepeatPeriod;
  rr_interval : string;
  rr_timeZone : string;
  rr_excludedDates : list DateWrapper }.

Record AlarmInfo := { alarmIdentifier : string; trigger : string }.

Record CalendarEvent := {
  _id : option IdTuple;
  _ownerGroup : option Id;
  sequence : string;
  uid : option string;
  ev_summary : string;
  ev_description : string;
  ev_location : string;
  ev_startTime : Date;
  ev_endTime : Date;
  invitedConfidentially : option bool;
  repeatRule : option CalendarRepeatRule;
  ev_attendees : list CalendarEventAttendee;
  ev_organizer : option EncryptedMailAddress;
  alarmInfos : list IdTuple }.

Record Group := { group_id : Id }.
Record User := { accountType : AccountType }.
Record UserController := { user : User; userGroupInfo : Id }.
Record CalendarInfo := { groupRoot : Id; shared : bool; group : Group }.
Record Mail := { mail_id : IdTuple }.
Definition Contact := string.
Definition MailboxProperties := list (string * string).

#[global] Instance Time_eq_dec : EqDecision Time.
Proof. solve_decision. Defined.
#[global] Instance EncryptedMailAddress_eq_dec : EqDecision EncryptedMailAddress.
Proof. solve_decision. Defined.
#[global] Instance CalendarEventAttendee_eq_dec : EqDecision CalendarEventAttendee.
Proof. solve_decision. Defined.
#[global] Instance DateWrapper_eq_dec : EqDecision DateWrapper.
Proof. solve_decision. Defined.

(** ** The draft's recurrence data, [RepeatData] *)

Record RepeatData := {
  frequency : RepeatPeriod;
  interval : Z;
  endType : EndType;
  endValue : Z;
  excludedDates : list Date }.

(** ** Recipients and rosters *)

Record Recipient := {
  r_address : string;
  r_name : string;
  r_type : RecipientType;
  r_contact : option Contact }.

(** The recipient fields the view model uses. *)
Inductive RecipientField := TO | BCC.

Record PartialRecipient := {
  pr_address : string;
  pr_name : option string;
  pr_contact : option Contact }.

(** Modelled from the spec: [SendMailModel] (the "Recipient Roster") is not
    among the sources.  A roster holds its recipients per field, a
    confidentiality flag and the passwords set per address; the model's sender
    is the user's default sender. *)
Record SendMailModel := {
  toRecipients : list Recipient;
  bccRecipients : list Recipient;
  confidential : bool;
  passwords : gmap string string;
  sender : string;
  senderName : string }.

Record Guest := {
  g_address : EncryptedMailAddress;
  g_type : RecipientType;
  g_status : CalendarAttendeeStatus }.

Record InitEventTypeReturn := {
  ret_eventType : EventType;
  ret_organizer : option EncryptedMailAddress;
  ret_possibleOrganizers : list EncryptedMailAddress }.

(** ** Collaborators that are not part of the view model

    Helper functions of [CalendarUtils], [MailUtils], [GroupUtils], luxon and
    the JS [Date] API are taken as an environment. *)

(** ** Errors the view model raises or lets through *)

Inductive Error :=
| UserError (msg : string)
| BusinessFeatureRequiredError (msg : string)
| PayloadTooLargeError
| TooManyRequestsError
| NotFoundError
| AssertNotNullFailed
| OtherError (msg : string).

(** ** The view model's state: the fields of [CalendarEventViewModel] *)

Record CalendarEventViewModel := {
  summary : string;
  selectedCalendar : option CalendarInfo;
  startDate : Date;
  endDate : Date;
  startTime : option Time;
  endTime : option Time;
  _allDay : bool;
  repeat : option RepeatData;
  calendars : gmap Id CalendarInfo;
  organizer : option EncryptedMailAddress;
  possibleOrganizers : list EncryptedMailAddress;
  location : string;
  note : string;
  existingEvent : option CalendarEvent;
  _zone : string;
  alarms : list AlarmInfo;
  _userController : UserController;
  _eventType : EventType;
  _inviteModel : SendMailModel;
  _updateModel : SendMailModel;
  _cancelModel : SendMailModel;
  _ownMailAddresses : list string;
  _guestStatuses : gmap string CalendarAttendeeStatus;
  _ownAttendee : option EncryptedMailAddress;
  _responseTo : option Mail;
  _processing : bool;
  hasBusinessFeature : bool;
  isForceUpdates : bool;
  _sendModelFactory : unit -> SendMailModel }.

(** Field assignments, [this.f = v]. *)

Definition set_startDate (v : Date) (vm : CalendarEventViewModel) : CalendarEventViewModel :=
  {| summary := summary vm;
     selectedCalendar := selectedCalendar vm;
     startDate := v;
     endDate := endDate vm;
     startTime := startTime vm;
     endTime := endTime vm;
     _allDay := _allDay vm;
     repeat := repeat vm;
     calendars := calendars vm;
     organizer := organizer vm;
     possibleOrganizers := possibleOrganizers vm;
     location := location vm;
     note := note vm;
     existingEvent := existingEvent vm;
     _zone := _zone vm;
     alarms := alarms vm;
     _userController := _userController vm;
     _eventType := _eventType vm;
     _inviteModel := _inviteModel vm;
     _updateModel := _updateModel vm;
     _cancelModel := _cancelModel vm;
     _ownMailAddresses := _ownMailAddresses vm;
     _guestStatuses := _guestStatuses vm;
     _ownAttendee := _ownAttendee vm;
     _responseTo := _responseTo vm;
     _processing := _processing vm;
     hasBusinessFeature := hasBusinessFeature vm;
     isForceUpdates := isForceUpdates vm;
     _sendModelFactory := _sendModelFactory vm |}.

Definition set_endDate (v : Date) (vm : CalendarEventViewModel) : CalendarEventViewModel :=
  {| summary := summary vm;
     selectedCalendar := selectedCalendar vm;
     startDate := startDate vm;
     endDate := v;
     startTime := startTime vm;
     endTime := endTime vm;
     _allDay := _allDay vm;
     repeat := repeat vm;
     calendars := calendars vm;
     organizer := organizer vm;
     possibleOrganizers := possibleOrganizers vm;
     location := location vm;
     note := note vm;
     existingEvent := existingEvent vm;
     _zone := _zone vm;
     alarms := alarms vm;
     _userController := _userController vm;
     _eventType := _eventType vm;
     _inviteModel := _inviteModel vm;
     _updateModel := _updateModel vm;
     _cancelModel := _cancelModel vm;
     _ownMailAddresses := _ownMailAddresses vm;
     _guestStatuses := _guestStatuses vm;
     _ownAttendee := _ownAttendee vm;
     _responseTo := _responseTo vm;
     _processing := _processing vm;
     hasBusinessFeature := hasBusinessFeature vm;
     isForceUpdates := isForceUpdates vm;
     _sendModelFactory := _sendModelFactory vm |}.

Definition set_repeat (v : option RepeatData) (vm : CalendarEventViewModel) : CalendarEventViewModel :=
  {| summary := summary vm;
     selectedCalendar := selectedCalendar vm;
     startDate := startDate vm;
     endDate := endDate vm;
     startTime := startTime vm;
     endTime := endTime vm;
     _allDay := _allDay vm;
     repeat := v;
     calendars := calendars vm;
     organizer := organizer vm;
     possibleOrganizers := possibleOrganizers vm;
     location := location vm;
     note := note vm;
     existingEvent := existingEvent vm;
     _zone := _zone vm;
     alarms := alarms vm;
     _userController := _userController vm;
     _eventType := _eventType vm;
     _inviteModel := _inviteModel vm;
     _updateModel := _updateModel vm;
     _cancelModel := _cancelModel vm;
     _ownMailAddresses := _ownMailAddresses vm;
     _guestStatuses := _guestStatuses vm;
     _ownAttendee := _ownAttendee vm;
     _responseTo := _responseTo vm;
     _processing := _processing vm;
     hasBusinessFeature := hasBusinessFeature vm;
     isForceUpdates := isForceUpdates vm;
     _sendModelFactory := _sendModelFactory vm |}.

Definition set_organizer (v : option EncryptedMailAddress) (vm : CalendarEventViewModel) : CalendarEventViewModel :=
  {| summary := summary vm;
     selectedCalendar := selectedCalendar vm;
     startDate := startDate vm;
     endDate := endDate vm;
     startTime := startTime vm;
     endTime := endTime vm;
     _allDay := _allDay vm;
     repeat := repeat vm;
     calendars := calendars vm;
     organizer := v;
     possibleOrganizers := possibleOrganizers vm;
     location := location vm;
     note := note vm;
     existingEvent := existingEvent vm;
     _zone := _zone vm;
     alarms := alarms vm;
     _userController := _userController vm;
     _eventType := _eventType vm;
     _inviteModel := _inviteModel vm;
     _updateModel := _updateModel vm;
     _cancelModel := _cancelModel vm;
     _ownMailAddresses := _ownMailAddresses vm;
     _guestStatuses := _guestStatuses vm;
     _ownAttendee := _ownAttendee vm;
     _responseTo := _responseTo vm;
     _processing := _processing vm;
     hasBusinessFeature := hasBusinessFeature vm;
     isForceUpdates := isForceUpdates vm;
     _sendModelFactory := _sendModelFactory vm |}.

Definition set_existingEvent (v : option CalendarEvent) (vm : CalendarEventViewModel) : CalendarEventViewModel :=
  {| summary := summary vm;
     selectedCalendar := selectedCalendar vm;
     startDate := startDate vm;
     endDate := endDate vm;
     startTime := startTime vm;
     endTime := endTime vm;
     _allDay := _allDay vm;
     repeat := repeat vm;
     calendars := calendars vm;
     organizer := organizer vm;
     possibleOrganizers := possibleOrganizers vm;
     location := location vm;
     note := note vm;
     existingEvent := v;
     _zone := _zone vm;
     alarms := alarms vm;
     _userController := _userController vm;
     _eventType := _eventType vm;
     _inviteModel := _inviteModel vm;
     _updateModel := _updateModel vm;
     _cancelModel := _cancelModel vm;
     _ownMailAddresses := _ownMailAddresses vm;
     _guestStatuses := _guestStatuses vm;
     _ownAttendee := _ownAttendee vm;
     _responseTo := _responseTo vm;
     _processing := _processing vm;
     hasBusinessFeature := hasBusinessFeature vm;
     isForceUpdates := isForceUpdates vm;
     _sendModelFactory := _sendModelFactory vm |}.

Definition set_inviteModel (v : SendMailModel) (vm : CalendarEventViewModel) : CalendarEventViewModel :=
  {| summary := summary vm;
     selectedCalendar := selectedCalendar vm;
     startDate := startDate vm;
     endDate := endDate vm;
     startTime := startTime vm;
     endTime := endTime vm;
     _allDay := _allDay vm;
     repeat := repeat vm;
     calendars := calendars vm;
     organizer := organizer vm;
     possibleOrganizers := possibleOrganizers vm;
     location := location vm;
     note := note vm;
     existingEvent := existingEvent vm;
     _zone := _zone vm;
     alarms := alarms vm;
     _userController := _userController vm;
     _eventType := _eventType vm;
     _inviteModel := v;
     _updateModel := _updateModel vm;
     _cancelModel := _cancelModel vm;
     _ownMailAddresses := _ownMailAddresses vm;
     _guestStatuses := _guestStatuses vm;
     _ownAttendee := _ownAttendee vm;
     _responseTo := _responseTo vm;
     _processing := _processing vm;
     hasBusinessFeature := hasBusinessFeature vm;
     isForceUpdates := isForceUpdates vm;
     _sendModelFactory := _sendModelFactory vm |}.

Definition set_updateModel (v : SendMailModel) (vm : CalendarEventViewModel) : CalendarEventViewModel :=
  {| summary := summary vm;
     selectedCalendar := selectedCalendar vm;
     startDate := startDate vm;
     endDate := endDate vm;
     startTime := startTime vm;
     endTime := endTime vm;
     _allDay := _allDay vm;
     repeat := repeat vm;
     calendars := calendars vm;
     organizer := organizer vm;
     possibleOrganizers := possibleOrganizers vm;
     location := location vm;
     note := note vm;
     existingEvent := existingEvent vm;
     _zone := _zone vm;
     alarms := alarms vm;
     _userController := _userController vm;
     _eventType := _eventType vm;
     _inviteModel := _inviteModel vm;
     _updateModel := v;
     _cancelModel := _cancelModel vm;
     _ownMailAddresses := _ownMailAddresses vm;
     _guestStatuses := _guestStatuses vm;
     _ownAttendee := _ownAttendee vm;
     _responseTo := _responseTo vm;
     _processing := _processing vm;
     hasBusinessFeature := hasBusinessFeature vm;
     isForceUpdates := isForceUpdates vm;
     _sendModelFactory := _sendModelFactory vm |}.

Definition set_cancelModel (v : SendMailModel) (vm : CalendarEventViewModel) : CalendarEventViewModel :=
  {| summary := summary vm;
     selectedCalendar := selectedCalendar vm;
     startDate := startDate vm;
     endDate := endDate vm;
     startTime := startTime vm;
     endTime := endTime vm;
     _allDay := _allDay vm;
     repeat := repeat vm;
     calendars := calendars vm;
     organizer := organizer vm;
     possibleOrganizers := possibleOrganizers vm;
     location := location vm;
     note := note vm;
     existingEvent := existingEvent vm;
     _zone := _zone vm;
     alarms := alarms vm;
     _userController := _userController vm;
     _eventType := _eventType vm;
     _inviteModel := _inviteModel vm;
     _updateModel := _updateModel vm;
     _cancelModel := v;
     _ownMailAddresses := _ownMailAddresses vm;
     _guestStatuses := _guestStatuses vm;
     _ownAttendee := _ownAttendee vm;
     _responseTo := _responseTo vm;
     _processing := _processing vm;
     hasBusinessFeature := hasBusinessFeature vm;
     isForceUpdates := isForceUpdates vm;
     _sendModelFactory := _sendModelFactory vm |}.

Definition set_guestStatuses (v : gmap string CalendarAttendeeStatus) (vm : CalendarEventViewModel) : CalendarEventViewModel :=
  {| summary := summary vm;
     selectedCalendar := selectedCalendar vm;
     startDate := startDate vm;
     endDate := endDate vm;
     startTime := startTime vm;
     endTime := endTime vm;
     _allDay := _allDay vm;
     repeat := repeat vm;
     calendars := calendars vm;
     organizer := organizer vm;
     possibleOrganizers := possibleOrganizers vm;
     location := location vm;
     note := note vm;
     existingEvent := existingEvent vm;
     _zone := _zone vm;
     alarms := alarms vm;
     _userController := _userController vm;
     _eventType := _eventType vm;
     _inviteModel := _inviteModel vm;
     _updateModel := _updateModel vm;
     _cancelModel := _cancelModel vm;
     _ownMailAddresses := _ownMailAddresses vm;
     _guestStatuses := v;
     _ownAttendee := _ownAttendee vm;
     _responseTo := _responseTo vm;
     _processing := _processing vm;
     hasBusinessFeature := hasBusinessFeature vm;
     isForceUpdates := isForceUpdates vm;
     _sendModelFactory := _sendModelFactory vm |}.

Definition set_ownAttendee (v : option EncryptedMailAddress) (vm : CalendarEventViewModel) : CalendarEventViewModel :=
  {| summary := summary vm;
     selectedCalendar := selectedCalendar vm;
     startDate := startDate vm;
     endDate := endDate vm;
     startTime := startTime vm;
     endTime := endTime vm;
     _allDay := _allDay vm;
     repeat := repeat vm;
     calendars := calendars vm;
     organizer := organizer vm;
     possibleOrganizers := possibleOrganizers vm;
     location := location vm;
     note := note vm;
     existingEvent := existingEvent vm;
     _zone := _zone vm;
     alarms := alarms vm;
     _userController := _userController vm;
     _eventType := _eventType vm;
     _inviteModel := _inviteModel vm;
     _updateModel := _updateModel vm;
     _cancelModel := _cancelModel vm;
     _ownMailAddresses := _ownMailAddresses vm;
     _guestStatuses := _guestStatuses vm;
     _ownAttendee := v;
     _responseTo := _responseTo vm;
     _processing := _processing vm;
     hasBusinessFeature := hasBusinessFeature vm;
     isForceUpdates := isForceUpdates vm;
     _sendModelFactory := _sendModelFactory vm |}.

Definition set_startTime (v : option Time) (vm : CalendarEventViewModel) : CalendarEventViewModel :=
  {| summary := summary vm;
     selectedCalendar := selectedCalendar vm;
     startDate := startDate vm;
     endDate := endDate vm;
     startTime := v;
     endTime := endTime vm;
     _allDay := _allDay vm;
     repeat := repeat vm;
     calendars := calendars vm;
     organizer := organizer vm;
     possibleOrganizers := possibleOrganizers vm;
     location := location vm;
     note := note vm;
     existingEvent := existingEvent vm;
     _zone := _zone vm;
     alarms := alarms vm;
     _userController := _userController vm;
     _eventType := _eventType vm;
     _inviteModel := _inviteModel vm;
     _updateModel := _updateModel vm;
     _cancelModel := _cancelModel vm;
     _ownMailAddresses := _ownMailAddresses vm;
     _guestStatuses := _guestStatuses vm;
     _ownAttendee := _ownAttendee vm;
     _responseTo := _responseTo vm;
     _processing := _processing vm;
     hasBusinessFeature := hasBusinessFeature vm;
     isForceUpdates := isForceUpdates vm;
     _sendModelFactory := _sendModelFactory vm |}.

Definition set_endTime (v : option Time) (vm : CalendarEventViewModel) : CalendarEventViewModel :=
  {| summary := summary vm;
     selectedCalendar := selectedCalendar vm;
     startDate := startDate vm;
     endDate := endDate vm;
     startTime := startTime vm;
     endTime := v;
     _allDay := _allDay vm;
     repeat := repeat vm;
     calendars := calendars vm;
     organizer := organizer vm;
     possibleOrganizers := possibleOrganizers vm;
     location := location vm;
     note := note vm;
     existingEvent := existingEvent vm;
     _zone := _zone vm;
     alarms := alarms vm;
     _userController := _userController vm;
     _eventType := _eventType vm;
     _inviteModel := _inviteModel vm;
     _updateModel := _updateModel vm;
     _cancelModel := _cancelModel vm;
     _ownMailAddresses := _ownMailAddresses vm;
     _guestStatuses := _guestStatuses vm;
     _ownAttendee := _ownAttendee vm;
     _responseTo := _responseTo vm;
     _processing := _processing vm;
     hasBusinessFeature := hasBusinessFeature vm;
     isForceUpdates := isForceUpdates vm;
     _sendModelFactory := _sendModelFactory vm |}.

Definition set_userController (v : UserController) (vm : CalendarEventViewModel) : CalendarEventViewModel :=
  {| summary := summary vm;
     selectedCalendar := selectedCalendar vm;
     startDate := startDate vm;
     endDate := endDate vm;
     startTime := startTime vm;
     endTime := endTime vm;
     _allDay := _allDay vm;
     repeat := repeat vm;
     calendars := calendars vm;
     organizer := organizer vm;
     possibleOrganizers := possibleOrganizers vm;
     location := location vm;
     note := note vm;
     existingEvent := existingEvent vm;
     _zone := _zone vm;
     alarms := alarms vm;
     _userController := v;
     _eventType := _eventType vm;
     _inviteModel := _inviteModel vm;
     _updateModel := _updateModel vm;
     _cancelModel := _cancelModel vm;
     _ownMailAddresses := _ownMailAddresses vm;
     _guestStatuses := _guestStatuses vm;
     _ownAttendee := _ownAttendee vm;
     _responseTo := _responseTo vm;
     _processing := _processing vm;
     hasBusinessFeature := hasBusinessFeature vm;
     isForceUpdates := isForceUpdates vm;
     _sendModelFactory := _sendModelFactory vm |}.

Definition set_isForceUpdates (v : bool) (vm : CalendarEventViewModel) : CalendarEventViewModel :=
  {| summary := summary vm;
     selectedCalendar := selectedCalendar vm;
     startDate := startDate vm;
     endDate := endDate vm;
     startTime := startTime vm;
     endTime := endTime vm;
     _allDay := _allDay vm;
     repeat := repeat vm;
     calendars := calendars vm;
     organizer := organizer vm;
     possibleOrganizers := possibleOrganizers vm;
     location := location vm;
     note := note vm;
     existingEvent := existingEvent vm;
     _zone := _zone vm;
     alarms := alarms vm;
     _userController := _userController vm;
     _eventType := _eventType vm;
     _inviteModel := _inviteModel vm;
     _updateModel := _updateModel vm;
     _cancelModel := _cancelModel vm;
     _ownMailAddresses := _ownMailAddresses vm;
     _guestStatuses := _guestStatuses vm;
     _ownAttendee := _ownAttendee vm;
     _responseTo := _responseTo vm;
     _processing := _processing vm;
     hasBusinessFeature := hasBusinessFeature vm;
     isForceUpdates := v;
     _sendModelFactory := _sendModelFactory vm |}.

Definition set_processing (v : bool) (vm : CalendarEventViewModel) : CalendarEventViewModel :=
  {| summary := summary vm;
     selectedCalendar := selectedCalendar vm;
     startDate := startDate vm;
     endDate := endDate vm;
     startTime := startTime vm;
     endTime := endTime vm;
     _allDay := _allDay vm;
     repeat := repeat vm;
     calendars := calendars vm;
     organizer := organizer vm;
     possibleOrganizers := possibleOrganizers vm;
     location := location vm;
     note := note vm;
     existingEvent := existingEvent vm;
     _zone := _zone vm;
     alarms := alarms vm;
     _userController := _userController vm;
     _eventType := _eventType vm;
     _inviteModel := _inviteModel vm;
     _updateModel := _updateModel vm;
     _cancelModel := _cancelModel vm;
     _ownMailAddresses := _ownMailAddresses vm;
     _guestStatuses := _guestStatuses vm;
     _ownAttendee := _ownAttendee vm;
     _responseTo := _responseTo vm;
     _processing := v;
     hasBusinessFeature := hasBusinessFeature vm;
     isForceUpdates := isForceUpdates vm;
     _sendModelFactory := _sendModelFactory vm |}.

Record Env := {
  cleanMailAddress : string -> string;
  getSenderName : MailboxProperties -> string -> option string;
  getDefaultSenderFromUser : UserController -> string;
  hasCapabilityOnGroup : User -> Group -> ShareCapability -> bool;
  (* the clock, [new Date()] and [Date.now()] *)
  now : Date;
  (* JS Date, in the local zone *)
  getFullYear : Date -> Z;
  setFullYear : Date -> Z -> Date;
  TIMESTAMP_ZERO_YEAR : Z;
  (* luxon: DateTime.fromJSDate(d, {zone}).plus({days}).toJSDate() *)
  plusDays : string -> Date -> Z -> Date;
  (* luxon: DateTime.fromJSDate(d, {zone}).set({hour, minute}).toJSDate() *)
  setHourMinute : string -> Date -> Z -> Z -> Date;
  (* CalendarUtils *)
  getDiffInDays : Date -> Date -> Z;
  incrementByRepeatPeriod : Date -> RepeatPeriod -> Z -> string -> Date;
  incrementSequence : string -> bool -> string;
  getAllDayDateUTCFromZone : Date -> string -> Date;
  getStartOfNextDayWithZone : Date -> string -> Date;
  getEventStart : CalendarEvent -> string -> Date;
  generateUid : Id -> Date -> string;
  createRepeatRuleWithValues : RepeatPeriod -> Z -> CalendarRepeatRule;
  checkEventValidity : CalendarEvent -> CalendarEventValidity;
  (* TypeRefs: the default instance *)
  createCalendarEvent : CalendarEvent;
  (* SendMailModel queries on resolved recipients and passwords *)
  modelHasInsecurePasswords : SendMailModel -> bool;
  modelContainsExternalRecipients : SendMailModel -> bool;
  (* JS: String(n) of a number, the exponent form from 1e21 on *)
  numberToString : Z -> string }.

(** ** Asynchronous methods as resumptions

    A promise chain runs until its next call to a collaborator, where it is
    suspended with the view model in its current state; it is resumed with
    the collaborator's outcome (a value or a rejection) and with the state
    the view model has at that time.  The callback [showProgress] only
    observes the promise it is given and is left out. *)

Inductive ExtCall : Type -> Type :=
| AwaitInitialized : ExtCall unit
| WaitForResolvedRecipients : ExtCall unit
| AskForUpdates : ExtCall UpdateResponse
| AskInsecurePassword : ExtCall bool
| IsNewPaidPlan : ExtCall bool
| SendInvite (event : CalendarEvent) (model : SendMailModel) : ExtCall unit
| SendCancellation (event : CalendarEvent) (model : SendMailModel) : ExtCall unit
| SendUpdate (event : CalendarEvent) (model : SendMailModel) : ExtCall unit
| SendResponse (event : CalendarEvent) (model : SendMailModel) (sendAs : string)
    (responseTo : option Mail) (status : CalendarAttendeeStatus) : ExtCall unit
| DisposeModel (model : SendMailModel) : ExtCall unit
| CreateEvent (event : CalendarEvent) (alarms : list AlarmInfo) (zone : string)
    (groupRoot : Id) : ExtCall unit
| UpdateEvent (event : CalendarEvent) (alarms : list AlarmInfo) (zone : string)
    (groupRoot : Id) (existingEvent : CalendarEvent) : ExtCall unit
| LoadCalendarEvent (id : option IdTuple) : ExtCall (option CalendarEvent).

(** A call as it appears in a trace. *)
Definition Call := { R : Type & ExtCall R }.
Definition call {R} (c : ExtCall R) : Call := existT R c.

Inductive Proc (A : Type) : Type :=
| Done (vm : CalendarEventViewModel) (r : Error + A)
| Susp {R : Type} (vm : CalendarEventViewModel) (c : ExtCall R)
       (k : Error + R -> CalendarEventViewModel -> Proc A).
Arguments Done {A} vm r.
Arguments Susp {A R} vm c k.

Definition M (A : Type) : Type := CalendarEventViewModel -> Proc A.

Definition ret {A} (a : A) : M A := fun vm => Done vm (inr a).
Definition throw {A} (e : Error) : M A := fun vm => Done vm (inl e).
Definition await {R} (c : ExtCall R) : M R := fun vm => Susp vm c (fun r vm' => Done vm' r).
Definition get : M CalendarEventViewModel := fun vm => Done vm (inr vm).
Definition modify (f : CalendarEventViewModel -> CalendarEventViewModel) : M unit :=
  fun vm => Done (f vm) (inr tt).
Definition liftE {A} (r : Error + A) : M A := fun vm => Done vm r.

Fixpoint bindP {A B} (p : Proc A) (f : A -> M B) : Proc B :=
  match p with
  | Done vm (inr a) => f a vm
  | Done vm (inl e) => Done vm (inl e)
  | Susp vm c k => Susp vm c (fun r vm' => bindP (k r vm') f)
  end.

Definition bind {A B} (m : M A) (f : A -> M B) : M B := fun vm => bindP (m vm) f.

(** [.catch(handler)] *)
Fixpoint catchP {A} (p : Proc A) (h : Error -> M A) : Proc A :=
  match p with
  | Done vm (inr a) => Done vm (inr a)
  | Done vm (inl e) => h e vm
  | Susp vm c k => Susp vm c (fun r vm' => catchP (k r vm') h)
  end.

(** [.finally(() => { this.f = v })] *)
Fixpoint finallyP {A} (p : Proc A) (f : CalendarEventViewModel -> CalendarEventViewModel)
    : Proc A :=
  match p with
  | Done vm r => Done (f vm) r
  | Susp vm c k => Susp vm c (fun r vm' => finallyP (k r vm') f)
  end.

Notation "x <- m ;; k" := (bind m (fun x => k))
  (at level 100, m at next level, right associativity).
Notation "m ;;; k" := (bind m (fun _ => k))
  (at level 100, right associativity).

(** The collaborators' outcomes: the [n]-th call of a run is answered by
    [o n]. *)
Definition Oracle := nat -> forall R, ExtCall R -> Error + R.

(** Runs a resumption to its end with no other activity in between: final
    state, outcome, and the calls made, in order. *)
Fixpoint run {A} (o : Oracle) (n : nat) (p : Proc A)
    : CalendarEventViewModel * (Error + A) * list Call :=
  match p with
  | Done vm r => (vm, r, [])
  | Susp vm c k =>
      let '(vm', r, tr) := run o (S n) (k (o n _ c) vm) in
      (vm', r, call c :: tr)
  end.

Section Embedding.

Variable env : Env.

(** Modelled from the spec: [copyMailAddress] of [MailUtils] builds a new
    address entity with the same name and address. *)
Definition copyMailAddress (a : EncryptedMailAddress) : EncryptedMailAddress :=
  {| name := name a; address := address a |}.

(** Modelled from the spec: [findAttendeeInAddresses] of [CommonCalendarUtils]
    is not among the sources; an attendee's identity key is the normalized
    email, so the first attendee whose cleaned address is among the cleaned
    [addresses] is returned. *)
Definition findAttendeeInAddresses {T} (addr : T -> EncryptedMailAddress)
    (attendees : list T) (addresses : list string) : option T :=
  List.find (fun a => bool_decide (cleanMailAddress env (address (addr a))
                                     ∈ map (cleanMailAddress env) addresses))
            attendees.

(** Modelled from the spec: [findRecipientWithAddress] of
    [CommonCalendarUtils], first entry with the same cleaned address. *)
Definition findRecipientWithAddress {T} (addr : T -> string)
    (recipients : list T) (mailAddress : string) : option T :=
  List.find (fun r => bool_decide (cleanMailAddress env (addr r)
                                     = cleanMailAddress env mailAddress))
            recipients.

Definition addressToMailAddress (mailboxProperties : MailboxProperties)
    (address : string) : EncryptedMailAddress :=
  {| address := address;
     name := default "" (getSenderName env mailboxProperties address) |}.

Definition ownPossibleOrganizers (_ownMailAddresses : list string)
    (mailboxProperties : MailboxProperties) : list EncryptedMailAddress :=
  map (addressToMailAddress mailboxProperties) _ownMailAddresses.

(** [hasGuests] reads [this.existingEvent] and [this._ownMailAddresses]. *)
Definition hasGuests (existingEvent : option CalendarEvent)
    (_ownMailAddresses : list string) : bool :=
  match existingEvent with
  | None => false
  | Some ev =>
      (0 <? Z.of_nat (length (ev_attendees ev)))
      && negb ((Z.of_nat (length (ev_attendees ev)) =? 1)
               && match ev_attendees ev with
                  | a0 :: _ => bool_decide (is_Some
                      (findAttendeeInAddresses att_address [a0] _ownMailAddresses))
                  | [] => false
                  end)
  end.

(** [existingEvent._ownerGroup && calendars.get(existingEvent._ownerGroup)];
    the empty string is falsy. *)
Definition calendarInfoForEvent (existingEvent : CalendarEvent)
    (calendars : gmap Id CalendarInfo) : option CalendarInfo :=
  match _ownerGroup existingEvent with
  | None => None
  | Some g => if bool_decide (g = "") then None else calendars !! g
  end.

Definition initEventTypeAndOrganizers (_ownMailAddresses : list string)
    (existingEvent : option CalendarEvent) (calendars : gmap Id CalendarInfo)
    (mailboxProperties : MailboxProperties) (userController : UserController)
    : InitEventTypeReturn :=
  let ownDefaultSender :=
    addressToMailAddress mailboxProperties (getDefaultSenderFromUser env userController) in
  match existingEvent with
  | None =>
      {| ret_eventType := OWN;
         ret_organizer := Some ownDefaultSender;
         ret_possibleOrganizers := ownPossibleOrganizers _ownMailAddresses mailboxProperties |}
  | Some ev =>
      let existingOrganizer := ev_organizer ev in
      match calendarInfoForEvent ev calendars with
      | Some info =>
          if shared info then
            {| ret_eventType :=
                 if hasCapabilityOnGroup env (user userController) (group info) Write
                 then SHARED_RW else SHARED_RO;
               ret_organizer := copyMailAddress <$> existingOrganizer;
               ret_possibleOrganizers :=
                 match existingOrganizer with Some o => [o] | None => [] end |}
          else
            let organizerIsOwn :=
              match existingOrganizer with
              | Some o => bool_decide (address o ∈ _ownMailAddresses)
              | None => false
              end in
            if negb (bool_decide (is_Some existingOrganizer))
               || organizerIsOwn
               || (Z.of_nat (length (ev_attendees ev)) =? 0)
            then
              let actualOrganizer :=
                match existingOrganizer with
                | Some o => if organizerIsOwn then o else ownDefaultSender
                | None => ownDefaultSender
                end in
              {| ret_eventType := OWN;
                 ret_organizer := Some (copyMailAddress actualOrganizer);
                 ret_possibleOrganizers :=
                   if hasGuests existingEvent _ownMailAddresses
                   then [actualOrganizer]
                   else ownPossibleOrganizers _ownMailAddresses mailboxProperties |}
            else
              {| ret_eventType := INVITE;
                 ret_organizer := existingOrganizer;
                 ret_possibleOrganizers :=
                   match existingOrganizer with Some o => [o] | None => [] end |}
      | None =>
          {| ret_eventType := INVITE;
             ret_organizer := copyMailAddress <$> existingOrganizer;
             ret_possibleOrganizers :=
               match existingOrganizer with Some o => [o] | None => [] end |}
      end
  end.

(** *** Rosters *)

Definition getRecipientList (field : RecipientField) (m : SendMailModel) : list Recipient :=
  match field with TO => toRecipients m | BCC => bccRecipients m end.

Definition setRecipientList (field : RecipientField) (l : list Recipient)
    (m : SendMailModel) : SendMailModel :=
  {| toRecipients := match field with TO => l | BCC => toRecipients m end;
     bccRecipients := match field with BCC => l | TO => bccRecipients m end;
     confidential := confidential m;
     passwords := passwords m;
     sender := sender m;
     senderName := senderName m |}.

(** Modelled from the spec: [SendMailModel.addRecipient] is not among the
    sources.  The roster deduplicates ("SendMailModel handles deduplication"):
    an address already in the field is not added again; a new recipient is
    appended, its type unresolved. *)
Definition addRecipient (field : RecipientField) (r : PartialRecipient)
    (m : SendMailModel) : SendMailModel :=
  match findRecipientWithAddress r_address (getRecipientList field m) (pr_address r) with
  | Some _ => m
  | None =>
      setRecipientList field
        (getRecipientList field m ++
           [{| r_address := pr_address r;
               r_name := default "" (pr_name r);
               r_type := UNKNOWN;
               r_contact := pr_contact r |}]) m
  end.

(** Modelled from the spec: [SendMailModel.removeRecipient], removing an
    absent recipient is a no-op. *)
Definition removeRecipient (recipient : Recipient) (field : RecipientField)
    (m : SendMailModel) : SendMailModel :=
  setRecipientList field
    (filter (fun r => r_address r ≠ r_address recipient) (getRecipientList field m)) m.

Definition getSender (m : SendMailModel) : string := sender m.
Definition isConfidential_model (m : SendMailModel) : bool := confidential m.

(** *** The composed attendee list, [this.attendees()]

    The stream is recomputed from the two rosters, the status ledger and the
    own-attendee slot; it is read here as that projection of the state. *)

Definition makeGuestList (vm : CalendarEventViewModel) (model : SendMailModel) : list Guest :=
  map (fun recipient =>
         {| g_address := {| name := r_name recipient; address := r_address recipient |};
            g_status := default NEEDS_ACTION (_guestStatuses vm !! r_address recipient);
            g_type := r_type recipient |})
      (bccRecipients model).

Definition attendees (vm : CalendarEventViewModel) : list Guest :=
  let guests := makeGuestList vm (_inviteModel vm) ++ makeGuestList vm (_updateModel vm) in
  match _ownAttendee vm with
  | Some ownAttendee =>
      {| g_address := ownAttendee;
         g_status := default ACCEPTED (_guestStatuses vm !! address ownAttendee);
         g_type := INTERNAL |} :: guests
  | None => guests
  end.

Definition findOwnAttendee (vm : CalendarEventViewModel) : option Guest :=
  findAttendeeInAddresses g_address (attendees vm) (_ownMailAddresses vm).

(** *** Permissions *)

Definition canModifyOwnAttendance (vm : CalendarEventViewModel) : bool :=
  bool_decide (_eventType vm = OWN)
  || (bool_decide (_eventType vm = INVITE) && bool_decide (is_Some (findOwnAttendee vm))).

Definition canModifyOrganizer (vm : CalendarEventViewModel) : bool :=
  bool_decide (_eventType vm = OWN)
  && negb (hasGuests (existingEvent vm) (_ownMailAddresses vm)).

Definition setOrganizer (newOrganizer : EncryptedMailAddress)
    (vm : CalendarEventViewModel) : CalendarEventViewModel :=
  if canModifyOrganizer vm
  then set_ownAttendee (Some newOrganizer) (set_organizer (Some newOrganizer) vm)
  else vm.

Definition selectGoing (going : CalendarAttendeeStatus)
    (vm : CalendarEventViewModel) : CalendarEventViewModel :=
  if canModifyOwnAttendance vm then
    match _ownAttendee vm with
    | Some ownAttendee =>
        set_guestStatuses (<[address ownAttendee := going]> (_guestStatuses vm)) vm
    | None =>
        if bool_decide (_eventType vm = OWN) then
          let newOwnAttendee :=
            {| name := senderName (_inviteModel vm);
               address := getSender (_inviteModel vm) |} in
          let vm1 := set_ownAttendee (Some newOwnAttendee) vm in
          set_guestStatuses (<[address newOwnAttendee := going]> (_guestStatuses vm1)) vm1
        else vm
    end
  else vm.

(** *** Guests *)

Definition addGuest (mailAddress : string) (contact : option Contact)
    (vm : CalendarEventViewModel) : CalendarEventViewModel :=
  if bool_decide (is_Some (findAttendeeInAddresses g_address (attendees vm) [mailAddress]))
  then vm
  else
    let isOwnAttendee := bool_decide (mailAddress ∈ _ownMailAddresses vm) in
    let vm1 :=
      if negb isOwnAttendee
      then set_inviteModel
             (addRecipient BCC {| pr_address := mailAddress; pr_name := None;
                                  pr_contact := contact |} (_inviteModel vm)) vm
      else vm in
    let status := if isOwnAttendee then ACCEPTED else ADDED in
    let vm2 :=
      if isOwnAttendee then
        match findOwnAttendee vm1 with
        | Some ownAttendee =>
            set_guestStatuses
              (delete (address (g_address ownAttendee)) (_guestStatuses vm1)) vm1
        | None => vm1
        end
      else vm1 in
    let vm3 :=
      if negb (bool_decide (is_Some (_guestStatuses vm2 !! mailAddress)))
      then set_guestStatuses (<[mailAddress := status]> (_guestStatuses vm2)) vm2
      else vm2 in
    let vm4 :=
      if isOwnAttendee then
        match findRecipientWithAddress address (possibleOrganizers vm3) mailAddress with
        | Some newOrganizer => setOrganizer newOrganizer vm3
        | None => vm3
        end
      else vm3 in
    if (Z.of_nat (length (attendees vm4)) =? 1)
       && negb (bool_decide (is_Some (findOwnAttendee vm4)))
    then selectGoing ACCEPTED vm4
    else vm4.

Definition removeAttendee (guest : Guest)
    (vm : CalendarEventViewModel) : CalendarEventViewModel :=
  let existingRecipient :=
    match existingEvent vm with
    | Some ev => findAttendeeInAddresses att_address (ev_attendees ev)
                   [address (g_address guest)]
    | None => None
    end in
  let step (get : CalendarEventViewModel -> SendMailModel)
           (set : SendMailModel -> CalendarEventViewModel -> CalendarEventViewModel)
           (vm : CalendarEventViewModel) :=
    match findRecipientWithAddress r_address (bccRecipients (get vm))
            (address (g_address guest)) with
    | Some recipientInfo =>
        set_guestStatuses (delete (r_address recipientInfo) (_guestStatuses vm))
          (set (removeRecipient recipientInfo BCC (get vm)) vm)
    | None => vm
    end in
  let vm1 := step _cancelModel set_cancelModel
               (step _updateModel set_updateModel
                  (step _inviteModel set_inviteModel vm)) in
  match existingRecipient with
  | Some r =>
      set_cancelModel
        (addRecipient BCC {| pr_address := address (att_address r);
                             pr_name := Some (name (att_address r));
                             pr_contact := None |} (_cancelModel vm1)) vm1
  | None => vm1
  end.

(** *** Recurrence *)

Definition set_excludedDates (l : list Date) (r : RepeatData) : RepeatData :=
  {| frequency := frequency r; interval := interval r; endType := endType r;
     endValue := endValue r; excludedDates := l |}.

Definition set_frequency (f : RepeatPeriod) (r : RepeatData) : RepeatData :=
  {| frequency := f; interval := interval r; endType := endType r;
     endValue := endValue r; excludedDates := excludedDates r |}.

Definition set_interval (i : Z) (r : RepeatData) : RepeatData :=
  {| frequency := frequency r; interval := i; endType := endType r;
     endValue := endValue r; excludedDates := excludedDates r |}.

Definition set_endType (e : EndType) (r : RepeatData) : RepeatData :=
  {| frequency := frequency r; interval := interval r; endType := e;
     endValue := endValue r; excludedDates := excludedDates r |}.

Definition set_endValue (v : Z) (r : RepeatData) : RepeatData :=
  {| frequency := frequency r; interval := interval r; endType := endType r;
     endValue := v; excludedDates := excludedDates r |}.

(** [this.repeat.excludedDates.length = 0] *)
Definition deleteExcludedDates (vm : CalendarEventViewModel) : CalendarEventViewModel :=
  match repeat vm with
  | None => vm
  | Some r => set_repeat (Some (set_excludedDates [] r)) vm
  end.

Definition onRepeatPeriodSelected (repeatPeriod : option RepeatPeriod)
    (vm : CalendarEventViewModel) : CalendarEventViewModel :=
  if match frequency <$> repeat vm, repeatPeriod with
     | Some f, Some p => bool_decide (f = p)
     | _, _ => false
     end
  then vm
  else
    match repeatPeriod with
    | None => set_repeat None vm
    | Some p =>
        match repeat vm with
        | Some r => deleteExcludedDates (set_repeat (Some (set_frequency p r)) vm)
        | None =>
            set_repeat (Some {| interval := 1; endType := Never; endValue := 1;
                                frequency := p; excludedDates := [] |}) vm
        end
    end.

Definition onEndOccurencesSelected (endValue' : Z)
    (vm : CalendarEventViewModel) : CalendarEventViewModel :=
  match repeat vm with
  | Some r =>
      if bool_decide (endType r = Count) && negb (endValue r =? endValue')
      then deleteExcludedDates (set_repeat (Some (set_endValue endValue' r)) vm)
      else vm
  | None => vm
  end.

Definition onRepeatEndDateSelected (endDate' : Date)
    (vm : CalendarEventViewModel) : CalendarEventViewModel :=
  match repeat vm with
  | Some r =>
      if bool_decide (endType r = UntilDate) && negb (endValue r =? endDate')
      then deleteExcludedDates (set_repeat (Some (set_endValue endDate' r)) vm)
      else vm
  | None => vm
  end.

Definition onRepeatIntervalChanged (interval' : Z)
    (vm : CalendarEventViewModel) : CalendarEventViewModel :=
  match repeat vm with
  | Some r =>
      if negb (interval r =? interval')
      then deleteExcludedDates (set_repeat (Some (set_interval interval' r)) vm)
      else vm
  | None => vm
  end.

Definition onRepeatEndTypeChanged (endType' : EndType)
    (vm : CalendarEventViewModel) : CalendarEventViewModel :=
  match repeat vm with
  | Some r =>
      if negb (bool_decide (endType r = endType'))
      then
        let vm1 := deleteExcludedDates (set_repeat (Some (set_endType endType' r)) vm) in
        let v := if bool_decide (endType' = UntilDate)
                 then incrementByRepeatPeriod env (now env) MONTHLY 1 (_zone vm)
                 else 1 in
        set_repeat (set_endValue v <$> repeat vm1) vm1
      else vm
  | None => vm
  end.

(** *** Dates *)

Definition setStartDate (date' : Date)
    (vm : CalendarEventViewModel) : CalendarEventViewModel :=
  if date' =? startDate vm then vm
  else if getFullYear env date' <? TIMESTAMP_ZERO_YEAR env then
    let thisYear := getFullYear env (now env) in
    set_startDate (setFullYear env date' thisYear) vm
  else
    let diff := getDiffInDays env (startDate vm) date' in
    deleteExcludedDates
      (set_startDate date' (set_endDate (plusDays env (_zone vm) (endDate vm) diff) vm)).

Definition setEndTime (value : option Time)
    (vm : CalendarEventViewModel) : CalendarEventViewModel :=
  set_endTime value vm.

Definition setEndDate (date' : Date)
    (vm : CalendarEventViewModel) : CalendarEventViewModel :=
  set_endDate date' vm.

(** *** The change detector *)

(** Compares two lists of dates position by position. *)
Definition areExcludedDatesEqual (e1 e2 : list DateWrapper) : bool :=
  if negb (Z.of_nat (length e1) =? Z.of_nat (length e2)) then false
  else forallb (fun '(d1, d2) => date d2 =? date d1) (zip e1 e2).

(** [r1 === r2] holds of two absent rules; two present rules are compared
    field by field; [r?.f] of an absent rule is [undefined], the [None] of
    the [option] below. *)
Definition areRepeatRulesEqual (r1 r2 : option CalendarRepeatRule) : bool :=
  (bool_decide (r1 = None) && bool_decide (r2 = None))
  || (bool_decide (rr_endType <$> r1 = rr_endType <$> r2)
      && bool_decide (rr_endValue <$> r1 = rr_endValue <$> r2)
      && bool_decide (rr_frequency <$> r1 = rr_frequency <$> r2)
      && bool_decide (rr_interval <$> r1 = rr_interval <$> r2)
      && bool_decide (rr_timeZone <$> r1 = rr_timeZone <$> r2)
      && areExcludedDatesEqual (default [] (rr_excludedDates <$> r1))
                               (default [] (rr_excludedDates <$> r2))).

Fixpoint removeFirstMatch {T} (p : T -> bool) (l : list T) : option (list T) :=
  match l with
  | [] => None
  | x :: l' => if p x then Some l' else (cons x) <$> removeFirstMatch p l'
  end.

(** Modelled from the spec: [arrayEqualsWithPredicate] of [@tutao/tutanota-utils]
    is not among the sources.  The attendee lists are "compared as an
    order-insensitive equality": every element of the first array is matched,
    under the predicate, with an element of the second of its own, and none is
    left over. *)
Fixpoint arrayEqualsWithPredicate {T} (a1 a2 : list T) (predicate : T -> T -> bool) : bool :=
  match a1 with
  | [] => match a2 with [] => true | _ :: _ => false end
  | x :: a1' =>
      match removeFirstMatch (predicate x) a2 with
      | Some a2' => arrayEqualsWithPredicate a1' a2' predicate
      | None => false
      end
  end.

Definition _hasChanges (newEvent : CalendarEvent) (vm : CalendarEventViewModel) : bool :=
  match existingEvent vm with
  | None => true
  | Some existingEvent =>
      negb (ev_startTime newEvent =? ev_startTime existingEvent)
      || negb (bool_decide (ev_description newEvent = ev_description existingEvent))
      || negb (bool_decide (ev_summary newEvent = ev_summary existingEvent))
      || negb (bool_decide (ev_location newEvent = ev_location existingEvent))
      || negb (ev_endTime newEvent =? ev_endTime existingEvent)
      || negb (bool_decide (invitedConfidentially newEvent = invitedConfidentially existingEvent))
      || negb (bool_decide (uid newEvent = uid existingEvent))
      || negb (areRepeatRulesEqual (repeatRule newEvent) (repeatRule existingEvent))
      || negb (arrayEqualsWithPredicate (ev_attendees newEvent) (ev_attendees existingEvent)
                 (fun a1 a2 =>
                    bool_decide (att_status a1 = att_status a2)
                    && bool_decide (cleanMailAddress env (address (att_address a1))
                                    = cleanMailAddress env (address (att_address a2)))))
      || (negb (bool_decide (ev_organizer newEvent = None)
                && bool_decide (ev_organizer existingEvent = None))
          && negb (bool_decide (address <$> ev_organizer newEvent
                                = address <$> ev_organizer existingEvent)))
  end.

(** *** Materialization *)

Definition isConfidential (vm : CalendarEventViewModel) : bool :=
  isConfidential_model (_inviteModel vm)
  && isConfidential_model (_updateModel vm)
  && isConfidential_model (_cancelModel vm).

Definition createRepeatRule (newEvent : CalendarEvent) (repeat : RepeatData)
    (vm : CalendarEventViewModel) : Error + CalendarRepeatRule :=
  let interval := if interval repeat =? 0 then 1 else interval repeat in
  let repeatRule := createRepeatRuleWithValues env (frequency repeat) interval in
  let stopType := endType repeat in
  let build (endType' : EndType) (endValue' : option string) :=
    {| rr_endType := endType'; rr_endValue := endValue';
       rr_frequency := rr_frequency repeatRule; rr_interval := rr_interval repeatRule;
       rr_timeZone := rr_timeZone repeatRule;
       rr_excludedDates := map (fun d => {| date := d |}) (excludedDates repeat) |} in
  match stopType with
  | Count =>
      let count := endValue repeat in
      if count <? 1 then inr (build Never (rr_endValue repeatRule))
      else inr (build Count (Some (numberToString env count)))
  | UntilDate =>
      let repeatEndDate := getStartOfNextDayWithZone env (endValue repeat) (_zone vm) in
      if repeatEndDate <? getEventStart env newEvent (_zone vm)
      then inl (UserError "startAfterEnd_label")
      else inr (build UntilDate
                  (Some (pretty (if _allDay vm
                                 then getAllDayDateUTCFromZone env repeatEndDate (_zone vm)
                                 else repeatEndDate))))
  | Never => inr (build Never (rr_endValue repeatRule))
  end.

(** The candidate event: a clone of the existing event, or the default
    instance, with the draft's fields written over it. *)
Definition _initializeNewEvent (vm : CalendarEventViewModel) : Error + CalendarEvent :=
  let newEvent := match existingEvent vm with
                  | Some ev => ev
                  | None => createCalendarEvent env
                  end in
  let sequence' :=
    incrementSequence env (sequence newEvent) (bool_decide (_eventType vm = OWN)) in
  let dates : Error + (Date * Date) :=
    if _allDay vm then
      inr (getAllDayDateUTCFromZone env (startDate vm) (_zone vm),
           getAllDayDateUTCFromZone env
             (getStartOfNextDayWithZone env (endDate vm) (_zone vm)) (_zone vm))
    else
      match startTime vm, endTime vm with
      | Some startTime, Some endTime =>
          inr (setHourMinute env (_zone vm) (startDate vm) (hours startTime) (minutes startTime),
               setHourMinute env (_zone vm) (endDate vm) (hours endTime) (minutes endTime))
      | _, _ => inl (UserError "timeFormatInvalid_msg")
      end in
  match dates with
  | inl e => inl e
  | inr (startDate', endDate') =>
      let existingUid :=
        match existingEvent vm with
        | Some ev => match uid ev with
                     | Some u => if bool_decide (u = "") then None else Some u
                     | None => None
                     end
        | None => None
        end in
      let uid' : Error + string :=
        match existingUid with
        | Some u => inr u
        | None =>
            match selectedCalendar vm with
            | Some cal => inr (generateUid env (group_id (group cal)) (now env))
            | None => inl AssertNotNullFailed
            end
        end in
      match uid' with
      | inl e => inl e
      | inr u =>
          let ev1 :=
            {| _id := _id newEvent; _ownerGroup := _ownerGroup newEvent;
               sequence := sequence';
               uid := Some u;
               ev_summary := summary vm;
               ev_description := note vm;
               ev_location := location vm;
               ev_startTime := startDate';
               ev_endTime := endDate';
               invitedConfidentially := Some (isConfidential vm);
               repeatRule := repeatRule newEvent;
               ev_attendees := ev_attendees newEvent;
               ev_organizer := ev_organizer newEvent;
               alarmInfos := alarmInfos newEvent |} in
          let rule : Error + option CalendarRepeatRule :=
            match repeat vm with
            | None => inr None
            | Some r => match createRepeatRule ev1 r vm with
                        | inl e => inl e
                        | inr rr => inr (Some rr)
                        end
            end in
          match rule with
          | inl e => inl e
          | inr rr =>
              let ev2 :=
                {| _id := _id ev1; _ownerGroup := _ownerGroup ev1;
                   sequence := sequence ev1; uid := uid ev1;
                   ev_summary := ev_summary ev1; ev_description := ev_description ev1;
                   ev_location := ev_location ev1;
                   ev_startTime := ev_startTime ev1; ev_endTime := ev_endTime ev1;
                   invitedConfidentially := invitedConfidentially ev1;
                   repeatRule := rr;
                   ev_attendees :=
                     map (fun a => {| att_address := g_address a; att_status := g_status a |})
                         (attendees vm);
                   ev_organizer := organizer vm;
                   alarmInfos := alarmInfos ev1 |} in
              match checkEventValidity env ev2 with
              | InvalidContainsInvalidDate => inl (UserError "invalidDate_msg")
              | InvalidEndBeforeStart => inl (UserError "startAfterEnd_label")
              | InvalidPre1970 => inl (UserError "pre1970Start_msg")
              | Valid => inr ev2
              end
          end
      end
  end.

(** *** Exclusions of single occurrences *)

(** JS [Array.prototype.findIndex], [-1] when no element satisfies [p]. *)
Fixpoint findIndex {A} (p : A -> bool) (l : list A) : Z :=
  match l with
  | [] => -1
  | x :: l' => if p x then 0
               else let i := findIndex p l' in if i <? 0 then -1 else i + 1
  end.

(** JS [l.splice(i, 0, x)] for [0 <= i]. *)
Definition splice0 {A} (i : Z) (x : A) (l : list A) : list A :=
  take (Z.to_nat i) l ++ x :: drop (Z.to_nat i) l.

(** The insertion [excludeThisOccurrence] performs on the root's exclusions. *)
Definition insertExcludedDate (excludedDates : list DateWrapper) (startTime : Date)
    : list DateWrapper :=
  let timeToInsert := startTime in
  let insertionIndex := findIndex (fun d => timeToInsert <=? date d) excludedDates in
  let wrapperToInsert := {| date := startTime |} in
  if insertionIndex <? 0 then excludedDates ++ [wrapperToInsert]
  else splice0 insertionIndex wrapperToInsert excludedDates.

Definition set_rr_excludedDates (l : list DateWrapper) (r : CalendarRepeatRule)
    : CalendarRepeatRule :=
  {| rr_endType := rr_endType r; rr_endValue := rr_endValue r;
     rr_frequency := rr_frequency r; rr_interval := rr_interval r;
     rr_timeZone := rr_timeZone r; rr_excludedDates := l |}.

Definition set_repeatRule (r : option CalendarRepeatRule) (ev : CalendarEvent) : CalendarEvent :=
  {| _id := _id ev; _ownerGroup := _ownerGroup ev; sequence := sequence ev; uid := uid ev;
     ev_summary := ev_summary ev; ev_description := ev_description ev;
     ev_location := ev_location ev; ev_startTime := ev_startTime ev;
     ev_endTime := ev_endTime ev; invitedConfidentially := invitedConfidentially ev;
     repeatRule := r; ev_attendees := ev_attendees ev;
     ev_organizer := ev_organizer ev; alarmInfos := alarmInfos ev |}.

Definition set_ev_attendees (l : list CalendarEventAttendee) (ev : CalendarEvent) : CalendarEvent :=
  {| _id := _id ev; _ownerGroup := _ownerGroup ev; sequence := sequence ev; uid := uid ev;
     ev_summary := ev_summary ev; ev_description := ev_description ev;
     ev_location := ev_location ev; ev_startTime := ev_startTime ev;
     ev_endTime := ev_endTime ev; invitedConfidentially := invitedConfidentially ev;
     repeatRule := repeatRule ev; ev_attendees := l;
     ev_organizer := ev_organizer ev; alarmInfos := alarmInfos ev |}.

Definition set_sequence (q : string) (ev : CalendarEvent) : CalendarEvent :=
  {| _id := _id ev; _ownerGroup := _ownerGroup ev; sequence := q; uid := uid ev;
     ev_summary := ev_summary ev; ev_description := ev_description ev;
     ev_location := ev_location ev; ev_startTime := ev_startTime ev;
     ev_endTime := ev_endTime ev; invitedConfidentially := invitedConfidentially ev;
     repeatRule := repeatRule ev; ev_attendees := ev_attendees ev;
     ev_organizer := ev_organizer ev; alarmInfos := alarmInfos ev |}.

(** *** Saving and notifying *)

Definition _hasUpdatableAttendees (vm : CalendarEventViewModel) : bool :=
  0 <? Z.of_nat (length (bccRecipients (_updateModel vm))).

Definition hasInsecurePasswords (vm : CalendarEventViewModel) : bool :=
  if negb (isConfidential vm) then false
  else if bool_decide (_eventType vm = INVITE) then false
  else modelHasInsecurePasswords env (_inviteModel vm)
       || modelHasInsecurePasswords env (_updateModel vm)
       || modelHasInsecurePasswords env (_cancelModel vm).

Definition containsExternalRecipients (vm : CalendarEventViewModel) : bool :=
  modelContainsExternalRecipients env (_inviteModel vm)
  || modelContainsExternalRecipients env (_updateModel vm)
  || modelContainsExternalRecipients env (_cancelModel vm).

Definition shouldShowSendInviteNotAvailable : M bool :=
  vm <- get ;;
  if bool_decide (accountType (user (_userController vm)) = FREE) then ret true
  else if bool_decide (accountType (user (_userController vm)) = EXTERNAL) then ret false
  else if negb (hasBusinessFeature vm)
       then (newPaidPlan <- await IsNewPaidPlan ;; ret (negb newPaidPlan))
       else ret false.

Definition _saveEvent (newEvent : CalendarEvent) (newAlarms : list AlarmInfo) : M unit :=
  vm <- get ;;
  if bool_decide (accountType (user (_userController vm)) = EXTERNAL) then ret tt
  else
    match selectedCalendar vm with
    | None => throw AssertNotNullFailed
    | Some cal =>
        let groupRoot := groupRoot cal in
        match existingEvent vm with
        | Some existing =>
            match _id existing with
            | Some _ => await (UpdateEvent newEvent newAlarms (_zone vm) groupRoot existing)
            | None => await (CreateEvent newEvent newAlarms (_zone vm) groupRoot)
            end
        | None => await (CreateEvent newEvent newAlarms (_zone vm) groupRoot)
        end
    end.

(** [_sendInvite] writes the new status into the attendees of [event]
    itself; the event so changed is returned and used by the later steps. *)
Definition _sendInvite (event : CalendarEvent) : M CalendarEvent :=
  let newAttendees :=
    filter (fun a => att_status a = ADDED) (ev_attendees event) in
  if 0 <? Z.of_nat (length newAttendees) then
    vm <- get ;;
    await (SendInvite event (_inviteModel vm)) ;;;
    modify (fun vm =>
      foldl (fun vm a =>
               set_guestStatuses
                 (<[address (att_address a) := NEEDS_ACTION]> (_guestStatuses vm)) vm)
            vm newAttendees) ;;;
    ret (set_ev_attendees
           (map (fun a => if bool_decide (att_status a = ADDED)
                          then {| att_address := att_address a; att_status := NEEDS_ACTION |}
                          else a)
                (ev_attendees event)) event)
  else ret event.

(** The promise chain [p] of [_sendNotificationAndSave]: invitations, then
    cancellations, then saving, then updates. *)
Definition _sendNotificationAndSave_p (updateResponse : UpdateResponse)
    (newEvent : CalendarEvent) (newAlarms : list AlarmInfo) : M bool :=
  newEvent <- _sendInvite newEvent ;;
  vm <- get ;;
  (if 0 <? Z.of_nat (length (bccRecipients (_cancelModel vm)))
   then await (SendCancellation newEvent (_cancelModel vm))
   else ret tt) ;;;
  _saveEvent newEvent newAlarms ;;;
  vm <- get ;;
  (if bool_decide (updateResponse = yes)
   then await (SendUpdate newEvent (_updateModel vm))
   else ret tt) ;;;
  ret true.

Definition _sendNotificationAndSave (newEvent : CalendarEvent)
    (newAlarms : list AlarmInfo) : M bool :=
  vm <- get ;;
  updateResponse <-
    (if _hasUpdatableAttendees vm
     then if isForceUpdates vm then ret yes else await AskForUpdates
     else ret no) ;;
  if bool_decide (updateResponse = cancel) then ret false
  else
    notAvailable <- shouldShowSendInviteNotAvailable ;;
    vm <- get ;;
    if notAvailable
       && (bool_decide (updateResponse = yes)
           || (0 <? Z.of_nat (length (bccRecipients (_inviteModel vm))))
           || (0 <? Z.of_nat (length (bccRecipients (_cancelModel vm)))))
    then throw (BusinessFeatureRequiredError "businessFeatureRequiredInvite_msg")
    else
      passwordCheckPassed <-
        (if 0 <? Z.of_nat (length (bccRecipients (_inviteModel vm)))
         then if hasInsecurePasswords vm && containsExternalRecipients vm
              then await AskInsecurePassword
              else ret true
         else ret true) ;;
      if negb passwordCheckPassed then ret false
      else _sendNotificationAndSave_p updateResponse newEvent newAlarms.

(** Applies [f] to the first element satisfying [p], the element
    [Array.prototype.find] returns. *)
Fixpoint updateFirst {T} (p : T -> bool) (f : T -> T) (l : list T) : list T :=
  match l with
  | [] => []
  | x :: l' => if p x then f x :: l' else x :: updateFirst p f l'
  end.

Definition _respondToOrganizerAndSave (existingEvent : CalendarEvent)
    (newEvent : CalendarEvent) (newAlarms : list AlarmInfo) : M bool :=
  vm <- get ;;
  let ownAttendee :=
    findAttendeeInAddresses att_address (ev_attendees existingEvent) (_ownMailAddresses vm) in
  let selectedOwnAttendeeStatus :=
    match ownAttendee with
    | Some a => _guestStatuses vm !! address (att_address a)
    | None => None
    end in
  match ownAttendee with
  | Some a =>
      if negb (bool_decide (selectedOwnAttendeeStatus = Some NEEDS_ACTION))
         && negb (bool_decide (Some (att_status a) = selectedOwnAttendeeStatus))
      then
        match selectedOwnAttendeeStatus with
        | None => throw AssertNotNullFailed
        | Some status =>
            (* ownAttendee.status = status: the attendee is the one inside
               this.existingEvent *)
            modify (set_existingEvent
                      (Some (set_ev_attendees
                               (updateFirst
                                  (fun x => bool_decide
                                     (cleanMailAddress env (address (att_address x))
                                        ∈ map (cleanMailAddress env) (_ownMailAddresses vm)))
                                  (fun x => {| att_address := att_address x;
                                               att_status := status |})
                                  (ev_attendees existingEvent))
                               existingEvent))) ;;;
            let sendResponseModel := _sendModelFactory vm tt in
            match ev_organizer existingEvent with
            | None => throw AssertNotNullFailed
            | Some organizer =>
                let sendResponseModel :=
                  addRecipient TO {| pr_name := Some (name organizer);
                                     pr_address := address organizer;
                                     pr_contact := None |} sendResponseModel in
                await (SendResponse newEvent sendResponseModel (address (att_address a))
                         (_responseTo vm) status) ;;;
                await (DisposeModel sendResponseModel) ;;;
                _saveEvent newEvent newAlarms ;;;
                ret true
            end
        end
      else _saveEvent newEvent newAlarms ;;; ret true
  | None => _saveEvent newEvent newAlarms ;;; ret true
  end.

(** What [saveAndSend] does once the single-flight guard is taken. *)
Definition saveAndSend_protocol : M bool :=
  await WaitForResolvedRecipients ;;;
  vm <- get ;;
  newEvent <- liftE (_initializeNewEvent vm) ;;
  let newAlarms := alarms vm in
  if bool_decide (_eventType vm = OWN) && (isForceUpdates vm || _hasChanges newEvent vm)
  then _sendNotificationAndSave newEvent newAlarms
  else if bool_decide (_eventType vm = INVITE)
  then match existingEvent vm with
       | Some existing => _respondToOrganizerAndSave existing newEvent newAlarms
       | None => throw AssertNotNullFailed
       end
  else _saveEvent newEvent newAlarms ;;; ret true.

Definition onPayloadTooLarge (e : Error) : M bool :=
  match e with
  | PayloadTooLargeError => throw (UserError "requestTooLarge_msg")
  | _ => throw e
  end.

(** [saveAndSend] after [await this.initialized]. *)
Definition saveAndSend_guarded : M bool :=
  vm <- get ;;
  if _processing vm then ret false
  else
    modify (set_processing true) ;;;
    (fun vm => finallyP (catchP (saveAndSend_protocol vm) onPayloadTooLarge)
                        (set_processing false)).

Definition saveAndSend : M bool :=
  await AwaitInitialized ;;; saveAndSend_guarded.

Definition excludeThisOccurrence : M unit :=
  vm <- get ;;
  match existingEvent vm with
  | None => ret tt
  | Some existingEvent =>
      match selectedCalendar vm with
      | None => ret tt
      | Some _ =>
          originalEvent <-
            (if bool_decide (is_Some (repeatRule existingEvent))
             then await (LoadCalendarEvent (_id existingEvent))
             else ret (Some existingEvent)) ;;
          match originalEvent with
          | None => ret tt
          | Some originalEvent =>
              match repeatRule originalEvent with
              | None => ret tt
              | Some rule =>
                  let event :=
                    set_repeatRule
                      (Some (set_rr_excludedDates
                               (insertExcludedDate (rr_excludedDates rule)
                                  (ev_startTime existingEvent)) rule))
                      originalEvent in
                  vm <- get ;;
                  match _ownerGroup existingEvent with
                  | None => throw AssertNotNullFailed
                  | Some ownerGroup =>
                      match calendars vm !! ownerGroup with
                      | None => ret tt
                      | Some calendarForEvent =>
                          await (UpdateEvent event (alarms vm) (_zone vm)
                                   (groupRoot calendarForEvent) existingEvent)
                      end
                  end
              end
          end
      end
  end.

(** *** Construction

    [_initGuestStatus] fills the ledger from the existing event; the editor's
    own attendee goes to the own-attendee slot, every other attendee to the
    update roster. *)
Definition _initGuestStatus (existingEvent : option CalendarEvent)
    (vm : CalendarEventViewModel) : CalendarEventViewModel :=
  match existingEvent with
  | None => set_guestStatuses ∅ vm
  | Some ev =>
      foldl (fun vm attendee =>
               let vm1 :=
                 if bool_decide (is_Some (findAttendeeInAddresses att_address [attendee]
                                            (_ownMailAddresses vm)))
                 then set_ownAttendee (Some (copyMailAddress (att_address attendee))) vm
                 else set_updateModel
                        (addRecipient BCC
                           {| pr_name := Some (name (att_address attendee));
                              pr_address := address (att_address attendee);
                              pr_contact := None |} (_updateModel vm)) vm in
               set_guestStatuses
                 (<[address (att_address attendee) := att_status attendee]>
                    (_guestStatuses vm1)) vm1)
            (set_guestStatuses ∅ vm) (ev_attendees ev)
  end.

(** The state the constructor leaves, before the asynchronous initialisation
    copies the draft's dates, texts, recurrence and alarms from the existing
    event.  [sendMailModelFactory] yields the four rosters; the selected
    calendar, the first available one, is given. *)
Definition construct (userController : UserController)
    (mailboxProperties : MailboxProperties) (ownMailAddresses : list string)
    (inviteModel updateModel cancelModel responseModel : SendMailModel)
    (zone : string) (calendars : gmap Id CalendarInfo)
    (existingEvent : option CalendarEvent) (responseTo : option Mail)
    (firstAvailableCalendar : option CalendarInfo) : CalendarEventViewModel :=
  let r := initEventTypeAndOrganizers ownMailAddresses existingEvent calendars
             mailboxProperties userController in
  _initGuestStatus existingEvent
    {| summary := ""; selectedCalendar := firstAvailableCalendar;
       startDate := 0; endDate := 0; startTime := None; endTime := None;
       _allDay := false; repeat := None; calendars := calendars;
       organizer := ret_organizer r; possibleOrganizers := ret_possibleOrganizers r;
       location := ""; note := ""; existingEvent := existingEvent; _zone := zone;
       alarms := []; _userController := userController; _eventType := ret_eventType r;
       _inviteModel := inviteModel; _updateModel := updateModel;
       _cancelModel := cancelModel; _ownMailAddresses := ownMailAddresses;
       _guestStatuses := ∅; _ownAttendee := None; _responseTo := responseTo;
       _processing := false; hasBusinessFeature := false; isForceUpdates := false;
       _sendModelFactory := fun _ => responseModel |}.

End Embedding.

(** ** A concrete environment: the UTC zone, identity address cleaning

    Days are counted from 1970-01-01; the civil year of a day follows the
    proleptic Gregorian calendar. *)

Definition msPerDay : Z := 86400000.

Definition civilFromDays (days : Z) : Z * Z * Z :=
  let z := days + 719468 in
  let era := z / 146097 in
  let doe := z mod 146097 in
  let yoe := (doe - doe / 1460 + doe / 36524 - doe / 146096) / 365 in
  let doy := doe - (365 * yoe + yoe / 4 - yoe / 100) in
  let mp := (5 * doy + 2) / 153 in
  let d := doy - (153 * mp + 2) / 5 + 1 in
  let m := if mp <? 10 then mp + 3 else mp - 9 in
  (yoe + era * 400 + (if m <=? 2 then 1 else 0), m, d).

Definition daysFromCivil (y m d : Z) : Z :=
  let y := if m <=? 2 then y - 1 else y in
  let era := y / 400 in
  let yoe := y mod 400 in
  let doy := (153 * (if 2 <? m then m - 3 else m + 9) + 2) / 5 + d - 1 in
  let doe := yoe * 365 + yoe / 4 - yoe / 100 + doy in
  era * 146097 + doe - 719468.

Definition utcEnv : Env :=
  {| cleanMailAddress := fun a => a;
     getSenderName := fun mp a => snd <$> List.find (fun e => bool_decide (fst e = a)) mp;
     getDefaultSenderFromUser := fun uc => userGroupInfo uc;
     hasCapabilityOnGroup := fun _ g c =>
       match c with Write => bool_decide (group_id g = "rw") | _ => true end;
     now := 1679000000000;
     getFullYear := fun d => let '(y, _, _) := civilFromDays (d / msPerDay) in y;
     setFullYear := fun d y =>
       let '(_, m, dd) := civilFromDays (d / msPerDay) in
       daysFromCivil y m dd * msPerDay + d mod msPerDay;
     TIMESTAMP_ZERO_YEAR := 1970;
     plusDays := fun _ d n => d + n * msPerDay;
     setHourMinute := fun _ d h m =>
       (d / msPerDay) * msPerDay + h * 3600000 + m * 60000 + d mod 60000;
     getDiffInDays := fun a b => (2 * (b - a) + msPerDay) / (2 * msPerDay);
     incrementByRepeatPeriod := fun d _ n _ => d + n * 30 * msPerDay;
     incrementSequence := fun s _ => s +:+ "+1";
     getAllDayDateUTCFromZone := fun d _ => (d / msPerDay) * msPerDay;
     getStartOfNextDayWithZone := fun d _ => (d / msPerDay + 1) * msPerDay;
     getEventStart := fun ev _ => ev_startTime ev;
     generateUid := fun g t => g +:+ pretty t;
     createRepeatRuleWithValues := fun f i =>
       {| rr_endType := Never; rr_endValue := None; rr_frequency := f;
          rr_interval := pretty i; rr_timeZone := "UTC"; rr_excludedDates := [] |};
     checkEventValidity := fun ev =>
       if ev_endTime ev <=? ev_startTime ev then InvalidEndBeforeStart
       else if ev_startTime ev <? 0 then InvalidPre1970 else Valid;
     createCalendarEvent :=
       {| _id := None; _ownerGroup := None; sequence := "0"; uid := None;
          ev_summary := ""; ev_description := ""; ev_location := "";
          ev_startTime := 0; ev_endTime := 0; invitedConfidentially := None;
          repeatRule := None; ev_attendees := []; ev_organizer := None;
          alarmInfos := [] |};
     modelHasInsecurePasswords := fun m =>
       existsb (fun r => bool_decide (r_type r = EXTERNAL_RECIPIENT)
                         && bool_decide (passwords m !! r_address r = None))
               (bccRecipients m);
     modelContainsExternalRecipients := fun m =>
       existsb (fun r => bool_decide (r_type r = EXTERNAL_RECIPIENT)) (bccRecipients m);
     (* the counts of the examples are far below 1e21 *)
     numberToString := fun n => pretty n |}.

Definition emptyModel : SendMailModel :=
  {| toRecipients := []; bccRecipients := []; confidential := false;
     passwords := ∅; sender := "me@tutanota.com"; senderName := "Me" |}.

Definition ownCalendar : CalendarInfo :=
  {| groupRoot := "ownRoot"; shared := false; group := {| group_id := "own" |} |}.
Definition rwCalendar : CalendarInfo :=
  {| groupRoot := "rwRoot"; shared := true; group := {| group_id := "rw" |} |}.
Definition roCalendar : CalendarInfo :=
  {| groupRoot := "roRoot"; shared := true; group := {| group_id := "ro" |} |}.
Definition demoCalendars : gmap Id CalendarInfo :=
  <["own" := ownCalendar]> (<["rw" := rwCalendar]> (<["ro" := roCalendar]> ∅)).

Definition demoUserController : UserController :=
  {| user := {| accountType := PREMIUM |}; userGroupInfo := "me@tutanota.com" |}.

Definition demoOwnAddresses : list string := ["me@tutanota.com"; "alias@tutanota.com"].

Definition other : EncryptedMailAddress := {| name := "Other"; address := "other@x.com" |}.

Definition sharedEvent : CalendarEvent :=
  {| _id := Some ("list", "elem"); _ownerGroup := Some "rw"; sequence := "1";
     uid := Some "uid"; ev_summary := "s"; ev_description := "d"; ev_location := "l";
     ev_startTime := 1678600000000; ev_endTime := 1678603600000;
     invitedConfidentially := Some false; repeatRule := None;
     ev_attendees := []; ev_organizer := Some other; alarmInfos := [] |}.

(** ** What the change detector is specified to compare *)

(** An attendee counts by its normalized address and its status. *)
Definition attendeeKey (env : Env) (a : CalendarEventAttendee) : string * CalendarAttendeeStatus :=
  (cleanMailAddress env (address (att_address a)), att_status a).

(** A recurrence rule counts by its fields, the exclusions by their instants
    in order. *)
Definition repeatRuleFields (r : CalendarRepeatRule)
    : EndType * option string * RepeatPeriod * string * string * list Date :=
  (rr_endType r, rr_endValue r, rr_frequency r, rr_interval r, rr_timeZone r,
   map date (rr_excludedDates r)).

Definition demoConstruct (existingEvent : option CalendarEvent) : CalendarEventViewModel :=
  construct utcEnv demoUserController [] demoOwnAddresses
    emptyModel emptyModel emptyModel emptyModel "UTC" demoCalendars existingEvent None
    (Some ownCalendar).

(** The exclusions a draft carries; a draft without a rule has none. *)
Definition exclusionsOf (vm : CalendarEventViewModel) : list Date :=
  match repeat vm with
  | Some r => excludedDates r
  | None => []
  end.

Definition weeklyNever : RepeatData :=
  {| frequency := WEEKLY; interval := 1; endType := Never; endValue := 1;
     excludedDates := [1678579200000] |}.

Definition recurringVm : CalendarEventViewModel :=
  set_repeat (Some weeklyNever) (demoConstruct None).

(** Laws of whole-day arithmetic in a zone: adding days composes, and the
    difference in days of two dates a whole number of days apart is that
    number. *)
Definition dayLaws (env : Env) : Prop :=
  (∀ z d a b, plusDays env z (plusDays env z d a) b = plusDays env z d (a + b))
  ∧ (∀ z d a b, getDiffInDays env (plusDays env z d a) (plusDays env z d b) = b - a).

(** 2023-03-12 to 2023-03-14, in UTC. *)
Definition marchVm : CalendarEventViewModel :=
  set_endDate (19430 * msPerDay) (set_startDate (19428 * msPerDay) recurringVm).

(** Where the organizer cannot be modified, the only possible organizer is
    the organizer: the constructor leaves the view model so, and no method
    undoes it. *)
Definition organizerLocked (env : Env) (vm : CalendarEventViewModel) : Prop :=
  canModifyOrganizer env vm = false →
  ∀ o, o ∈ possibleOrganizers vm → organizer vm = Some o.

Definition me : EncryptedMailAddress := {| name := "Me"; address := "me@tutanota.com" |}.
Definition alias : EncryptedMailAddress := {| name := "Al"; address := "alias@tutanota.com" |}.

Definition demoEvent (ownerGroup : option Id) (organizer : option EncryptedMailAddress)
    (attendees : list CalendarEventAttendee) : CalendarEvent :=
  {| _id := Some ("list", "elem"); _ownerGroup := ownerGroup; sequence := "1";
     uid := Some "uid"; ev_summary := "s"; ev_description := "d"; ev_location := "l";
     ev_startTime := 1678600000000; ev_endTime := 1678603600000;
     invitedConfidentially := Some false; repeatRule := None;
     ev_attendees := attendees; ev_organizer := organizer; alarmInfos := [] |}.

(** An invitation in the editor's calendar, not yet answered. *)
Definition inviteEvent : CalendarEvent :=
  demoEvent (Some "own") (Some other)
    [ {| att_address := me; att_status := NEEDS_ACTION |};
      {| att_address := other; att_status := ACCEPTED |} ].

(** An own event on which two of the editor's addresses are attendees. *)
Definition twoAliasEvent : CalendarEvent :=
  demoEvent (Some "own") (Some me)
    [ {| att_address := alias; att_status := DECLINED |};
      {| att_address := me; att_status := ACCEPTED |} ].

(** The fields the organizer lock depends on. *)
Definition lockFields (vm : CalendarEventViewModel) :=
  (_eventType vm, existingEvent vm, _ownMailAddresses vm, possibleOrganizers vm).

(** Collaborators that always succeed: the user answers [answer] when asked
    about updates and [confirm] when asked about insecure passwords, the
    account is on a new paid plan iff [paid], and loading an event yields
    [loaded]. *)
Definition benignOracle (answer : UpdateResponse) (confirm paid : bool)
    (loaded : option CalendarEvent) : Oracle :=
  fun _ R c =>
    match c in ExtCall R return Error + R with
    | AwaitInitialized => inr tt
    | WaitForResolvedRecipients => inr tt
    | AskForUpdates => inr answer
    | AskInsecurePassword => inr confirm
    | IsNewPaidPlan => inr paid
    | SendInvite _ _ => inr tt
    | SendCancellation _ _ => inr tt
    | SendUpdate _ _ => inr tt
    | SendResponse _ _ _ _ _ => inr tt
    | DisposeModel _ => inr tt
    | CreateEvent _ _ _ _ => inr tt
    | UpdateEvent _ _ _ _ _ => inr tt
    | LoadCalendarEvent _ => inr loaded
    end.

(** A daily series from 2023-03-10 with the occurrence of 2023-03-12
    excluded, and its occurrence of 2023-03-13. *)
Definition seriesRule : CalendarRepeatRule :=
  {| rr_endType := Never; rr_endValue := None; rr_frequency := DAILY;
     rr_interval := "1"; rr_timeZone := "UTC";
     rr_excludedDates := [ {| date := 19428 * msPerDay |} ] |}.

Definition seriesRoot : CalendarEvent :=
  {| _id := Some ("list", "series"); _ownerGroup := Some "own"; sequence := "1";
     uid := Some "series-uid"; ev_summary := "daily"; ev_description := "";
     ev_location := ""; ev_startTime := 19426 * msPerDay;
     ev_endTime := 19426 * msPerDay + 3600000;
     invitedConfidentially := Some false; repeatRule := Some seriesRule;
     ev_attendees := []; ev_organizer := Some me; alarmInfos := [] |}.

Definition clickedOccurrence : CalendarEvent :=
  {| _id := Some ("list", "series"); _ownerGroup := Some "own"; sequence := "1";
     uid := Some "series-uid"; ev_summary := "daily"; ev_description := "";
     ev_location := ""; ev_startTime := 19429 * msPerDay;
     ev_endTime := 19429 * msPerDay + 3600000;
     invitedConfidentially := Some false; repeatRule := Some seriesRule;
     ev_attendees := []; ev_organizer := Some me; alarmInfos := [] |}.

(** ** Reading traces *)

Definition isSendResponse (c : Call) : bool :=
  match projT2 c with SendResponse _ _ _ _ _ => true | _ => false end.

Definition isSendInvite (c : Call) : bool :=
  match projT2 c with SendInvite _ _ => true | _ => false end.

Definition isSendCancellation (c : Call) : bool :=
  match projT2 c with SendCancellation _ _ => true | _ => false end.

Definition isSendUpdate (c : Call) : bool :=
  match projT2 c with SendUpdate _ _ => true | _ => false end.

(** A call to the calendar store that writes the event. *)
Definition isPersist (c : Call) : bool :=
  match projT2 c with
  | CreateEvent _ _ _ _ | UpdateEvent _ _ _ _ _ => true
  | _ => false
  end.

(** The state in which [_respondToOrganizerAndSave] sends its response: the
    own attendee of the original event carries the selected status. *)
Definition withOwnStatus (env : Env) (existing : CalendarEvent)
    (status : CalendarAttendeeStatus) (vm : CalendarEventViewModel)
    : CalendarEventViewModel :=
  set_existingEvent
    (Some (set_ev_attendees
             (updateFirst
                (fun x => bool_decide
                   (cleanMailAddress env (address (att_address x))
                      ∈ map (cleanMailAddress env) (_ownMailAddresses vm)))
                (fun x => {| att_address := att_address x; att_status := status |})
                (ev_attendees existing))
             existing)) vm.

(** The response roster: the factory's roster with the organizer in [TO]. *)
Definition responseModelFor (env : Env) (organizer : EncryptedMailAddress)
    (vm : CalendarEventViewModel) : SendMailModel :=
  addRecipient env TO {| pr_name := Some (name organizer);
                         pr_address := address organizer;
                         pr_contact := None |} (_sendModelFactory vm tt).

(** The place of a call in the dispatch of notifications: invitations,
    cancellations, saving, updates; [0] for every other call. *)
Definition dispatchRank (c : Call) : nat :=
  match projT2 c with
  | SendInvite _ _ => 1
  | SendCancellation _ _ => 2
  | CreateEvent _ _ _ _ | UpdateEvent _ _ _ _ _ => 3
  | SendUpdate _ _ => 4
  | _ => 0
  end.

(** The attendees of an event that are to be invited. *)
Definition newAttendeesOf (event : CalendarEvent) : list CalendarEventAttendee :=
  filter (fun a => att_status a = ADDED) (ev_attendees event).

(** The ledger and the event as [_sendInvite] leaves them after the
    invitation has been sent. *)
Definition ledgerAfterInvite (event : CalendarEvent) (vm : CalendarEventViewModel)
    : CalendarEventViewModel :=
  foldl (fun vm a =>
           set_guestStatuses
             (<[address (att_address a) := NEEDS_ACTION]> (_guestStatuses vm)) vm)
        vm (newAttendeesOf event).

Definition eventAfterInvite (event : CalendarEvent) : CalendarEvent :=
  set_ev_attendees
    (map (fun a => if bool_decide (att_status a = ADDED)
                   then {| att_address := att_address a; att_status := NEEDS_ACTION |}
                   else a)
         (ev_attendees event)) event.

Definition draftVm : CalendarEventViewModel :=
  set_endTime (Some {| hours := 11; minutes := 0 |})
    (set_startTime (Some {| hours := 10; minutes := 0 |}) (demoConstruct None)).

(** The calendar store is out of reach; every other collaborator succeeds. *)
Definition failingStoreOracle : Oracle :=
  fun n R c =>
    match c in ExtCall R return Error + R with
    | CreateEvent _ _ _ _ => inl (OtherError "offline")
    | UpdateEvent _ _ _ _ _ => inl (OtherError "offline")
    | c => benignOracle yes true true None n _ c
    end.

(** The invitations of a trace: the recipients of the roster, and each
    attendee of the event with its status. *)
Definition invitationsOf (tr : list Call)
    : list (list string * list (string * CalendarAttendeeStatus)) :=
  omap (fun c => match projT2 c with
                 | SendInvite e m =>
                     Some (r_address <$> bccRecipients m,
                           (fun a => (address (att_address a), att_status a))
                             <$> ev_attendees e)
                 | _ => None
                 end) tr.

(** The event a write to the calendar store carries. *)
Definition persistedEvent (c : Call) : option CalendarEvent :=
  match projT2 c with
  | CreateEvent e _ _ _ | UpdateEvent e _ _ _ _ => Some e
  | _ => None
  end.

(** The event the steps after [_sendInvite] work with. *)
Definition eventForDispatch (event : CalendarEvent) : CalendarEvent :=
  if 0 <? Z.of_nat (length (newAttendeesOf event)) then eventAfterInvite event else event.

(** ** Invariants of resumptions

    [ensures I J C p]: every suspension of [p] is in a state satisfying [I]
    and on a call satisfying [C], and [p] ends in a state satisfying [J],
    however [p] is resumed, as long as the state it is resumed with
    satisfies [I]. *)
Fixpoint ensures (I J : CalendarEventViewModel → Prop) (C : Call → Prop)
    {A} (p : Proc A) : Prop :=
  match p with
  | Done vm _ => J vm
  | Susp vm c k =>
      I vm ∧ C (call c) ∧ ∀ r vm', I vm' → ensures I J C (k r vm')
  end.

Definition ensuresM (I : CalendarEventViewModel → Prop) (C : Call → Prop)
    {A} (m : M A) : Prop :=
  ∀ vm, I vm → ensures I I C (m vm).

(** The single-flight guard is set; no method but [saveAndSend] writes it. *)
Definition processing (vm : CalendarEventViewModel) : Prop := _processing vm = true.

(** [inFlight p]: the guard is set at every suspension of [p] and cleared at
    its end, whatever the outcome. *)
Definition inFlight {A} (p : Proc A) : Prop :=
  ensures processing (fun vm => _processing vm = false) (fun _ => True) p.

(** The user is an external one. *)
Definition isExternalUser (vm : CalendarEventViewModel) : Prop :=
  accountType (user (_userController vm)) = EXTERNAL.

Definition notPersist (c : Call) : Prop := isPersist c = false.

(** An external user looking at an event of a calendar shared with them. *)
Definition externalVm : CalendarEventViewModel :=
  set_endTime (Some {| hours := 11; minutes := 0 |})
    (set_startTime (Some {| hours := 10; minutes := 0 |})
       (set_userController
          {| user := {| accountType := EXTERNAL |}; userGroupInfo := "ext@other.org" |}
          (demoConstruct (Some sharedEvent)))).

(** The editor accepts the invitation. *)
Definition acceptingVm : CalendarEventViewModel :=
  selectGoing utcEnv ACCEPTED (demoConstruct (Some inviteEvent)).

(** ** Further methods of the view model *)

Definition set_alarms (v : list AlarmInfo) (vm : CalendarEventViewModel) : CalendarEventViewModel :=
  {| summary := summary vm;
     selectedCalendar := selectedCalendar vm;
     startDate := startDate vm;
     endDate := endDate vm;
     startTime := startTime vm;
     endTime := endTime vm;
     _allDay := _allDay vm;
     repeat := repeat vm;
     calendars := calendars vm;
     organizer := organizer vm;
     possibleOrganizers := possibleOrganizers vm;
     location := location vm;
     note := note vm;
     existingEvent := existingEvent vm;
     _zone := _zone vm;
     alarms := v;
     _userController := _userController vm;
     _eventType := _eventType vm;
     _inviteModel := _inviteModel vm;
     _updateModel := _updateModel vm;
     _cancelModel := _cancelModel vm;
     _ownMailAddresses := _ownMailAddresses vm;
     _guestStatuses := _guestStatuses vm;
     _ownAttendee := _ownAttendee vm;
     _responseTo := _responseTo vm;
     _processing := _processing vm;
     hasBusinessFeature := hasBusinessFeature vm;
     isForceUpdates := isForceUpdates vm;
     _sendModelFactory := _sendModelFactory vm |}.

Definition set_allDay (v : bool) (vm : CalendarEventViewModel) : CalendarEventViewModel :=
  {| summary := summary vm;
     selectedCalendar := selectedCalendar vm;
     startDate := startDate vm;
     endDate := endDate vm;
     startTime := startTime vm;
     endTime := endTime vm;
     _allDay := v;
     repeat := repeat vm;
     calendars := calendars vm;
     organizer := organizer vm;
     possibleOrganizers := possibleOrganizers vm;
     location := location vm;
     note := note vm;
     existingEvent := existingEvent vm;
     _zone := _zone vm;
     alarms := alarms vm;
     _userController := _userController vm;
     _eventType := _eventType vm;
     _inviteModel := _inviteModel vm;
     _updateModel := _updateModel vm;
     _cancelModel := _cancelModel vm;
     _ownMailAddresses := _ownMailAddresses vm;
     _guestStatuses := _guestStatuses vm;
     _ownAttendee := _ownAttendee vm;
     _responseTo := _responseTo vm;
     _processing := _processing vm;
     hasBusinessFeature := hasBusinessFeature vm;
     isForceUpdates := isForceUpdates vm;
     _sendModelFactory := _sendModelFactory vm |}.

Definition set_note (v : string) (vm : CalendarEventViewModel) : CalendarEventViewModel :=
  {| summary := summary vm;
     selectedCalendar := selectedCalendar vm;
     startDate := startDate vm;
     endDate := endDate vm;
     startTime := startTime vm;
     endTime := endTime vm;
     _allDay := _allDay vm;
     repeat := repeat vm;
     calendars := calendars vm;
     organizer := organizer vm;
     possibleOrganizers := possibleOrganizers vm;
     location := location vm;
     note := v;
     existingEvent := existingEvent vm;
     _zone := _zone vm;
     alarms := alarms vm;
     _userController := _userController vm;
     _eventType := _eventType vm;
     _inviteModel := _inviteModel vm;
     _updateModel := _updateModel vm;
     _cancelModel := _cancelModel vm;
     _ownMailAddresses := _ownMailAddresses vm;
     _guestStatuses := _guestStatuses vm;
     _ownAttendee := _ownAttendee vm;
     _responseTo := _responseTo vm;
     _processing := _processing vm;
     hasBusinessFeature := hasBusinessFeature vm;
     isForceUpdates := isForceUpdates vm;
     _sendModelFactory := _sendModelFactory vm |}.

Definition set_selectedCalendar (v : option CalendarInfo) (vm : CalendarEventViewModel) : CalendarEventViewModel :=
  {| summary := summary vm;
     selectedCalendar := v;
     startDate := startDate vm;
     endDate := endDate vm;
     startTime := startTime vm;
     endTime := endTime vm;
     _allDay := _allDay vm;
     repeat := repeat vm;
     calendars := calendars vm;
     organizer := organizer vm;
     possibleOrganizers := possibleOrganizers vm;
     location := location vm;
     note := note vm;
     existingEvent := existingEvent vm;
     _zone := _zone vm;
     alarms := alarms vm;
     _userController := _userController vm;
     _eventType := _eventType vm;
     _inviteModel := _inviteModel vm;
     _updateModel := _updateModel vm;
     _cancelModel := _cancelModel vm;
     _ownMailAddresses := _ownMailAddresses vm;
     _guestStatuses := _guestStatuses vm;
     _ownAttendee := _ownAttendee vm;
     _responseTo := _responseTo vm;
     _processing := _processing vm;
     hasBusinessFeature := hasBusinessFeature vm;
     isForceUpdates := isForceUpdates vm;
     _sendModelFactory := _sendModelFactory vm |}.

(** Helpers of the [Time] class, the JS [Date] API, [CalendarUtils] and
    [CommonCalendarUtils] that the methods below call. *)
Record UtilEnv := {
  (* new Time(hours, minutes) *)
  newTime : Z -> Z -> Time;
  (* Time.fromDate(date) *)
  Time_fromDate : Date -> Time;
  (* time.toDate(baseDate) *)
  Time_toDate : Time -> Date -> Date;
  (* JS Date, in the local zone: d.setHours(h), d.setMinutes(m) *)
  setHours : Date -> Z -> Date;
  setMinutes : Date -> Z -> Date;
  getStartOfDayWithZone : Date -> string -> Date;
  getAllDayDateUTC : Date -> Date;
  generateEventElementId : Date -> string;
  (* SendMailModel.getPasswordStrength(recipient) *)
  modelGetPasswordStrength : SendMailModel -> Recipient -> Z }.

Section Editing.

Variable env : Env.
Variable uenv : UtilEnv.

(** *** Times *)

Definition rescheduleEvent (delta : Z)
    (vm : CalendarEventViewModel) : CalendarEventViewModel :=
  let atTime (d : Date) (t : option Time) : Date :=
    match t with
    | Some t => setMinutes uenv (setHours uenv d (hours t)) (minutes t)
    | None => d
    end in
  let oldStartDate := atTime (startDate vm) (startTime vm) in
  let newStartDate := oldStartDate + delta in
  let oldEndDate := atTime (endDate vm) (endTime vm) in
  let newEndDate := oldEndDate + delta in
  let vm1 := set_startDate (getStartOfDayWithZone uenv newStartDate (_zone vm)) vm in
  let vm2 := set_endDate (getStartOfDayWithZone uenv newEndDate (_zone vm1)) vm1 in
  let vm3 := set_startTime (Some (Time_fromDate uenv newStartDate)) vm2 in
  let vm4 := set_endTime (Some (Time_fromDate uenv newEndDate)) vm3 in
  deleteExcludedDates vm4.

(** The field [_oldStartTime] is written by [setStartTime] only, just before
    its only reader [_adjustEndTime] runs; it is passed as an argument.
    [Math.floor(x / 60)] is [x / 60], and [%] is the remainder that takes the
    sign of the dividend, [Z.rem]. *)
Definition _adjustEndTime (_oldStartTime : option Time)
    (vm : CalendarEventViewModel) : CalendarEventViewModel :=
  match startTime vm, endTime vm, _oldStartTime with
  | Some startTime, Some endTime, Some oldStartTime =>
      let endTotalMinutes := hours endTime * 60 + minutes endTime in
      let startTotalMinutes := hours startTime * 60 + minutes startTime in
      let diff := Z.abs (endTotalMinutes - hours oldStartTime * 60 - minutes oldStartTime) in
      let newEndTotalMinutes := startTotalMinutes + diff in
      let newEndHours := newEndTotalMinutes / 60 in
      let newEndHours := if 23 <? newEndHours then 23 else newEndHours in
      let newEndMinutes := Z.rem newEndTotalMinutes 60 in
      set_endTime (Some (newTime uenv newEndHours newEndMinutes)) vm
  | _, _, _ => vm
  end.

Definition setStartTime (value : option Time)
    (vm : CalendarEventViewModel) : CalendarEventViewModel :=
  let _oldStartTime := startTime vm in
  let vm1 := set_startTime value vm in
  let vm2 := if startDate vm1 =? endDate vm1 then _adjustEndTime _oldStartTime vm1 else vm1 in
  deleteExcludedDates vm2.

Definition setAllDay (newAllDay : bool)
    (vm : CalendarEventViewModel) : CalendarEventViewModel :=
  if bool_decide (newAllDay = _allDay vm) then vm
  else
    let vm1 := set_allDay newAllDay vm in
    match repeat vm1 with
    | None => vm1
    | Some r =>
        if newAllDay then
          set_repeat (Some (set_excludedDates
                              (map (getAllDayDateUTC uenv) (excludedDates r)) r)) vm1
        else
          match startTime vm1 with
          | Some startTime =>
              set_repeat (Some (set_excludedDates
                                  (map (Time_toDate uenv startTime) (excludedDates r)) r)) vm1
          | None => deleteExcludedDates vm1
          end
    end.

(** *** Alarms *)

Definition createCalendarAlarm (identifier trigger' : string) : AlarmInfo :=
  {| alarmIdentifier := identifier; trigger := trigger' |}.

Definition addAlarm (trigger' : string)
    (vm : CalendarEventViewModel) : CalendarEventViewModel :=
  let alarm := createCalendarAlarm (generateEventElementId uenv (now env)) trigger' in
  set_alarms (alarms vm ++ [alarm]) vm.

(** The loop of [changeAlarm] over the copy [newAlarms]: at the first alarm
    with the identifier, the trigger is written, or the alarm is removed when
    the trigger is null (or the empty string, which is falsy); [None] when the
    loop ends without a match and nothing is assigned. *)
Fixpoint changeAlarm_loop (identifier : string) (trigger' : option string)
    (newAlarms : list AlarmInfo) : option (list AlarmInfo) :=
  match newAlarms with
  | [] => None
  | a :: rest =>
      if bool_decide (alarmIdentifier a = identifier) then
        Some (match trigger' with
              | Some t =>
                  if bool_decide (t = "") then rest
                  else {| alarmIdentifier := alarmIdentifier a; trigger := t |} :: rest
              | None => rest
              end)
      else cons a <$> changeAlarm_loop identifier trigger' rest
  end.

Definition changeAlarm (identifier : string) (trigger' : option string)
    (vm : CalendarEventViewModel) : CalendarEventViewModel :=
  match changeAlarm_loop identifier trigger' (alarms vm) with
  | Some newAlarms => set_alarms newAlarms vm
  | None => vm
  end.

Definition changeDescription (description : string)
    (vm : CalendarEventViewModel) : CalendarEventViewModel :=
  set_note description vm.

(** *** What the editor may change *)

Definition isReadOnlyEvent (vm : CalendarEventViewModel) : bool :=
  bool_decide (_eventType vm = SHARED_RO)
  || (bool_decide (_eventType vm = SHARED_RW) && (0 <? Z.of_nat (length (attendees vm)))).

Definition canModifyGuests (vm : CalendarEventViewModel) : bool :=
  match selectedCalendar vm with
  | Some selectedCalendar =>
      negb (shared selectedCalendar) && negb (bool_decide (_eventType vm = INVITE))
  | None => false
  end.

Definition canModifyAlarms (vm : CalendarEventViewModel) : bool :=
  bool_decide (_eventType vm = OWN)
  || bool_decide (_eventType vm = INVITE)
  || bool_decide (_eventType vm = SHARED_RW).

Definition isForceUpdateAvailable (vm : CalendarEventViewModel) : bool :=
  bool_decide (_eventType vm = OWN) && _hasUpdatableAttendees vm.

Definition shouldShowPasswordFields (vm : CalendarEventViewModel) : bool :=
  isConfidential vm && bool_decide (_eventType vm = OWN).

Definition isInvite (vm : CalendarEventViewModel) : bool :=
  bool_decide (_eventType vm = INVITE).

(** [Array.from(this.calendars.values())] lists the calendars in the order of
    their insertion into the map; here they come in the order of their keys.
    In the read-only case the filter's callback asserts that there is an
    existing event, once per calendar. *)
Definition getAvailableCalendars (vm : CalendarEventViewModel)
    : Error + list CalendarInfo :=
  let calendarArray := (map_to_list (calendars vm)).*2 in
  if isReadOnlyEvent vm then
    match existingEvent vm with
    | Some ev =>
        inr (filter (fun calendarInfo =>
                       Some (group_id (group calendarInfo)) = _ownerGroup ev)
                    calendarArray)
    | None =>
        match calendarArray with
        | [] => inr []
        | _ :: _ => inl AssertNotNullFailed
        end
    end
  else if (0 <? Z.of_nat (length (attendees vm))) || bool_decide (_eventType vm = INVITE)
  then inr (filter (fun calendarInfo => shared calendarInfo = false) calendarArray)
  else inr (filter (fun calendarInfo =>
                      hasCapabilityOnGroup env (user (_userController vm))
                        (group calendarInfo) Write = true)
                   calendarArray).

(** *** Confidentiality and passwords *)

Definition set_confidential (c : bool) (m : SendMailModel) : SendMailModel :=
  {| toRecipients := toRecipients m; bccRecipients := bccRecipients m;
     confidential := c; passwords := passwords m;
     sender := sender m; senderName := senderName m |}.

(** Modelled from the spec: the roster keeps a password per address;
    [SendMailModel.setPassword] records it, [getPassword] yields the empty
    string for an address without one. *)
Definition setPassword (mailAddress password : string) (m : SendMailModel)
    : SendMailModel :=
  {| toRecipients := toRecipients m; bccRecipients := bccRecipients m;
     confidential := confidential m;
     passwords := <[mailAddress := password]> (passwords m);
     sender := sender m; senderName := senderName m |}.

Definition getPassword (mailAddress : string) (m : SendMailModel) : string :=
  default "" (passwords m !! mailAddress).

Definition setConfidential (confidential' : bool)
    (vm : CalendarEventViewModel) : CalendarEventViewModel :=
  let vm1 := set_inviteModel (set_confidential confidential' (_inviteModel vm)) vm in
  let vm2 := set_updateModel (set_confidential confidential' (_updateModel vm1)) vm1 in
  set_cancelModel (set_confidential confidential' (_cancelModel vm2)) vm2.

(** The password of a guest who is on the cancel roster is written to the
    update roster, as in the source. *)
Definition updatePassword (guest : Guest) (password : string)
    (vm : CalendarEventViewModel) : CalendarEventViewModel :=
  let guestAddress := address (g_address guest) in
  let vm1 :=
    match findRecipientWithAddress env r_address (bccRecipients (_inviteModel vm))
            guestAddress with
    | Some inInvite =>
        set_inviteModel (setPassword (r_address inInvite) password (_inviteModel vm)) vm
    | None => vm
    end in
  let vm2 :=
    match findRecipientWithAddress env r_address (bccRecipients (_updateModel vm1))
            guestAddress with
    | Some inUpdate =>
        set_updateModel (setPassword (r_address inUpdate) password (_updateModel vm1)) vm1
    | None => vm1
    end in
  match findRecipientWithAddress env r_address (bccRecipients (_cancelModel vm2))
          guestAddress with
  | Some inCancel =>
      set_updateModel (setPassword (r_address inCancel) password (_updateModel vm2)) vm2
  | None => vm2
  end.

(** [a || b || c] on strings: the first that is not empty, else the last. *)
Definition getGuestPassword (guest : Guest) (vm : CalendarEventViewModel) : string :=
  let a := getPassword (address (g_address guest)) (_inviteModel vm) in
  if negb (bool_decide (a = "")) then a
  else
    let b := getPassword (address (g_address guest)) (_updateModel vm) in
    if negb (bool_decide (b = "")) then b
    else getPassword (address (g_address guest)) (_cancelModel vm).

(** Modelled from the spec: [allRecipients] of a roster, the recipients of
    all its fields. *)
Definition allRecipients (m : SendMailModel) : list Recipient :=
  toRecipients m ++ bccRecipients m.

Definition getPasswordStrength (guest : Guest) (vm : CalendarEventViewModel) : Z :=
  let address' := address (g_address guest) in
  let getStrength (model : SendMailModel) : option Z :=
    modelGetPasswordStrength uenv model
      <$> findRecipientWithAddress env r_address (allRecipients model) address' in
  match getStrength (_inviteModel vm) with
  | Some inviteStrength => inviteStrength
  | None => default 0 (getStrength (_updateModel vm))
  end.

Definition _allRecipients (vm : CalendarEventViewModel) : list Recipient :=
  allRecipients (_inviteModel vm) ++ allRecipients (_updateModel vm)
    ++ allRecipients (_cancelModel vm).

End Editing.

(** ** Notions used by the further properties *)

Definition minutesOfDay (t : Time) : Z := hours t * 60 + minutes t.

Definition validTime (t : Time) : Prop :=
  0 <= hours t <= 23 ∧ 0 <= minutes t <= 59.

(** What is assumed of the constructor of [Time]: given an hour and a minute
    of the day, it yields the time with that hour and that minute. *)
Definition newTimeInRange (uenv : UtilEnv) : Prop :=
  ∀ h m, 0 <= h <= 23 → 0 <= m <= 59 →
         newTime uenv h m = {| hours := h; minutes := m |}.

(** The helpers in the UTC zone. *)
Definition utcUtil : UtilEnv :=
  {| newTime := fun h m => {| hours := Z.rem h 24; minutes := Z.rem m 60 |};
     Time_fromDate := fun d =>
       {| hours := (d mod msPerDay) / 3600000; minutes := (d mod 3600000) / 60000 |};
     Time_toDate := fun t d =>
       (d / msPerDay) * msPerDay + hours t * 3600000 + minutes t * 60000;
     setHours := fun d h => d - ((d mod msPerDay) / 3600000) * 3600000 + h * 3600000;
     setMinutes := fun d m => d - ((d mod 3600000) / 60000) * 60000 + m * 60000;
     getStartOfDayWithZone := fun d _ => (d / msPerDay) * msPerDay;
     getAllDayDateUTC := fun d => (d / msPerDay) * msPerDay;
     generateEventElementId := fun t => pretty t;
     modelGetPasswordStrength := fun m r =>
       Z.of_nat (String.length (default "" (passwords m !! r_address r))) |}.

(** A one-day draft from 10:00 to 11:30 with an excluded occurrence. *)
Definition morningVm : CalendarEventViewModel :=
  set_endTime (Some {| hours := 11; minutes := 30 |})
    (set_startTime (Some {| hours := 10; minutes := 0 |})
       (set_endDate (19428 * msPerDay) (set_startDate (19428 * msPerDay) recurringVm))).

Definition alarmIds (vm : CalendarEventViewModel) : list string :=
  alarmIdentifier <$> alarms vm.

(** An event with a guest, in a calendar shared with the editor for writing. *)
Definition sharedGuestVm : CalendarEventViewModel :=
  demoConstruct
    (Some (demoEvent (Some "rw") (Some other)
             [ {| att_address := other; att_status := ACCEPTED |} ])).

(** The fields of the view model that [_initGuestStatus] does not write,
    as far as the properties below read them. *)
Definition fixedByInitGuestStatus (vm : CalendarEventViewModel) :=
  (_eventType vm, existingEvent vm, calendars vm, _userController vm,
   _inviteModel vm, _cancelModel vm, _ownMailAddresses vm).

(** An existing attendee who has just been removed: on the cancel roster
    only. *)
Definition removedGuestVm : CalendarEventViewModel :=
  removeAttendee utcEnv
    {| g_address := other; g_type := UNKNOWN; g_status := ACCEPTED |}
    (demoConstruct
       (Some (demoEvent (Some "own") (Some me)
                [ {| att_address := me; att_status := ACCEPTED |};
                  {| att_address := other; att_status := ACCEPTED |} ]))).

(** ** Postconditions of resumptions

    [follows I Q p]: however [p] is resumed, with a state satisfying [I] each
    time, it is suspended only in states satisfying [I], and it ends with its
    calls [tr], in their order, its final state [vm] and its result [r]
    satisfying [Q tr vm r]. *)
Fixpoint follows (I : CalendarEventViewModel → Prop) {A}
    (Q : list Call → CalendarEventViewModel → Error + A → Prop) (p : Proc A) : Prop :=
  match p with
  | Done vm r => Q [] vm r
  | Susp vm c k =>
      I vm ∧ ∀ r vm', I vm' → follows I (λ tr, Q (call c :: tr)) (k r vm')
  end.

(** The fields that the guards of the save protocol read and that the
    protocol does not write. *)
Definition guardFields (vm : CalendarEventViewModel) :=
  (_eventType vm, _userController vm, isForceUpdates vm, hasBusinessFeature vm,
   _inviteModel vm, _updateModel vm, _cancelModel vm).

Definition sameGuards (vm0 vm : CalendarEventViewModel) : Prop :=
  guardFields vm = guardFields vm0.

(** The kinds of calls to collaborators. *)
Inductive CallKind :=
| KInitialized | KResolved | KAskForUpdates | KAskInsecurePassword | KIsNewPaidPlan
| KSendInvite | KSendCancellation | KSendUpdate | KSendResponse | KDispose
| KPersist | KLoad.

#[global] Instance CallKind_eq_dec : EqDecision CallKind.
Proof. solve_decision. Defined.

Definition callKind (c : Call) : CallKind :=
  match projT2 c with
  | AwaitInitialized => KInitialized
  | WaitForResolvedRecipients => KResolved
  | AskForUpdates => KAskForUpdates
  | AskInsecurePassword => KAskInsecurePassword
  | IsNewPaidPlan => KIsNewPaidPlan
  | SendInvite _ _ => KSendInvite
  | SendCancellation _ _ => KSendCancellation
  | SendUpdate _ _ => KSendUpdate
  | SendResponse _ _ _ _ _ => KSendResponse
  | DisposeModel _ => KDispose
  | CreateEvent _ _ _ _ | UpdateEvent _ _ _ _ _ => KPersist
  | LoadCalendarEvent _ => KLoad
  end.

Definition kindsOf (tr : list Call) : list CallKind := callKind <$> tr.

(** The call [_saveEvent] makes to the calendar store. *)
Definition saveEventCall (newEvent : CalendarEvent) (newAlarms : list AlarmInfo)
    (cal : CalendarInfo) (vm : CalendarEventViewModel) : ExtCall unit :=
  match existingEvent vm with
  | Some existing =>
      match _id existing with
      | Some _ => UpdateEvent newEvent newAlarms (_zone vm) (groupRoot cal) existing
      | None => CreateEvent newEvent newAlarms (_zone vm) (groupRoot cal)
      end
  | None => CreateEvent newEvent newAlarms (_zone vm) (groupRoot cal)
  end.

(** The error [saveAndSend] rejects with when its chain rejects with [e]. *)
Definition afterCatch (e : Error) : Error :=
  match e with
  | PayloadTooLargeError => UserError "requestTooLarge_msg"
  | _ => e
  end.

Definition countKind (k : CallKind) (l : list CallKind) : nat :=
  length (List.filter (λ x, bool_decide (x = k)) l).

Definition hasKind (k : CallKind) (l : list CallKind) : bool :=
  existsb (λ x, bool_decide (x = k)) l.

Definition hasAnyKind (ks l : list CallKind) : bool :=
  existsb (λ k, hasKind k l) ks.

(** [conclusion] holds unless [premise] fails. *)
Definition unless (premise conclusion : bool) : bool :=
  conclusion || negb premise.

(** What a run of [saveAndSend] satisfies, by the kinds of its calls and its
    outcome, for a view model with the given answers to its guards. *)
Definition saveAndSendPostB (fOwn fInvite fForce fFree fExternal
    fHasInvite fHasUpdate fHasCancel : bool) (kinds : list CallKind)
    (r : option bool) : bool :=
  (countKind KPersist kinds <=? 1)%nat
  && unless (bool_decide (r = Some false))
       (negb (hasAnyKind [KPersist; KSendInvite; KSendCancellation; KSendUpdate;
                          KSendResponse] kinds))
  && unless (bool_decide (r = Some true) && negb fExternal)
       (countKind KPersist kinds =? 1)%nat
  && unless (negb fOwn && negb fInvite)
       (negb (hasAnyKind [KSendInvite; KSendCancellation; KSendUpdate; KSendResponse;
                          KAskForUpdates; KAskInsecurePassword; KIsNewPaidPlan] kinds))
  && unless (fInvite && negb fOwn)
       (negb (hasAnyKind [KSendInvite; KSendCancellation; KSendUpdate;
                          KAskForUpdates; KAskInsecurePassword; KIsNewPaidPlan] kinds)
        && (countKind KSendResponse kinds <=? 1)%nat)
  && unless fOwn (negb (hasAnyKind [KSendResponse; KDispose] kinds))
  && unless fForce (negb (hasKind KAskForUpdates kinds))
  && unless fFree (negb (hasAnyKind [KSendCancellation; KSendUpdate; KIsNewPaidPlan] kinds))
  && unless (fFree && fHasInvite) (negb (hasKind KSendInvite kinds))
  && unless (negb fHasUpdate) (negb (hasAnyKind [KSendUpdate; KAskForUpdates] kinds))
  && unless (negb fHasCancel) (negb (hasKind KSendCancellation kinds))
  && unless (negb fHasInvite) (negb (hasKind KAskInsecurePassword kinds)).

Definition outcomeOf {A} (r : Error + A) : option A :=
  match r with inr a => Some a | inl _ => None end.

Definition saveAndSendPost (vm : CalendarEventViewModel) (tr : list Call)
    (v : CalendarEventViewModel) (r : Error + bool) : Prop :=
  saveAndSendPostB
    (bool_decide (_eventType vm = OWN))
    (bool_decide (_eventType vm = INVITE))
    (isForceUpdates vm)
    (bool_decide (accountType (user (_userController vm)) = FREE))
    (bool_decide (accountType (user (_userController vm)) = EXTERNAL))
    (0 <? Z.of_nat (length (bccRecipients (_inviteModel vm))))
    (0 <? Z.of_nat (length (bccRecipients (_updateModel vm))))
    (0 <? Z.of_nat (length (bccRecipients (_cancelModel vm))))
    (kindsOf tr) (outcomeOf r) = true
  ∧ (r = inl PayloadTooLargeError → kindsOf tr = [KInitialized]).

(** The initialisation of the view model fails for a request that is too
    large; every other collaborator succeeds. *)
Definition failingInitOracle : Oracle :=
  fun n R c =>
    match c in ExtCall R return Error + R with
    | AwaitInitialized => inl PayloadTooLargeError
    | c => benignOracle yes true true None n _ c
    end.

(** The calendar store refuses the event as too large. *)
Definition tooLargeOracle : Oracle :=
  fun n R c =>
    match c in ExtCall R return Error + R with
    | CreateEvent _ _ _ _ => inl PayloadTooLargeError
    | UpdateEvent _ _ _ _ _ => inl PayloadTooLargeError
    | c => benignOracle yes true true None n _ c
    end.

(** The draft of a new event with one guest, of a user on the free plan. *)
Definition freeVm : CalendarEventViewModel :=
  set_userController
    {| user := {| accountType := FREE |}; userGroupInfo := "me@tutanota.com" |}
    (addGuest utcEnv "x@ex.com" None draftVm).

(** An own event with one guest, as it comes from the calendar. *)
Definition guestEvent : CalendarEvent :=
  demoEvent (Some "own") (Some me)
    [ {| att_address := me; att_status := ACCEPTED |};
      {| att_address := other; att_status := ACCEPTED |} ].

Definition guestEventVm : CalendarEventViewModel := demoConstruct (Some guestEvent).

(** The editor is on neither the invite nor the update roster ("our own
    attendee should not be included in any of the sendMailModels"): no
    recipient there has the address of an own one, in whatever spelling, the
    way [findOwnAttendee] tells the editor from the guests. *)
Definition noOwnAddressInvited (env : Env) (vm : CalendarEventViewModel) : Prop :=
  ∀ r, r ∈ bccRecipients (_inviteModel vm) ∨ r ∈ bccRecipients (_updateModel vm) →
       cleanMailAddress env (r_address r)
       ∉ cleanMailAddress env <$> _ownMailAddresses vm.

(** A draft whose end is before its start, and a series' occurrence in the
    editor, with a calendar store that cannot load the series. *)
Definition endBeforeStartVm : CalendarEventViewModel :=
  set_endDate (startDate draftVm - msPerDay) draftVm.

Definition failingLoadOracle : Oracle :=
  fun n R c =>
    match c in ExtCall R return Error + R with
    | LoadCalendarEvent _ => inl NotFoundError
    | c => benignOracle yes true true None n _ c
    end.

Definition isCreateEvent (c : Call) : bool :=
  match projT2 c with CreateEvent _ _ _ _ => true | _ => false end.

(** An environment that differs from [utcEnv] in the normalization of
    addresses: the case of letters is folded, as for the attendee identity
    of the specification ("case/format-normalized for comparisons"). *)
Definition lowerAscii (c : Ascii.ascii) : Ascii.ascii :=
  let n := Ascii.nat_of_ascii c in
  if Nat.leb 65 n && Nat.leb n 90 then Ascii.ascii_of_nat (n + 32) else c.

Fixpoint toLowerCase (s : string) : string :=
  match s with
  | String.EmptyString => String.EmptyString
  | String.String c s' => String.String (lowerAscii c) (toLowerCase s')
  end.

Definition foldingEnv : Env :=
  {| cleanMailAddress := toLowerCase;
     getSenderName := getSenderName utcEnv;
     getDefaultSenderFromUser := getDefaultSenderFromUser utcEnv;
     hasCapabilityOnGroup := hasCapabilityOnGroup utcEnv;
     now := now utcEnv;
     getFullYear := getFullYear utcEnv;
     setFullYear := setFullYear utcEnv;
     TIMESTAMP_ZERO_YEAR := TIMESTAMP_ZERO_YEAR utcEnv;
     plusDays := plusDays utcEnv;
     setHourMinute := setHourMinute utcEnv;
     getDiffInDays := getDiffInDays utcEnv;
     incrementByRepeatPeriod := incrementByRepeatPeriod utcEnv;
     incrementSequence := incrementSequence utcEnv;
     getAllDayDateUTCFromZone := getAllDayDateUTCFromZone utcEnv;
     getStartOfNextDayWithZone := getStartOfNextDayWithZone utcEnv;
     getEventStart := getEventStart utcEnv;
     generateUid := generateUid utcEnv;
     createRepeatRuleWithValues := createRepeatRuleWithValues utcEnv;
     checkEventValidity := checkEventValidity utcEnv;
     createCalendarEvent := createCalendarEvent utcEnv;
     modelHasInsecurePasswords := modelHasInsecurePasswords utcEnv;
     modelContainsExternalRecipients := modelContainsExternalRecipients utcEnv;
     numberToString := numberToString utcEnv |}.

(** An invitation read from a file: no calendar of the editor's holds it, and
    it names no organizer.  The editor accepts it. *)
Definition fileInviteEvent : CalendarEvent :=
  demoEvent None None
    [ {| att_address := me; att_status := NEEDS_ACTION |};
      {| att_address := other; att_status := ACCEPTED |} ].

Definition acceptingFileVm : CalendarEventViewModel :=
  set_endTime (Some {| hours := 11; minutes := 0 |})
    (set_startTime (Some {| hours := 10; minutes := 0 |})
       (selectGoing utcEnv ACCEPTED (demoConstruct (Some fileInviteEvent)))).

(** * Properties *)

Section RoleClassification.

Variable env : Env.


End RoleClassification.


(** ** The change detector *)

Lemma areExcludedDatesEqual_spec (e1 e2 : list DateWrapper) :
  areExcludedDatesEqual e1 e2 = true ↔ map date e1 = map date e2.
Proof.
  unfold areExcludedDatesEqual.
  destruct (Z.eqb_spec (Z.of_nat (length e1)) (Z.of_nat (length e2))) as [Hl|Hl]; cbn.
  - apply Nat2Z.inj in Hl. revert e2 Hl.
    induction e1 as [|d1 e1 IH]; intros [|d2 e2] Hl; cbn in *; try discriminate; [done|].
    rewrite andb_true_iff, Z.eqb_eq, IH by lia.
    split; [intros [-> ->]; done | intros [= -> ->]; done].
  - split; [discriminate|]. intros H. apply (f_equal (@length _)) in H.
    rewrite !length_map in H. lia.
Qed.

Lemma areRepeatRulesEqual_spec (r1 r2 : option CalendarRepeatRule) :
  areRepeatRulesEqual r1 r2 = true ↔ repeatRuleFields <$> r1 = repeatRuleFields <$> r2.
Proof.
  unfold areRepeatRulesEqual.
  destruct r1 as [r1|], r2 as [r2|]; cbn; try (split; [discriminate|discriminate]).
  - rewrite !andb_true_iff, !bool_decide_eq_true, areExcludedDatesEqual_spec.
    unfold repeatRuleFields. split.
    + intros (((((H1 & H2) & H3) & H4) & H5) & H6). congruence.
    + intros [= H1 H2 H3 H4 H5 H6]. repeat split; congruence.
  - split; reflexivity.
Qed.

Lemma removeFirstMatch_Some {T} (p : T → bool) (l l' : list T) :
  removeFirstMatch p l = Some l' → ∃ y, p y = true ∧ l ≡ₚ y :: l'.
Proof.
  revert l'; induction l as [|x l IH]; intros l'; cbn; [discriminate|].
  destruct (p x) eqn:Hp.
  - intros [= <-]. eauto.
  - destruct (removeFirstMatch p l) as [l0|]; cbn; [|discriminate].
    intros [= <-]. destruct (IH l0 eq_refl) as (y & Hy & Hperm).
    exists y. split; [done|]. rewrite Hperm. apply Permutation_swap.
Qed.

Lemma removeFirstMatch_None {T} (p : T → bool) (l : list T) :
  removeFirstMatch p l = None → ∀ y, y ∈ l → p y = false.
Proof.
  induction l as [|x l IH]; cbn; intros H y Hy.
  - by apply elem_of_nil in Hy.
  - destruct (p x) eqn:Hp; [discriminate|].
    destruct (removeFirstMatch p l); [discriminate|].
    apply elem_of_cons in Hy as [->|Hy]; auto.
Qed.

(** The order-insensitive comparison decides equality of the two arrays as
    multisets of keys whenever the predicate is equality of keys. *)
Lemma arrayEqualsWithPredicate_perm {T K} (key : T → K) (predicate : T → T → bool)
    (a1 a2 : list T) :
  (∀ x y, predicate x y = true ↔ key x = key y) →
  arrayEqualsWithPredicate a1 a2 predicate = true ↔ key <$> a1 ≡ₚ key <$> a2.
Proof.
  intros Hpred. revert a2; induction a1 as [|x a1 IH]; intros a2; cbn.
  - destruct a2; cbn; split; try done.
    intros H. by apply Permutation_nil_cons in H.
  - destruct (removeFirstMatch (predicate x) a2) as [a2'|] eqn:Hrem.
    + apply removeFirstMatch_Some in Hrem as (y & Hy & Hperm).
      apply Hpred in Hy. rewrite IH, Hperm. cbn. rewrite Hy. split.
      * intros ->. reflexivity.
      * apply Permutation_cons_inv.
    + split; [discriminate|]. intros Hperm.
      assert (key x ∈ key <$> a2) as Hin.
      { rewrite <- Hperm. apply elem_of_cons. by left. }
      apply list_elem_of_fmap in Hin as (y & Hxy & Hy).
      pose proof (removeFirstMatch_None _ _ Hrem y Hy) as Hf.
      apply Hpred in Hxy. congruence.
Qed.

(** C2. With an original event present, the change detector answers true
    exactly when the candidate differs from it in start instant, end instant,
    description, summary, location, confidentiality flag, UID, organizer
    address (names ignored), recurrence rule (field by field, exclusions by
    their instants in order) or attendees (as a multiset of normalized
    address and status, names and order ignored); a candidate that differs
    only in its sequence counter is unchanged. *)
Theorem _hasChanges_iff_listed_difference (env : Env) (vm : CalendarEventViewModel)
    (newEvent original : CalendarEvent) :
  existingEvent vm = Some original →
  (_hasChanges env newEvent vm = true ↔
     ev_startTime newEvent ≠ ev_startTime original
     ∨ ev_endTime newEvent ≠ ev_endTime original
     ∨ ev_description newEvent ≠ ev_description original
     ∨ ev_summary newEvent ≠ ev_summary original
     ∨ ev_location newEvent ≠ ev_location original
     ∨ invitedConfidentially newEvent ≠ invitedConfidentially original
     ∨ uid newEvent ≠ uid original
     ∨ address <$> ev_organizer newEvent ≠ address <$> ev_organizer original
     ∨ repeatRuleFields <$> repeatRule newEvent ≠ repeatRuleFields <$> repeatRule original
     ∨ ¬ (attendeeKey env <$> ev_attendees newEvent
          ≡ₚ attendeeKey env <$> ev_attendees original))
  ∧ (∀ q : string, _hasChanges env (set_sequence q original) vm = false).
Proof.
  intros Hex.
  assert (∀ ev : CalendarEvent, _hasChanges env ev vm = true ↔
     ev_startTime ev ≠ ev_startTime original
     ∨ ev_endTime ev ≠ ev_endTime original
     ∨ ev_description ev ≠ ev_description original
     ∨ ev_summary ev ≠ ev_summary original
     ∨ ev_location ev ≠ ev_location original
     ∨ invitedConfidentially ev ≠ invitedConfidentially original
     ∨ uid ev ≠ uid original
     ∨ address <$> ev_organizer ev ≠ address <$> ev_organizer original
     ∨ repeatRuleFields <$> repeatRule ev ≠ repeatRuleFields <$> repeatRule original
     ∨ ¬ (attendeeKey env <$> ev_attendees ev
          ≡ₚ attendeeKey env <$> ev_attendees original)) as Hiff.
  { intros ev. unfold _hasChanges. rewrite Hex.
    rewrite !orb_true_iff, andb_true_iff, !negb_true_iff.
    rewrite !Z.eqb_neq, !bool_decide_eq_false.
    rewrite <- !not_true_iff_false, areRepeatRulesEqual_spec.
    rewrite (arrayEqualsWithPredicate_perm (attendeeKey env)).
    2:{ intros x y. rewrite andb_true_iff, !bool_decide_eq_true.
        unfold attendeeKey. split; [intros [-> ->]; done | intros [= -> ->]; done]. }
    assert ((andb (bool_decide (ev_organizer ev = None))
                  (bool_decide (ev_organizer original = None)) ≠ true
             ∧ address <$> ev_organizer ev ≠ address <$> ev_organizer original)
            ↔ address <$> ev_organizer ev ≠ address <$> ev_organizer original) as ->.
    { split; [tauto|]. intros Hne. split; [|done].
      destruct (ev_organizer ev), (ev_organizer original); cbn in *; congruence. }
    tauto. }
  split; [apply Hiff|].
  intros q. apply not_true_iff_false. rewrite Hiff. cbn. intuition.
Qed.

Lemma _hasChanges_iff_listed_difference_witness :
  _hasChanges utcEnv (set_sequence "7" sharedEvent) (demoConstruct (Some sharedEvent)) = false.
Proof.
  exact (proj2 (_hasChanges_iff_listed_difference utcEnv (demoConstruct (Some sharedEvent))
                  (set_sequence "7" sharedEvent) sharedEvent eq_refl) "7").
Defined.

(** ** Recurrence setters and exclusions *)

Lemma repeat_set_repeat (r : option RepeatData) (vm : CalendarEventViewModel) :
  repeat (set_repeat r vm) = r.
Proof. reflexivity. Qed.

Lemma exclusionsOf_deleteExcludedDates (vm : CalendarEventViewModel) :
  exclusionsOf (deleteExcludedDates vm) = [].
Proof.
  unfold exclusionsOf, deleteExcludedDates.
  destruct (repeat vm) eqn:Hr; cbn; [reflexivity | by rewrite Hr].
Qed.

(** The claim of C3 as stated fails for the end-value setter: on a rule that
    never ends, selecting a number of occurrences other than the current end
    value leaves the exclusions in place. *)
Lemma onEndOccurencesSelected_keeps_exclusions :
  exclusionsOf recurringVm = [1678579200000]
  ∧ (endValue <$> repeat recurringVm) = Some 1
  ∧ exclusionsOf (onEndOccurencesSelected 5 recurringVm) = [1678579200000].
Proof. repeat split. Qed.

(** C3, amended.  On a draft with a recurrence rule, the frequency, interval
    and end-type setters called with a value other than the current one empty
    the exclusion list; the two end-value setters do so when the rule's end
    type is theirs ([Count] for the number of occurrences, [UntilDate] for the
    end date) and otherwise change nothing; every setter called with the
    current value leaves the draft, and so the rule with its exclusions, as it
    was. *)
Theorem recurrence_setters_exclusions (env : Env) (vm : CalendarEventViewModel)
    (r : RepeatData) :
  repeat vm = Some r →
  (* a different value *)
  (∀ p, p ≠ frequency r → exclusionsOf (onRepeatPeriodSelected (Some p) vm) = [])
  ∧ exclusionsOf (onRepeatPeriodSelected None vm) = []
  ∧ (∀ i, i ≠ interval r → exclusionsOf (onRepeatIntervalChanged i vm) = [])
  ∧ (∀ e, e ≠ endType r → exclusionsOf (onRepeatEndTypeChanged env e vm) = [])
  ∧ (∀ v, endType r = Count → v ≠ endValue r →
          exclusionsOf (onEndOccurencesSelected v vm) = [])
  ∧ (∀ v, endType r = UntilDate → v ≠ endValue r →
          exclusionsOf (onRepeatEndDateSelected v vm) = [])
  (* an end value that is not of the rule's end type *)
  ∧ (∀ v, endType r ≠ Count → onEndOccurencesSelected v vm = vm)
  ∧ (∀ v, endType r ≠ UntilDate → onRepeatEndDateSelected v vm = vm)
  (* the current value *)
  ∧ onRepeatPeriodSelected (Some (frequency r)) vm = vm
  ∧ onRepeatIntervalChanged (interval r) vm = vm
  ∧ onRepeatEndTypeChanged env (endType r) vm = vm
  ∧ onEndOccurencesSelected (endValue r) vm = vm
  ∧ onRepeatEndDateSelected (endValue r) vm = vm.
Proof.
  intros Hr.
  unfold onRepeatPeriodSelected, onRepeatIntervalChanged, onRepeatEndTypeChanged,
    onEndOccurencesSelected, onRepeatEndDateSelected.
  rewrite Hr. cbn [fmap option_fmap option_map].
  repeat match goal with |- _ ∧ _ => split end.
  - intros p Hp. rewrite bool_decide_eq_false_2 by congruence.
    apply exclusionsOf_deleteExcludedDates.
  - reflexivity.
  - intros i Hi. destruct (Z.eqb_spec (interval r) i) as [|_]; [congruence|]. cbn.
    reflexivity.
  - intros e He. rewrite bool_decide_eq_false_2 by congruence. cbn.
    unfold exclusionsOf, deleteExcludedDates. cbn. reflexivity.
  - intros v Hc Hv. rewrite bool_decide_eq_true_2 by done.
    destruct (Z.eqb_spec (endValue r) v) as [|_]; [congruence|]. cbn.
    reflexivity.
  - intros v Hc Hv. rewrite bool_decide_eq_true_2 by done.
    destruct (Z.eqb_spec (endValue r) v) as [|_]; [congruence|]. cbn.
    reflexivity.
  - intros v Hc. by rewrite bool_decide_eq_false_2.
  - intros v Hc. by rewrite bool_decide_eq_false_2.
  - by rewrite bool_decide_eq_true_2.
  - by rewrite Z.eqb_refl.
  - by rewrite bool_decide_eq_true_2.
  - rewrite Z.eqb_refl. by rewrite andb_false_r.
  - rewrite Z.eqb_refl. by rewrite andb_false_r.
Qed.

Lemma recurrence_setters_exclusions_witness :
  exclusionsOf (onRepeatIntervalChanged 2 recurringVm) = []
  ∧ exclusionsOf (onRepeatEndTypeChanged utcEnv Count recurringVm) = []
  ∧ onEndOccurencesSelected 5 recurringVm = recurringVm
  ∧ onRepeatIntervalChanged 1 recurringVm = recurringVm.
Proof.
  pose proof (recurrence_setters_exclusions utcEnv recurringVm weeklyNever eq_refl)
    as (_ & _ & Hi & He & _ & _ & Hocc & _ & _ & Hsame & _).
  exact (conj (Hi 2 ltac:(discriminate))
          (conj (He Count ltac:(discriminate))
             (conj (Hocc 5 ltac:(discriminate)) Hsame))).
Defined.

(** ** Start date *)

Lemma utcEnv_dayLaws : dayLaws utcEnv.
Proof.
  split; cbn; intros z d a b.
  - lia.
  - unfold msPerDay.
    replace (2 * (d + b * 86400000 - (d + a * 86400000)) + 86400000)
      with (86400000 + (b - a) * (2 * 86400000)) by lia.
    rewrite Z.div_add by lia. rewrite Z.div_small; lia.
Qed.

(** C4. A new start date other than the current one, not before the minimum
    supported year, becomes the start date, moves the end date by the number
    of days the start date moved, and empties the exclusions; where whole-day
    arithmetic holds and the three dates lie whole days apart, the end date
    moves by as many days as the start date and the duration in days is kept.
    A new start date before the minimum supported year is instead set with
    its year replaced by the current year, and nothing else changes. *)
Theorem setStartDate_shifts_end_and_clears (env : Env) (vm : CalendarEventViewModel)
    (date' : Date) :
  date' ≠ startDate vm →
  (TIMESTAMP_ZERO_YEAR env ≤ getFullYear env date' →
     let vm' := setStartDate env date' vm in
     startDate vm' = date'
     ∧ endDate vm'
       = plusDays env (_zone vm) (endDate vm) (getDiffInDays env (startDate vm) date')
     ∧ exclusionsOf vm' = []
     ∧ (dayLaws env →
        ∀ base s e t,
          startDate vm = plusDays env (_zone vm) base s →
          endDate vm = plusDays env (_zone vm) base e →
          date' = plusDays env (_zone vm) base t →
          getDiffInDays env (endDate vm) (endDate vm')
          = getDiffInDays env (startDate vm) (startDate vm')
          ∧ getDiffInDays env (startDate vm') (endDate vm')
            = getDiffInDays env (startDate vm) (endDate vm)))
  ∧ (getFullYear env date' < TIMESTAMP_ZERO_YEAR env →
     setStartDate env date' vm
     = set_startDate (setFullYear env date' (getFullYear env (now env))) vm).
Proof.
  intros Hne. unfold setStartDate.
  destruct (Z.eqb_spec date' (startDate vm)) as [|_]; [done|].
  split.
  - intros Hyear.
    destruct (Z.ltb_spec (getFullYear env date') (TIMESTAMP_ZERO_YEAR env)) as [|_]; [lia|].
    cbn zeta.
    assert (∀ v, startDate (deleteExcludedDates v) = startDate v) as Hs.
    { intros v. unfold deleteExcludedDates. by destruct (repeat v). }
    assert (∀ v, endDate (deleteExcludedDates v) = endDate v) as He.
    { intros v. unfold deleteExcludedDates. by destruct (repeat v). }
    rewrite Hs, He. cbn [startDate endDate set_startDate set_endDate].
    repeat match goal with |- _ ∧ _ => split end; try reflexivity.
    + apply exclusionsOf_deleteExcludedDates.
    + intros [Hadd Hdiff] base s e t Hstart Hend Hdate.
      rewrite Hstart, Hend, Hdate, !Hdiff, Hadd, !Hdiff. lia.
  - intros Hyear.
    destruct (Z.ltb_spec (getFullYear env date') (TIMESTAMP_ZERO_YEAR env)); [done|lia].
Qed.

Lemma setStartDate_shifts_end_and_clears_witness :
  let vm' := setStartDate utcEnv (19431 * msPerDay) marchVm in
  startDate vm' = 19431 * msPerDay
  ∧ endDate vm' = 19433 * msPerDay
  ∧ exclusionsOf vm' = []
  ∧ getDiffInDays utcEnv (startDate vm') (endDate vm') = 2.
Proof.
  pose proof (setStartDate_shifts_end_and_clears utcEnv marchVm (19431 * msPerDay)
                ltac:(discriminate)) as [H _].
  specialize (H ltac:(vm_compute; discriminate)).
  cbn zeta in H. destruct H as (Hs & He & Hx & Hd).
  destruct (Hd utcEnv_dayLaws 0 19428 19430 19431 eq_refl eq_refl eq_refl) as [_ Hdur].
  exact (conj Hs (conj He (conj Hx Hdur))).
Defined.

(** ** Guests *)

Lemma find_None_iff {A} (f : A → bool) (l : list A) :
  List.find f l = None ↔ ∀ x, x ∈ l → f x = false.
Proof.
  induction l as [|y l IH]; cbn.
  - split; [|done]. intros _ x Hx. by apply elem_of_nil in Hx.
  - destruct (f y) eqn:Hy.
    + split; [discriminate|]. intros H. specialize (H y (list_elem_of_here _ _)). congruence.
    + rewrite IH. split.
      * intros H x Hx. apply elem_of_cons in Hx as [->|Hx]; auto.
      * intros H x Hx. apply H. by apply list_elem_of_further.
Qed.

Lemma find_Some_elem {A} (f : A → bool) (l : list A) (x : A) :
  List.find f l = Some x → x ∈ l ∧ f x = true.
Proof.
  intros H. apply find_some in H as [Hin Hf]. split; [|done].
  by apply list_elem_of_In.
Qed.

Lemma copyMailAddress_id (a : EncryptedMailAddress) : copyMailAddress a = a.
Proof. by destruct a. Qed.

Lemma selectGoing_inviteModel env g vm :
  _inviteModel (selectGoing env g vm) = _inviteModel vm.
Proof. unfold selectGoing. repeat case_match; reflexivity. Qed.

Lemma selectGoing_organizer env g vm :
  organizer (selectGoing env g vm) = organizer vm.
Proof. unfold selectGoing. repeat case_match; reflexivity. Qed.

Lemma selectGoing_keeps_accepted env vm a :
  _guestStatuses vm !! a = Some ACCEPTED →
  _guestStatuses (selectGoing env ACCEPTED vm) !! a = Some ACCEPTED.
Proof.
  intros H. unfold selectGoing. repeat case_match; try done; cbn.
  - destruct (decide (address e = a)) as [->|Hne].
    + apply lookup_insert_eq.
    + by rewrite lookup_insert_ne.
  - destruct (decide (getSender (_inviteModel vm) = a)) as [->|Hne].
    + apply lookup_insert_eq.
    + by rewrite lookup_insert_ne.
Qed.

Lemma setOrganizer_inviteModel env o vm :
  _inviteModel (setOrganizer env o vm) = _inviteModel vm.
Proof. unfold setOrganizer. by case_match. Qed.

Lemma setOrganizer_guestStatuses env o vm :
  _guestStatuses (setOrganizer env o vm) = _guestStatuses vm.
Proof. unfold setOrganizer. by case_match. Qed.

(** An address that is not an attendee is on neither the invite nor the
    update roster. *)
Lemma not_attendee_not_invited env vm a :
  findAttendeeInAddresses env g_address (attendees vm) [a] = None →
  findRecipientWithAddress env r_address (bccRecipients (_inviteModel vm)) a = None.
Proof.
  unfold findAttendeeInAddresses, findRecipientWithAddress.
  rewrite !find_None_iff. intros H r Hr.
  specialize (H {| g_address := {| name := r_name r; address := r_address r |};
                   g_status := default NEEDS_ACTION (_guestStatuses vm !! r_address r);
                   g_type := r_type r |}).
  cbn in H. rewrite bool_decide_eq_false in *. intros Heq. apply H; [|rewrite Heq; set_solver].
  unfold attendees.
  assert ({| g_address := {| name := r_name r; address := r_address r |};
             g_type := r_type r;
             g_status := default NEEDS_ACTION (_guestStatuses vm !! r_address r) |}
          ∈ makeGuestList vm (_inviteModel vm)) as Hin.
  { unfold makeGuestList. apply list_elem_of_fmap. by exists r. }
  destruct (_ownAttendee vm); [apply list_elem_of_further|]; apply elem_of_app; by left.
Qed.

Lemma canModifyOrganizer_set_guestStatuses env m vm :
  canModifyOrganizer env (set_guestStatuses m vm) = canModifyOrganizer env vm.
Proof. reflexivity. Qed.


Lemma selectGoing_ownAttendee_Some env g vm o :
  _ownAttendee vm = Some o → _ownAttendee (selectGoing env g vm) = Some o.
Proof. intros H. unfold selectGoing. rewrite H. by case_match. Qed.

Lemma length_attendees_own vm o :
  _ownAttendee vm = Some o →
  length (attendees vm)
  = S (length (bccRecipients (_inviteModel vm)) + length (bccRecipients (_updateModel vm))).
Proof.
  intros H. unfold attendees, makeGuestList. rewrite H. cbn.
  by rewrite length_app, !length_map.
Qed.


Lemma canModifyOrganizer_lockFields env vm vm' :
  lockFields vm' = lockFields vm → canModifyOrganizer env vm' = canModifyOrganizer env vm.
Proof. unfold lockFields, canModifyOrganizer. intros [= -> -> -> _]. reflexivity. Qed.

Lemma _initGuestStatus_frame env ex vm :
  lockFields (_initGuestStatus env ex vm) = lockFields vm
  ∧ organizer (_initGuestStatus env ex vm) = organizer vm.
Proof.
  unfold _initGuestStatus. destruct ex as [ev|]; [|done].
  change (lockFields vm) with (lockFields (set_guestStatuses ∅ vm)).
  change (organizer vm) with (organizer (set_guestStatuses ∅ vm)).
  generalize (set_guestStatuses ∅ vm). clear vm.
  induction (ev_attendees ev) as [|att l IH]; intros v; cbn [foldl]; [done|].
  destruct (IH (set_guestStatuses
                  (<[address (att_address att):=att_status att]>
                     (_guestStatuses
                        (if bool_decide (is_Some (findAttendeeInAddresses env att_address
                                                    [att] (_ownMailAddresses v)))
                         then set_ownAttendee (Some (copyMailAddress (att_address att))) v
                         else set_updateModel
                                (addRecipient env BCC
                                   {| pr_address := address (att_address att);
                                      pr_name := Some (name (att_address att));
                                      pr_contact := None |} (_updateModel v)) v)))
                  (if bool_decide (is_Some (findAttendeeInAddresses env att_address
                                              [att] (_ownMailAddresses v)))
                   then set_ownAttendee (Some (copyMailAddress (att_address att))) v
                   else set_updateModel
                          (addRecipient env BCC
                             {| pr_address := address (att_address att);
                                pr_name := Some (name (att_address att));
                                pr_contact := None |} (_updateModel v)) v)))
    as [IH1 IH2].
  rewrite IH1, IH2. by case_match.
Qed.

(** The constructor leaves the organizer locked to the possible organizer. *)
Lemma construct_organizerLocked env uc mp own im um cm rm zone cals ex rt sel :
  organizerLocked env (construct env uc mp own im um cm rm zone cals ex rt sel).
Proof.
  unfold organizerLocked, construct.
  match goal with |- context [_initGuestStatus env ex ?b] => set (base := b) end.
  destruct (_initGuestStatus_frame env ex base) as [Hf Ho].
  rewrite (canModifyOrganizer_lockFields _ _ _ Hf), Ho.
  injection Hf as _ _ _ ->.
  unfold canModifyOrganizer. subst base.
  cbn [_eventType existingEvent _ownMailAddresses possibleOrganizers organizer].
  unfold initEventTypeAndOrganizers.
  destruct ex as [ev|]; [|cbn; discriminate].
  destruct (hasGuests env (Some ev) own) eqn:Hg;
    destruct (calendarInfoForEvent ev cals) as [info|];
    try destruct (shared info);
    try case_match;
    destruct (ev_organizer ev) as [o|];
    cbn [ret_eventType ret_organizer ret_possibleOrganizers fmap option_fmap option_map];
    rewrite ?copyMailAddress_id;
    intros Hcan o' Ho';
    try (by apply elem_of_nil in Ho');
    try (by apply list_elem_of_singleton in Ho' as ->);
    try (by rewrite bool_decide_eq_true_2 in Hcan by done).
Qed.

Lemma selectGoing_lockFields env g vm : lockFields (selectGoing env g vm) = lockFields vm.
Proof. unfold selectGoing. repeat case_match; reflexivity. Qed.

Lemma setOrganizer_lockFields env o vm : lockFields (setOrganizer env o vm) = lockFields vm.
Proof. unfold setOrganizer. by case_match. Qed.

Lemma addGuest_lockFields env a contact vm :
  lockFields (addGuest env a contact vm) = lockFields vm.
Proof.
  unfold addGuest.
  repeat (case_match; rewrite ?selectGoing_lockFields, ?setOrganizer_lockFields;
          try reflexivity).
Qed.

(** [addGuest] keeps the organizer locked where it was. *)
Lemma addGuest_organizerLocked env a contact vm :
  organizerLocked env vm → organizerLocked env (addGuest env a contact vm).
Proof.
  unfold organizerLocked.
  rewrite (canModifyOrganizer_lockFields _ _ _ (addGuest_lockFields env a contact vm)).
  pose proof (addGuest_lockFields env a contact vm) as [= _ _ _ ->].
  intros Hlocked Hcan o Ho. rewrite <- (Hlocked Hcan o Ho).
  unfold addGuest.
  repeat (case_match; rewrite ?selectGoing_organizer; try reflexivity);
    unfold setOrganizer;
    (erewrite canModifyOrganizer_lockFields; [rewrite Hcan|]); reflexivity.
Qed.


(** ** Excluding one occurrence *)

Lemma insertExcludedDate_skip (x : DateWrapper) (l : list DateWrapper) (t : Date) :
  date x < t → insertExcludedDate (x :: l) t = x :: insertExcludedDate l t.
Proof.
  intros Hlt. unfold insertExcludedDate. cbn [findIndex].
  destruct (Z.leb_spec t (date x)) as [|_]; [lia|].
  set (i := findIndex (λ d : DateWrapper, t <=? date d) l).
  assert (-1 ≤ i) as Hi.
  { subst i. induction l as [|y l IH]; cbn; [lia|].
    destruct (t <=? date y); [lia|].
    destruct (Z.ltb_spec (findIndex (λ d : DateWrapper, t <=? date d) l) 0); lia. }
  destruct (Z.ltb_spec i 0) as [Hneg|Hpos].
  - reflexivity.
  - destruct (Z.ltb_spec (i + 1) 0) as [|_]; [lia|].
    unfold splice0. replace (Z.to_nat (i + 1)) with (S (Z.to_nat i)) by lia.
    reflexivity.
Qed.

(** The new instant goes right before the first exclusion that is not
    earlier, or to the end. *)
Lemma insertExcludedDate_split (l : list DateWrapper) (t : Date) :
  ∃ before after,
    l = before ++ after
    ∧ insertExcludedDate l t = before ++ {| date := t |} :: after
    ∧ Forall (λ d, date d < t) before
    ∧ match after with [] => True | d :: _ => t ≤ date d end.
Proof.
  induction l as [|x l (before & after & Hl & Hins & Hb & Ha)].
  - exists [], []. by repeat split.
  - destruct (Z.leb_spec t (date x)) as [Hle|Hlt].
    + exists [], (x :: l). repeat split; [|done..].
      unfold insertExcludedDate. cbn [findIndex].
      destruct (Z.leb_spec t (date x)); [reflexivity|lia].
    + exists (x :: before), after. repeat split.
      * by rewrite Hl.
      * by rewrite insertExcludedDate_skip, Hins.
      * by constructor.
      * done.
Qed.

Lemma StronglySorted_insert_between (b a : list Z) (t : Z) :
  StronglySorted Z.le (b ++ a) →
  Forall (λ d, d < t) b →
  match a with [] => True | d :: _ => t ≤ d end →
  StronglySorted Z.le (b ++ t :: a).
Proof.
  induction b as [|x b IH]; cbn; intros Hs Hb Ha.
  - constructor; [done|]. destruct a as [|d a]; [constructor|].
    apply StronglySorted_inv in Hs as [_ Hd].
    constructor; [done|]. eapply Forall_impl; [exact Hd|]. cbn. lia.
  - apply StronglySorted_inv in Hs as [Hs Hx].
    apply Forall_cons in Hb as [Hxt Hb].
    constructor; [by apply IH|].
    apply Forall_app in Hx as [Hx1 Hx2].
    apply Forall_app. split; [done|]. constructor; [lia|done].
Qed.

Lemma insertExcludedDate_sorted (l : list DateWrapper) (t : Date) :
  Sorted Z.le (date <$> l) → Sorted Z.le (date <$> insertExcludedDate l t).
Proof.
  intros Hs. destruct (insertExcludedDate_split l t) as (b & a & Hl & -> & Hb & Ha).
  apply StronglySorted_Sorted. rewrite fmap_app, fmap_cons. cbn.
  apply StronglySorted_insert_between.
  - rewrite <- fmap_app, <- Hl. apply Sorted_StronglySorted; [|done].
    intros x y z. lia.
  - by apply Forall_fmap.
  - by destruct a.
Qed.

(** C8. For a recurring series whose root event has its exclusions sorted
    ascending, [excludeThisOccurrence] loads the root, puts the clicked
    instance's start instant right before the first exclusion that is not
    earlier (at the end when there is none), and persists the root with that
    list as the exclusions of its rule, sorted ascending again, the other
    fields of the rule and the attendees being those of the root; the view
    model, the draft of the clicked instance, is left as it was. *)
Theorem excludeThisOccurrence_keeps_exclusions_sorted (o : Oracle) (n : nat)
    (vm : CalendarEventViewModel) (clicked root : CalendarEvent)
    (rule : CalendarRepeatRule) (selected calendarForEvent : CalendarInfo)
    (ownerGroup : Id) :
  existingEvent vm = Some clicked →
  selectedCalendar vm = Some selected →
  is_Some (repeatRule clicked) →
  o n _ (LoadCalendarEvent (_id clicked)) = inr (Some root) →
  repeatRule root = Some rule →
  _ownerGroup clicked = Some ownerGroup →
  calendars vm !! ownerGroup = Some calendarForEvent →
  Sorted Z.le (date <$> rr_excludedDates rule) →
  ∃ before after,
    rr_excludedDates rule = before ++ after
    ∧ Forall (λ d, date d < ev_startTime clicked) before
    ∧ match after with [] => True | d :: _ => ev_startTime clicked ≤ date d end
    ∧ let excluded := before ++ {| date := ev_startTime clicked |} :: after in
      let event := set_repeatRule (Some (set_rr_excludedDates excluded rule)) root in
      let persisted :=
        UpdateEvent event (alarms vm) (_zone vm) (groupRoot calendarForEvent) clicked in
      Sorted Z.le (date <$> excluded)
      ∧ rr_excludedDates <$> repeatRule event = Some excluded
      ∧ (∃ rule', repeatRule event = Some rule'
                  ∧ Sorted Z.le (date <$> rr_excludedDates rule')
                  ∧ rr_endType rule' = rr_endType rule
                  ∧ rr_endValue rule' = rr_endValue rule
                  ∧ rr_frequency rule' = rr_frequency rule
                  ∧ rr_interval rule' = rr_interval rule
                  ∧ rr_timeZone rule' = rr_timeZone rule)
      ∧ ev_attendees event = ev_attendees root
      ∧ run o n (excludeThisOccurrence vm)
        = (vm, o (S n) _ persisted,
           [call (LoadCalendarEvent (_id clicked)); call persisted]).
Proof.
  intros Hex Hsel Hrec Hload Hrule Hog Hcal Hsorted.
  destruct (insertExcludedDate_split (rr_excludedDates rule) (ev_startTime clicked))
    as (before & after & Hl & Hins & Hb & Ha).
  exists before, after. repeat match goal with |- _ ∧ _ => split end; try done.
  cbn zeta.
  assert (Sorted Z.le (date <$> before ++ {| date := ev_startTime clicked |} :: after))
    as Hsorted'.
  { rewrite <- Hins. by apply insertExcludedDate_sorted. }
  split; [exact Hsorted'|]. split; [reflexivity|]. split; [|split].
  - eexists. split; [reflexivity|]. by repeat split.
  - reflexivity.
  - unfold excludeThisOccurrence, bind, get. cbn [bindP].
    rewrite Hex, Hsel. rewrite (bool_decide_eq_true_2 _ Hrec).
    unfold await. cbn [bindP run]. rewrite Hload. cbn [bindP].
    rewrite Hrule. cbn [bindP]. rewrite Hog, Hcal, Hins. cbn [bindP run].
    destruct (o (S n) unit _); reflexivity.
Qed.

Lemma excludeThisOccurrence_keeps_exclusions_sorted_witness :
  ∃ before after,
    rr_excludedDates seriesRule = before ++ after
    ∧ Forall (λ d, date d < ev_startTime clickedOccurrence) before
    ∧ match after with [] => True | d :: _ => ev_startTime clickedOccurrence ≤ date d end
    ∧ let excluded := before ++ {| date := ev_startTime clickedOccurrence |} :: after in
      let event :=
        set_repeatRule (Some (set_rr_excludedDates excluded seriesRule)) seriesRoot in
      let persisted := UpdateEvent event [] "UTC" "ownRoot" clickedOccurrence in
      Sorted Z.le (date <$> excluded)
      ∧ rr_excludedDates <$> repeatRule event = Some excluded
      ∧ (∃ rule', repeatRule event = Some rule'
                  ∧ Sorted Z.le (date <$> rr_excludedDates rule')
                  ∧ rr_endType rule' = rr_endType seriesRule
                  ∧ rr_endValue rule' = rr_endValue seriesRule
                  ∧ rr_frequency rule' = rr_frequency seriesRule
                  ∧ rr_interval rule' = rr_interval seriesRule
                  ∧ rr_timeZone rule' = rr_timeZone seriesRule)
      ∧ ev_attendees event = ev_attendees seriesRoot
      ∧ run (benignOracle no true true (Some seriesRoot)) 0
          (excludeThisOccurrence (demoConstruct (Some clickedOccurrence)))
        = (demoConstruct (Some clickedOccurrence), inr tt,
           [call (LoadCalendarEvent (Some ("list", "series"))); call persisted]).
Proof.
  apply (excludeThisOccurrence_keeps_exclusions_sorted
           (benignOracle no true true (Some seriesRoot)) 0
           (demoConstruct (Some clickedOccurrence)) clickedOccurrence seriesRoot
           seriesRule ownCalendar ownCalendar "own");
    try reflexivity.
  - by eexists.
  - repeat constructor.
Defined.

(** The exclusions of the series after excluding the occurrence of
    2023-03-13, and after excluding that of 2023-03-11 instead. *)
Example excludeThisOccurrence_march :
  date <$> insertExcludedDate (rr_excludedDates seriesRule) (19429 * msPerDay)
  = [19428 * msPerDay; 19429 * msPerDay]
  ∧ date <$> insertExcludedDate (rr_excludedDates seriesRule) (19427 * msPerDay)
    = [19427 * msPerDay; 19428 * msPerDay].
Proof. split; reflexivity. Qed.

(** ** Saving *)

(** [_saveEvent] makes at most one call, a write to the calendar store. *)
Lemma _saveEvent_then_true_trace o n ev al vm :
  Forall (λ c, isPersist c = true)
    (run o n ((_saveEvent ev al ;;; ret true) vm)).2
  ∧ (length (run o n ((_saveEvent ev al ;;; ret true) vm)).2 ≤ 1)%nat
  ∧ (run o n ((_saveEvent ev al ;;; ret true) vm)).1.1 = vm.
Proof.
  unfold _saveEvent, bind, get, await, ret, throw. cbn [bindP].
  destruct (bool_decide (accountType (user (_userController vm)) = EXTERNAL));
    [cbn; repeat split; [constructor|lia]|].
  destruct (selectedCalendar vm) as [cal|]; [|cbn; repeat split; [constructor|lia]].
  destruct (existingEvent vm) as [existing|]; [destruct (_id existing)|];
    cbn [bindP run];
    match goal with |- context [o n ?R ?c] => destruct (o n R c) as [e|[]] end;
    cbn; repeat split; try lia; repeat constructor.
Qed.

Lemma find_app_None {A} (f : A → bool) (l1 l2 : list A) :
  List.find f l1 = None → List.find f (l1 ++ l2) = List.find f l2.
Proof.
  induction l1 as [|x l1 IH]; cbn; [done|].
  destruct (f x); [discriminate|done].
Qed.

Lemma addRecipient_found env field r m :
  is_Some (findRecipientWithAddress env r_address
             (getRecipientList field (addRecipient env field r m)) (pr_address r)).
Proof.
  unfold addRecipient.
  destruct (findRecipientWithAddress env r_address (getRecipientList field m) (pr_address r))
    as [x|] eqn:Hfind; [by rewrite Hfind|].
  assert (getRecipientList field
            (setRecipientList field
               (getRecipientList field m ++
                [{| r_address := pr_address r; r_name := default "" (pr_name r);
                    r_type := UNKNOWN; r_contact := pr_contact r |}]) m)
          = getRecipientList field m ++
            [{| r_address := pr_address r; r_name := default "" (pr_name r);
                r_type := UNKNOWN; r_contact := pr_contact r |}]) as ->
    by (by destruct field).
  unfold findRecipientWithAddress in *.
  rewrite find_app_None by done. cbn. rewrite bool_decide_eq_true_2 by done. by eexists.
Qed.

Lemma isPersist_not_response (c : Call) : isPersist c = true → isSendResponse c = false.
Proof. destruct c as [R []]; cbn; congruence. Qed.

Lemma filter_response_persist (tr : list Call) :
  Forall (λ c, isPersist c = true) tr →
  filter (λ c, isSendResponse c = true) tr = [].
Proof.
  induction 1 as [|c tr Hc _ IH]; [done|].
  rewrite filter_cons_False; [done|].
  rewrite (isPersist_not_response c Hc). discriminate.
Qed.

(** ** Responding to the organizer *)



(** ** Running resumptions *)

Lemma run_bindP {A B} (o : Oracle) (p : Proc A) (f : A → M B) (n : nat) :
  run o n (bindP p f)
  = match (run o n p).1.2 with
    | inl e => ((run o n p).1.1, inl e, (run o n p).2)
    | inr a =>
        let rest := run o (n + length (run o n p).2) (f a (run o n p).1.1) in
        (rest.1.1, rest.1.2, (run o n p).2 ++ rest.2)
    end.
Proof.
  revert n. induction p as [vm [e|a]|R vm c k IH]; intros n.
  - reflexivity.
  - cbn. rewrite Nat.add_0_r. by destruct (run o n (f a vm)) as [[? ?] ?].
  - cbn [bindP run]. rewrite IH.
    destruct (run o (S n) (k (o n R c) vm)) as [[vm' [e|a]] tr]; cbn; [reflexivity|].
    replace (n + S (length tr))%nat with (S (n + length tr))%nat by lia.
    by destruct (run o (S (n + length tr)) (f a vm')) as [[? ?] ?].
Qed.

Lemma run_bind {A B} (o : Oracle) (m : M A) (f : A → M B) (n : nat) vm :
  run o n ((x <- m ;; f x) vm)
  = match (run o n (m vm)).1.2 with
    | inl e => ((run o n (m vm)).1.1, inl e, (run o n (m vm)).2)
    | inr a =>
        let rest := run o (n + length (run o n (m vm)).2) (f a (run o n (m vm)).1.1) in
        (rest.1.1, rest.1.2, (run o n (m vm)).2 ++ rest.2)
    end.
Proof. apply run_bindP. Qed.

Lemma _sendInvite_run (o : Oracle) (n : nat) (event : CalendarEvent)
    (vm : CalendarEventViewModel) :
  run o n (_sendInvite event vm)
  = if 0 <? Z.of_nat (length (newAttendeesOf event)) then
      match o n unit (SendInvite event (_inviteModel vm)) with
      | inl e => (vm, inl e, [call (SendInvite event (_inviteModel vm))])
      | inr _ => (ledgerAfterInvite event vm, inr (eventAfterInvite event),
                  [call (SendInvite event (_inviteModel vm))])
      end
    else (vm, inr event, []).
Proof.
  unfold _sendInvite. fold (newAttendeesOf event).
  destruct (0 <? Z.of_nat (length (newAttendeesOf event))); [|reflexivity].
  unfold bind, get, await, modify, ret. cbn [bindP run].
  destruct (o n unit (SendInvite event (_inviteModel vm))) as [e|[]]; reflexivity.
Qed.

Lemma ledgerAfterInvite_frame (event : CalendarEvent) (vm : CalendarEventViewModel) :
  _inviteModel (ledgerAfterInvite event vm) = _inviteModel vm
  ∧ _updateModel (ledgerAfterInvite event vm) = _updateModel vm
  ∧ _cancelModel (ledgerAfterInvite event vm) = _cancelModel vm
  ∧ _processing (ledgerAfterInvite event vm) = _processing vm.
Proof.
  unfold ledgerAfterInvite. generalize (newAttendeesOf event). intros l.
  revert vm. induction l as [|a l IH]; intros vm; cbn [foldl]; [done|].
  destruct (IH (set_guestStatuses
                  (<[address (att_address a):=NEEDS_ACTION]> (_guestStatuses vm)) vm))
    as (-> & -> & -> & ->).
  done.
Qed.

Lemma needsAction_foldl_keep (l : list CalendarEventAttendee)
    (v : CalendarEventViewModel) (key : string) :
  _guestStatuses v !! key = Some NEEDS_ACTION →
  _guestStatuses
    (foldl (λ vm a, set_guestStatuses
              (<[address (att_address a):=NEEDS_ACTION]> (_guestStatuses vm)) vm)
           v l) !! key = Some NEEDS_ACTION.
Proof.
  revert v. induction l as [|b l IH]; intros v Hv; cbn [foldl]; [done|].
  apply IH. cbn.
  destruct (decide (address (att_address b) = key)) as [->|Hne].
  - apply lookup_insert_eq.
  - by rewrite lookup_insert_ne.
Qed.

Lemma ledgerAfterInvite_needs_action (event : CalendarEvent) (vm : CalendarEventViewModel)
    (a : CalendarEventAttendee) :
  a ∈ ev_attendees event → att_status a = ADDED →
  _guestStatuses (ledgerAfterInvite event vm) !! address (att_address a)
  = Some NEEDS_ACTION.
Proof.
  intros Hin Hst. unfold ledgerAfterInvite.
  assert (a ∈ newAttendeesOf event) as Ha by (by apply list_elem_of_filter).
  revert Ha vm. generalize (newAttendeesOf event). intros l.
  induction l as [|b l IH]; intros Ha vm.
  - by apply elem_of_nil in Ha.
  - cbn [foldl]. apply elem_of_cons in Ha as [<-|Ha].
    + apply needsAction_foldl_keep. cbn. apply lookup_insert_eq.
    + by apply IH.
Qed.

Lemma _saveEvent_run (o : Oracle) (n : nat) (event : CalendarEvent)
    (al : list AlarmInfo) (vm : CalendarEventViewModel) :
  ∃ r t, run o n (_saveEvent event al vm) = (vm, r, t)
         ∧ (t = [] ∨ ∃ c, t = [c] ∧ isPersist c = true ∧ persistedEvent c = Some event).
Proof.
  unfold _saveEvent, bind, get, await, ret, throw. cbn [bindP].
  destruct (bool_decide (accountType (user (_userController vm)) = EXTERNAL));
    [cbn; eauto|].
  destruct (selectedCalendar vm) as [cal|]; [|cbn; eauto].
  destruct (existingEvent vm) as [existing|]; [destruct (_id existing)|];
    cbn [bindP run];
    match goal with |- context [o n ?R ?c] => destruct (o n R c) as [e|[]] end;
    do 2 eexists; (split; [reflexivity|]); right; eexists; repeat split.
Qed.

Lemma run_bind_err {A B} (o : Oracle) (m : M A) (f : A → M B) (n : nat)
    (vm v1 : CalendarEventViewModel) (e : Error) (t1 : list Call) :
  run o n (m vm) = (v1, inl e, t1) →
  run o n ((x <- m ;; f x) vm) = (v1, inl e, t1).
Proof. intros H. by rewrite run_bind, H. Qed.

Lemma run_bind_ok {A B} (o : Oracle) (m : M A) (f : A → M B) (n : nat)
    (vm v1 v2 : CalendarEventViewModel) (a : A) (r2 : Error + B) (t1 t2 : list Call) :
  run o n (m vm) = (v1, inr a, t1) →
  run o (n + length t1) (f a v1) = (v2, r2, t2) →
  run o n ((x <- m ;; f x) vm) = (v2, r2, t1 ++ t2).
Proof. intros H1 H2. rewrite run_bind, H1. cbn. by rewrite H2. Qed.

Lemma run_get {B} (o : Oracle) (f : CalendarEventViewModel → M B) (n : nat)
    (vm : CalendarEventViewModel) :
  run o n ((x <- get ;; f x) vm) = run o n (f vm vm).
Proof. reflexivity. Qed.

Lemma run_await {R} (o : Oracle) (c : ExtCall R) (n : nat) (vm : CalendarEventViewModel) :
  run o n (await c vm) = (vm, o n R c, [call c]).
Proof. reflexivity. Qed.

(** The dispatch chain makes its calls in the order invitation,
    cancellation, save, update, each at most once, and stops at the first
    call that fails. *)
Lemma _sendNotificationAndSave_p_segments (o : Oracle) (n : nat)
    (ur : UpdateResponse) (ev : CalendarEvent) (al : list AlarmInfo)
    (vm : CalendarEventViewModel) :
  let sent := eventForDispatch ev in
  ∃ (vm' : CalendarEventViewModel) (r : Error + bool) (inv canc pers upd : list Call),
    run o n (_sendNotificationAndSave_p ur ev al vm) = (vm', r, inv ++ canc ++ pers ++ upd)
    ∧ (inv = [] ∧ vm' = vm
       ∨ inv = [call (SendInvite ev (_inviteModel vm))]
         ∧ newAttendeesOf ev ≠ []
         ∧ match o n unit (SendInvite ev (_inviteModel vm)) with
           | inr _ => vm' = ledgerAfterInvite ev vm
           | inl e => vm' = vm ∧ r = inl e ∧ canc = [] ∧ pers = [] ∧ upd = []
           end)
    ∧ (canc = [] ∨ canc = [call (SendCancellation sent (_cancelModel vm))]
                   ∧ bccRecipients (_cancelModel vm) ≠ [])
    ∧ (pers = [] ∨ ∃ c, pers = [c] ∧ isPersist c = true ∧ persistedEvent c = Some sent)
    ∧ (upd = [] ∨ upd = [call (SendUpdate sent (_updateModel vm))] ∧ ur = yes).
Proof.
  cbn zeta. unfold _sendNotificationAndSave_p.
  (* updates *)
  assert (∀ (m : nat) (v : CalendarEventViewModel) (sent : CalendarEvent),
            _updateModel v = _updateModel vm →
            ∃ r upd,
              run o m ((vm1 <- get;;
                        (if bool_decide (ur = yes)
                         then await (SendUpdate sent (_updateModel vm1))
                         else ret tt);;; ret true) v) = (v, r, upd)
              ∧ (upd = [] ∨ upd = [call (SendUpdate sent (_updateModel vm))] ∧ ur = yes))
    as Hupdate.
  { intros m v sent Hu. rewrite run_get, Hu.
    destruct (bool_decide (ur = yes)) eqn:Hyes.
    - apply bool_decide_eq_true in Hyes.
      unfold bind, await, ret. cbn [bindP run].
      destruct (o m unit (SendUpdate sent (_updateModel vm))) as [e|[]]; cbn; eauto 6.
    - cbn. eauto. }
  (* saving, then updates *)
  assert (∀ (m : nat) (v : CalendarEventViewModel) (sent : CalendarEvent),
            _updateModel v = _updateModel vm →
            ∃ r pers upd,
              run o m ((_saveEvent sent al;;;
                        vm1 <- get;;
                        (if bool_decide (ur = yes)
                         then await (SendUpdate sent (_updateModel vm1))
                         else ret tt);;; ret true) v) = (v, r, pers ++ upd)
              ∧ (pers = [] ∨ ∃ c, pers = [c] ∧ isPersist c = true
                                  ∧ persistedEvent c = Some sent)
              ∧ (upd = [] ∨ upd = [call (SendUpdate sent (_updateModel vm))] ∧ ur = yes))
    as Hsave.
  { intros m v sent Hu.
    destruct (_saveEvent_run o m sent al v) as (r & t & Hrun & Ht).
    destruct r as [e|[]].
    - exists (inl e), t, []. rewrite app_nil_r. split; [|auto].
      by apply run_bind_err.
    - destruct (Hupdate (m + length t)%nat v sent Hu) as (r' & upd & Hrun' & Hupd).
      exists r', t, upd. split; [|auto].
      by eapply run_bind_ok. }
  (* cancellations, then the rest *)
  assert (∀ (m : nat) (v : CalendarEventViewModel) (sent : CalendarEvent),
            _cancelModel v = _cancelModel vm → _updateModel v = _updateModel vm →
            ∃ r canc pers upd,
              run o m
                ((vm0 <- get;;
                  (if 0 <? Z.of_nat (length (bccRecipients (_cancelModel vm0)))
                   then await (SendCancellation sent (_cancelModel vm0))
                   else ret tt);;;
                  _saveEvent sent al;;;
                  vm1 <- get;;
                  (if bool_decide (ur = yes)
                   then await (SendUpdate sent (_updateModel vm1))
                   else ret tt);;; ret true) v) = (v, r, canc ++ pers ++ upd)
              ∧ (canc = [] ∨ canc = [call (SendCancellation sent (_cancelModel vm))]
                             ∧ bccRecipients (_cancelModel vm) ≠ [])
              ∧ (pers = [] ∨ ∃ c, pers = [c] ∧ isPersist c = true
                                  ∧ persistedEvent c = Some sent)
              ∧ (upd = [] ∨ upd = [call (SendUpdate sent (_updateModel vm))] ∧ ur = yes))
    as Hrest.
  { intros m v sent Hc Hu. rewrite run_get, Hc.
    destruct (0 <? Z.of_nat (length (bccRecipients (_cancelModel vm)))) eqn:Hlen.
    - assert (bccRecipients (_cancelModel vm) ≠ []) as Hne.
      { intros Heq. rewrite Heq in Hlen. discriminate. }
      destruct (o m unit (SendCancellation sent (_cancelModel vm))) as [e|[]] eqn:Hans.
      + exists (inl e), [call (SendCancellation sent (_cancelModel vm))], [], [].
        split; [|auto]. apply run_bind_err. by rewrite run_await, Hans.
      + destruct (Hsave (m + 1)%nat v sent Hu) as (r & pers & upd & Hrun & Hp & Hupd).
        exists r, [call (SendCancellation sent (_cancelModel vm))], pers, upd.
        split; [|auto].
        eapply (run_bind_ok o _ _ m v v v tt r [_] (pers ++ upd)); [|exact Hrun].
        by rewrite run_await, Hans.
    - destruct (Hsave (m + 0)%nat v sent Hu) as (r & pers & upd & Hrun & Hp & Hupd).
      exists r, [], pers, upd. split; [|auto].
      by eapply (run_bind_ok o _ _ m v v v tt r [] (pers ++ upd)). }
  (* the invitation first *)
  pose proof (_sendInvite_run o n ev vm) as Hinv.
  unfold eventForDispatch.
  destruct (0 <? Z.of_nat (length (newAttendeesOf ev))) eqn:Hadded.
  - assert (newAttendeesOf ev ≠ []) as Hne.
    { intros Heq. rewrite Heq in Hadded. discriminate. }
    destruct (o n unit (SendInvite ev (_inviteModel vm))) as [e|[]] eqn:Hans.
    + exists vm, (inl e), [call (SendInvite ev (_inviteModel vm))], [], [], [].
      split; [by apply run_bind_err|]. split; [right|]; auto 10.
    + destruct (ledgerAfterInvite_frame ev vm) as (Hi & Hu & Hc & _).
      destruct (Hrest (n + 1)%nat (ledgerAfterInvite ev vm) (eventAfterInvite ev) Hc Hu)
        as (r & canc & pers & upd & Hrun & Hcanc & Hpers & Hupd).
      exists (ledgerAfterInvite ev vm), r,
        [call (SendInvite ev (_inviteModel vm))], canc, pers, upd.
      split; [|split; [right|]; auto 10].
      eapply (run_bind_ok o _ _ n vm _ _ _ r [_] (canc ++ pers ++ upd)); [exact Hinv|].
      exact Hrun.
  - destruct (Hrest (n + 0)%nat vm ev eq_refl eq_refl)
      as (r & canc & pers & upd & Hrun & Hcanc & Hpers & Hupd).
    exists vm, r, [], canc, pers, upd.
    split; [|split; [left|]; auto].
    eapply (run_bind_ok o _ _ n vm _ _ _ r [] (canc ++ pers ++ upd)); [exact Hinv|].
    exact Hrun.
Qed.

Lemma shouldShowSendInviteNotAvailable_run (o : Oracle) (n : nat)
    (vm : CalendarEventViewModel) :
  ∃ r t, run o n (shouldShowSendInviteNotAvailable vm) = (vm, r, t)
         ∧ Forall (λ c, dispatchRank c = 0%nat) t.
Proof.
  unfold shouldShowSendInviteNotAvailable. rewrite run_get.
  repeat case_match; try (cbn; eauto; fail).
  unfold bind, await, ret. cbn [bindP run].
  destruct (o n bool IsNewPaidPlan) as [e|b]; cbn; do 2 eexists;
    (split; [reflexivity|]); by repeat constructor.
Qed.

(** ** Notifying and saving *)


Lemma run_ret {A} (o : Oracle) (a : A) (n : nat) (vm : CalendarEventViewModel) :
  run o n (ret a vm) = (vm, inr a, []).
Proof. reflexivity. Qed.

Lemma run_throw {A} (o : Oracle) (e : Error) (n : nat) (vm : CalendarEventViewModel) :
  run o n (@throw A e vm) = (vm, inl e, []).
Proof. reflexivity. Qed.


(** ** Invariants along a resumption *)

Section Ensures.

Variables (I : CalendarEventViewModel → Prop) (C : Call → Prop).

Lemma ensures_bindP {A B} (p : Proc A) (f : A → M B) :
  ensures I I C p → (∀ a, ensuresM I C (f a)) → ensures I I C (bindP p f).
Proof.
  intros Hp Hf. induction p as [vm [e|a]|R vm c k IH]; cbn in *.
  - done.
  - by apply Hf.
  - destruct Hp as (Hvm & Hc & Hk). repeat split; [done..|].
    intros r vm' Hvm'. apply IH. by apply Hk.
Qed.

Lemma ensures_catchP {A} (p : Proc A) (h : Error → M A) :
  ensures I I C p → (∀ e, ensuresM I C (h e)) → ensures I I C (catchP p h).
Proof.
  intros Hp Hh. induction p as [vm [e|a]|R vm c k IH]; cbn in *.
  - by apply Hh.
  - done.
  - destruct Hp as (Hvm & Hc & Hk). repeat split; [done..|].
    intros r vm' Hvm'. apply IH. by apply Hk.
Qed.

Lemma ensures_finallyP {A} (J : CalendarEventViewModel → Prop) (p : Proc A)
    (f : CalendarEventViewModel → CalendarEventViewModel) :
  ensures I I C p → (∀ vm, I vm → J (f vm)) → ensures I J C (finallyP p f).
Proof.
  intros Hp Hf. induction p as [vm r|R vm c k IH]; cbn in *.
  - by apply Hf.
  - destruct Hp as (Hvm & Hc & Hk). repeat split; [done..|].
    intros r vm' Hvm'. apply IH. by apply Hk.
Qed.

(** Run with no other activity in between, a resumption ends in a state
    satisfying [J], after calls that all satisfy [C]. *)
Lemma ensures_run {A} (J : CalendarEventViewModel → Prop) (o : Oracle) (p : Proc A)
    (n : nat) :
  ensures I J C p → J (run o n p).1.1 ∧ Forall C (run o n p).2.
Proof.
  revert n. induction p as [vm r|R vm c k IH]; intros n Hp; cbn in *.
  - by split.
  - destruct Hp as (Hvm & Hc & Hk).
    destruct (IH (o n R c) vm (S n) (Hk _ _ Hvm)) as [HJ HC].
    destruct (run o (S n) (k (o n R c) vm)) as [[? ?] ?]. cbn in *.
    split; [done|]. by constructor.
Qed.

Lemma ensuresM_bind {A B} (m : M A) (f : A → M B) :
  ensuresM I C m → (∀ a, ensuresM I C (f a)) → ensuresM I C (x <- m ;; f x).
Proof. intros Hm Hf vm Hvm. apply ensures_bindP; auto. Qed.

(** What follows a [get] is run on a state that satisfies the invariant. *)
Lemma ensuresM_get_bind {B} (f : CalendarEventViewModel → M B) :
  (∀ v, I v → ensures I I C (f v v)) → ensuresM I C (x <- get ;; f x).
Proof. intros Hf vm Hvm. by apply Hf. Qed.

Lemma ensuresM_ret {A} (a : A) : ensuresM I C (ret a).
Proof. by intros vm Hvm. Qed.

Lemma ensuresM_throw {A} (e : Error) : ensuresM I C (@throw A e).
Proof. by intros vm Hvm. Qed.

Lemma ensuresM_liftE {A} (r : Error + A) : ensuresM I C (liftE r).
Proof. by intros vm Hvm. Qed.

Lemma ensuresM_await {R} (c : ExtCall R) : C (call c) → ensuresM I C (await c).
Proof. intros Hc vm Hvm. cbn. repeat split; [done..|]. by intros r vm' Hvm'. Qed.

Lemma ensuresM_modify (f : CalendarEventViewModel → CalendarEventViewModel) :
  (∀ vm, I vm → I (f vm)) → ensuresM I C (modify f).
Proof. intros Hf vm Hvm. cbn. by apply Hf. Qed.

End Ensures.

Create HintDb ensures.
#[local] Hint Resolve ensuresM_ret ensuresM_throw ensuresM_liftE : ensures.

(** One step through the structure of a method. *)
Ltac ensures_step :=
  cbn beta;
  match goal with
  | |- ensuresM _ _ (bind get _) => apply ensuresM_get_bind; intros ? ?
  | |- ensuresM _ _ (bind _ _) => apply ensuresM_bind; [|intros ?]
  | |- ensuresM _ _ (if ?b then _ else _) => destruct b
  | |- ensuresM _ _ (match ?x with _ => _ end) => destruct x
  | |- ensuresM _ _ (modify _) => apply ensuresM_modify; intros ? ?
  | |- ensuresM _ _ (await _) => apply ensuresM_await
  | |- ensuresM _ _ _ => solve [auto with ensures]
  | |- ensures ?I ?I ?C ((if ?b then _ else _) ?vm) => destruct b
  | |- ensures ?I ?I ?C ((match ?x with _ => _ end) ?vm) => destruct x
  | H : ?I ?vm |- ensures ?I ?I ?C (?m ?vm) =>
      cut (ensuresM I C m); [let Hm := fresh in intros Hm; exact (Hm vm H)|]
  end.

(** The methods of the save protocol keep an invariant [I] of the state and
    make only calls satisfying [C], when the ledger and the existing event
    can be written under [I], no call other than a write to the calendar
    store is excluded by [C], and [_saveEvent] respects both. *)
Section Methods.

Variables (I : CalendarEventViewModel → Prop) (C : Call → Prop).
Hypothesis I_set_guestStatuses : ∀ m vm, I vm → I (set_guestStatuses m vm).
Hypothesis I_set_existingEvent : ∀ e vm, I vm → I (set_existingEvent e vm).
Hypothesis C_notPersist : ∀ c, isPersist c = false → C c.
Hypothesis saveEvent_ok : ∀ ev al, ensuresM I C (_saveEvent ev al).

Lemma ensuresM_sendInvite ev : ensuresM I C (_sendInvite ev).
Proof.
  unfold _sendInvite. repeat ensures_step.
  - by apply C_notPersist.
  - match goal with
    | H : I ?v |- I (foldl _ ?v ?l) => revert v H; generalize l
    end.
    intros l. induction l as [|x l IH]; intros w Hw; cbn [foldl]; [done|].
    apply IH. by apply I_set_guestStatuses.
Qed.

Lemma ensuresM_shouldShowSendInviteNotAvailable :
  ensuresM I C shouldShowSendInviteNotAvailable.
Proof.
  unfold shouldShowSendInviteNotAvailable. repeat ensures_step. by apply C_notPersist.
Qed.

Lemma ensuresM_sendNotificationAndSave_p ur ev al :
  ensuresM I C (_sendNotificationAndSave_p ur ev al).
Proof.
  pose proof ensuresM_sendInvite. pose proof saveEvent_ok.
  unfold _sendNotificationAndSave_p. repeat ensures_step; by apply C_notPersist.
Qed.

Lemma ensuresM_sendNotificationAndSave env ev al :
  ensuresM I C (_sendNotificationAndSave env ev al).
Proof.
  pose proof ensuresM_shouldShowSendInviteNotAvailable.
  pose proof ensuresM_sendNotificationAndSave_p.
  unfold _sendNotificationAndSave. repeat ensures_step; by apply C_notPersist.
Qed.

Lemma ensuresM_respondToOrganizerAndSave env existing ev al :
  ensuresM I C (_respondToOrganizerAndSave env existing ev al).
Proof.
  pose proof saveEvent_ok.
  unfold _respondToOrganizerAndSave. repeat ensures_step;
    first [by apply C_notPersist | by apply I_set_existingEvent].
Qed.

Lemma ensuresM_saveAndSend_protocol env : ensuresM I C (saveAndSend_protocol env).
Proof.
  pose proof saveEvent_ok.
  pose proof ensuresM_sendNotificationAndSave.
  pose proof ensuresM_respondToOrganizerAndSave.
  unfold saveAndSend_protocol. repeat ensures_step; by apply C_notPersist.
Qed.

Lemma ensuresM_onPayloadTooLarge e : ensuresM I C (onPayloadTooLarge e).
Proof. unfold onPayloadTooLarge. repeat ensures_step. Qed.

End Methods.

(** ** Single flight *)

Lemma ensuresM_saveEvent_guard ev al :
  ensuresM processing (λ _, True) (_saveEvent ev al).
Proof. unfold _saveEvent. repeat ensures_step; done. Qed.

Lemma saveAndSend_guarded_inFlight (env : Env) (vm : CalendarEventViewModel) :
  _processing vm = false → inFlight (saveAndSend_guarded env vm).
Proof.
  intros Hvm. unfold saveAndSend_guarded, bind, get, modify. cbn [bindP].
  rewrite Hvm. cbn [bindP].
  apply ensures_finallyP; [|reflexivity].
  apply ensures_catchP.
  - apply (ensuresM_saveAndSend_protocol processing (λ _, True)); try done.
    apply ensuresM_saveEvent_guard.
  - apply ensuresM_onPayloadTooLarge.
Qed.



(** ** External users *)

Lemma _saveEvent_external (ev : CalendarEvent) (al : list AlarmInfo)
    (vm : CalendarEventViewModel) :
  isExternalUser vm → _saveEvent ev al vm = Done vm (inr tt).
Proof.
  intros Hext. unfold _saveEvent, bind, get. cbn [bindP].
  by rewrite (bool_decide_eq_true_2 _ Hext).
Qed.

Lemma ensuresM_saveEvent_external ev al :
  ensuresM isExternalUser notPersist (_saveEvent ev al).
Proof. intros vm Hvm. by rewrite _saveEvent_external. Qed.

Lemma set_processing_false_true (vm : CalendarEventViewModel) :
  _processing vm = false → set_processing false (set_processing true vm) = vm.
Proof. destruct vm. cbn. by intros ->. Qed.




(** * Further properties *)

(** ** Role classification: personal calendars and events from files *)



(** X2. Whatever the event, the organizer the classification yields is, by
    its address, one of the possible organizers it yields, provided the
    user's default sender is one of the user's own addresses; and when it
    yields no organizer it yields no possible organizer. *)
Theorem initEventTypeAndOrganizers_organizer_is_possible (env : Env)
    (own : list string) (existingEvent : option CalendarEvent)
    (calendars : gmap Id CalendarInfo) (mp : MailboxProperties) (uc : UserController) :
  getDefaultSenderFromUser env uc ∈ own →
  let r := initEventTypeAndOrganizers env own existingEvent calendars mp uc in
  (∀ o, ret_organizer r = Some o → address o ∈ (address <$> ret_possibleOrganizers r))
  ∧ (ret_organizer r = None → ret_possibleOrganizers r = []).
Proof.
  intros Hdefault. cbn zeta.
  assert (∀ a, a ∈ own → a ∈ (address <$> ownPossibleOrganizers env own mp)) as Hown.
  { intros a Ha. unfold ownPossibleOrganizers. rewrite <- list_fmap_compose.
    apply list_elem_of_fmap. exists a. by split. }
  unfold initEventTypeAndOrganizers.
  destruct existingEvent as [ev|];
    [generalize (hasGuests env (Some ev) own); intros guests|]; cbn.
  - destruct (calendarInfoForEvent ev calendars) as [info|].
    + destruct (shared info).
      * destruct (ev_organizer ev) as [[]|]; cbn; split; try done.
        intros o [= <-]. cbn. apply list_elem_of_singleton. done.
      * destruct (ev_organizer ev) as [o|] eqn:Horg; cbn.
        -- destruct (decide (address o ∈ own)) as [Hin|Hin].
           ++ rewrite (bool_decide_eq_true_2 _ Hin). cbn. split; [|done].
              intros o' [= <-]. cbn.
              destruct guests; [|by apply Hown].
              cbn. apply list_elem_of_singleton. done.
           ++ rewrite (bool_decide_eq_false_2 _ Hin). cbn.
              destruct (Z.of_nat (length (ev_attendees ev)) =? 0); cbn; split; try done.
              ** intros o' [= <-]. cbn.
                 destruct guests; [|by apply Hown].
                 cbn. apply list_elem_of_singleton. done.
              ** intros o' [= <-]. cbn. apply list_elem_of_singleton. done.
        -- split; [|done]. intros o' [= <-]. cbn.
           destruct guests; [|by apply Hown].
           cbn. apply list_elem_of_singleton. done.
    + destruct (ev_organizer ev) as [[]|]; cbn; split; try done.
      intros o [= <-]. cbn. apply list_elem_of_singleton. done.
  - split; [|done]. intros o [= <-]. cbn. by apply Hown.
Qed.

Lemma initEventTypeAndOrganizers_organizer_is_possible_witness :
  "me@tutanota.com"
  ∈ address <$> ret_possibleOrganizers
                  (initEventTypeAndOrganizers utcEnv demoOwnAddresses None demoCalendars []
                     demoUserController).
Proof.
  assert (getDefaultSenderFromUser utcEnv demoUserController ∈ demoOwnAddresses) as Hin.
  { apply (bool_decide_unpack _). vm_compute. exact I. }
  destruct (initEventTypeAndOrganizers_organizer_is_possible utcEnv demoOwnAddresses None
              demoCalendars [] demoUserController Hin) as [H _].
  exact (H {| name := ""; address := "me@tutanota.com" |} eq_refl).
Defined.

(** ** Times of the day *)

Lemma deleteExcludedDates_frame (vm : CalendarEventViewModel) :
  startTime (deleteExcludedDates vm) = startTime vm
  ∧ endTime (deleteExcludedDates vm) = endTime vm
  ∧ startDate (deleteExcludedDates vm) = startDate vm
  ∧ endDate (deleteExcludedDates vm) = endDate vm
  ∧ _allDay (deleteExcludedDates vm) = _allDay vm
  ∧ alarms (deleteExcludedDates vm) = alarms vm.
Proof. unfold deleteExcludedDates. by destruct (repeat vm). Qed.

(** X3. When the event starts and ends on the same day and all three times
    are times of the day, setting the start time moves the end time so that
    it lies as many minutes after the new start as the old end lay from the
    old start, as long as that stays within the day; beyond midnight the end
    hour is capped at 23 while the minute is the one of the uncapped time.
    The new end time is a time of the day in both cases, and the exclusions
    are emptied. *)
Theorem setStartTime_moves_end_time (uenv : UtilEnv) (vm : CalendarEventViewModel)
    (old st et : Time) :
  newTimeInRange uenv →
  startDate vm = endDate vm →
  startTime vm = Some old → endTime vm = Some et →
  validTime old → validTime st → validTime et →
  let d := Z.abs (minutesOfDay et - minutesOfDay old) in
  let vm' := setStartTime uenv (Some st) vm in
  startTime vm' = Some st
  ∧ exclusionsOf vm' = []
  ∧ ∃ e, endTime vm' = Some e
         ∧ validTime e
         ∧ (minutesOfDay st + d < 1440 → minutesOfDay e = minutesOfDay st + d)
         ∧ (1440 <= minutesOfDay st + d →
            hours e = 23 ∧ minutes e = (minutesOfDay st + d) mod 60).
Proof.
  intros Hnew Hday Hold Het (Hoh & Hom) (Hsh & Hsm) (Heh & Hem). cbn zeta.
  unfold setStartTime.
  destruct (deleteExcludedDates_frame
              (if startDate (set_startTime (Some st) vm)
                  =? endDate (set_startTime (Some st) vm)
               then _adjustEndTime uenv (startTime vm) (set_startTime (Some st) vm)
               else set_startTime (Some st) vm)) as (-> & -> & _).
  rewrite exclusionsOf_deleteExcludedDates.
  change (startDate (set_startTime (Some st) vm)) with (startDate vm).
  change (endDate (set_startTime (Some st) vm)) with (endDate vm).
  rewrite Hday, Z.eqb_refl.
  unfold _adjustEndTime.
  change (startTime (set_startTime (Some st) vm)) with (Some st).
  change (endTime (set_startTime (Some st) vm)) with (endTime vm).
  rewrite Het, Hold. cbn [startTime endTime set_endTime].
  split; [done|]. split; [done|].
  unfold minutesOfDay.
  set (total := hours st * 60 + minutes st
                + Z.abs (hours et * 60 + minutes et - hours old * 60 - minutes old)).
  assert (0 <= total) as Htotal by (unfold total; lia).
  assert (Z.rem total 60 = total mod 60) as Hrem by (by apply Z.rem_mod_nonneg).
  replace (hours et * 60 + minutes et - (hours old * 60 + minutes old))
    with (hours et * 60 + minutes et - hours old * 60 - minutes old) by lia.
  fold total.
  eexists. split; [reflexivity|].
  rewrite Hnew.
  - cbn [hours minutes]. rewrite Hrem. unfold validTime. cbn [hours minutes].
    destruct (Z.ltb_spec 23 (total / 60)) as [Hcap|Hcap].
    + repeat split; try lia; try (Z.div_mod_to_equations; lia).
    + repeat split; try lia; try (Z.div_mod_to_equations; lia).
  - destruct (Z.ltb_spec 23 (total / 60)); Z.div_mod_to_equations; lia.
  - rewrite Hrem. Z.div_mod_to_equations; lia.
Qed.

Lemma setStartTime_moves_end_time_witness :
  (∃ e, endTime (setStartTime utcUtil (Some {| hours := 14; minutes := 15 |}) morningVm)
        = Some e ∧ minutesOfDay e = 945)
  ∧ (∃ e, endTime (setStartTime utcUtil (Some {| hours := 23; minutes := 50 |}) morningVm)
          = Some e ∧ hours e = 23 ∧ minutes e = 20).
Proof.
  assert (newTimeInRange utcUtil) as Hnew.
  { intros h m Hh Hm. cbn. f_equal; apply Z.rem_small; lia. }
  pose proof (setStartTime_moves_end_time utcUtil morningVm
                {| hours := 10; minutes := 0 |} {| hours := 14; minutes := 15 |}
                {| hours := 11; minutes := 30 |} Hnew eq_refl eq_refl eq_refl) as H1.
  pose proof (setStartTime_moves_end_time utcUtil morningVm
                {| hours := 10; minutes := 0 |} {| hours := 23; minutes := 50 |}
                {| hours := 11; minutes := 30 |} Hnew eq_refl eq_refl eq_refl) as H2.
  split.
  - destruct H1 as (_ & _ & e & He & _ & Hin & _);
      [unfold validTime; cbn; lia..|].
    exists e. split; [exact He|]. rewrite Hin; by vm_compute.
  - destruct H2 as (_ & _ & e & He & _ & _ & Hover);
      [unfold validTime; cbn; lia..|].
    exists e. split; [exact He|]. apply Hover. by vm_compute.
Defined.

(** X4. The end time stays as it is when the start time is set on an event
    that ends on another day, or when the new start time, the old start time
    or the end time is not a valid time; the exclusions are emptied all the
    same, also when the start time is set to the value it has. *)
Theorem setStartTime_leaves_end_time (uenv : UtilEnv) (value : option Time)
    (vm : CalendarEventViewModel) :
  startDate vm ≠ endDate vm ∨ value = None ∨ startTime vm = None ∨ endTime vm = None →
  endTime (setStartTime uenv value vm) = endTime vm
  ∧ startTime (setStartTime uenv value vm) = value
  ∧ exclusionsOf (setStartTime uenv value vm) = [].
Proof.
  intros Hcase. unfold setStartTime.
  match goal with
  | |- context [deleteExcludedDates ?v] =>
      destruct (deleteExcludedDates_frame v) as (-> & -> & _)
  end.
  rewrite exclusionsOf_deleteExcludedDates.
  change (startDate (set_startTime value vm)) with (startDate vm).
  change (endDate (set_startTime value vm)) with (endDate vm).
  destruct (Z.eqb_spec (startDate vm) (endDate vm)) as [Heq|Hne]; [|done].
  assert (_adjustEndTime uenv (startTime vm) (set_startTime value vm)
          = set_startTime value vm) as ->; [|done].
  unfold _adjustEndTime.
  change (startTime (set_startTime value vm)) with value.
  change (endTime (set_startTime value vm)) with (endTime vm).
  destruct Hcase as [?|[Hv|[Hs|He]]]; [done|..].
  - by rewrite Hv.
  - rewrite Hs. by destruct value, (endTime vm).
  - rewrite He. by destruct value.
Qed.

Lemma setStartTime_leaves_end_time_witness :
  endTime (setStartTime utcUtil None morningVm) = Some {| hours := 11; minutes := 30 |}
  ∧ exclusionsOf (setStartTime utcUtil (startTime morningVm) marchVm) = [].
Proof.
  split.
  - apply (setStartTime_leaves_end_time utcUtil None morningVm). right. by left.
  - apply (setStartTime_leaves_end_time utcUtil (startTime morningVm) marchVm).
    left. by vm_compute.
Defined.

(** ** Whole-day events *)

(** X5. [setAllDay] leaves the flag at the value given, so that a second call
    with the same value changes nothing.  When the flag changes, each
    exclusion is re-projected, in its place: to the all-day date when the
    event becomes an all-day one, to the start time on its day when the event
    becomes a timed one; except when the event becomes a timed one while its
    start time is not valid: then the exclusions are emptied. *)
Theorem setAllDay_exclusions (uenv : UtilEnv) (newAllDay : bool)
    (vm : CalendarEventViewModel) :
  let vm' := setAllDay uenv newAllDay vm in
  _allDay vm' = newAllDay
  ∧ setAllDay uenv newAllDay vm' = vm'
  ∧ (newAllDay = _allDay vm → vm' = vm)
  ∧ (newAllDay ≠ _allDay vm →
     exclusionsOf vm'
     = if newAllDay then map (getAllDayDateUTC uenv) (exclusionsOf vm)
       else match startTime vm with
            | Some t => map (Time_toDate uenv t) (exclusionsOf vm)
            | None => []
            end).
Proof.
  cbn zeta.
  assert (_allDay (setAllDay uenv newAllDay vm) = newAllDay) as Hflag.
  { unfold setAllDay. case_bool_decide as Hsame; [done|].
    change (repeat (set_allDay newAllDay vm)) with (repeat vm).
    change (startTime (set_allDay newAllDay vm)) with (startTime vm).
    destruct (repeat vm) as [r|] eqn:Hr; [|done].
    destruct newAllDay; [done|].
    destruct (startTime vm); [done|].
    unfold deleteExcludedDates. cbn. by rewrite Hr. }
  split; [exact Hflag|]. split; [|split].
  - unfold setAllDay at 1. by rewrite Hflag, bool_decide_eq_true_2.
  - intros Hsame. unfold setAllDay. by rewrite bool_decide_eq_true_2.
  - intros Hchange. unfold setAllDay. rewrite (bool_decide_eq_false_2 _ Hchange).
    change (repeat (set_allDay newAllDay vm)) with (repeat vm).
    change (startTime (set_allDay newAllDay vm)) with (startTime vm).
    assert (exclusionsOf vm = match repeat vm with Some r => excludedDates r | None => [] end)
      as Hex by done.
    destruct (repeat vm) as [r|] eqn:Hr.
    + destruct newAllDay.
      * rewrite Hex. unfold exclusionsOf. cbn. reflexivity.
      * destruct (startTime vm) as [t|] eqn:Ht.
        -- rewrite Hex. unfold exclusionsOf. cbn. reflexivity.
        -- apply exclusionsOf_deleteExcludedDates.
    + rewrite Hex. unfold exclusionsOf. cbn. rewrite Hr.
      destruct newAllDay; [done|]. by destruct (startTime vm).
Qed.

Lemma setAllDay_exclusions_witness :
  exclusionsOf (setAllDay utcUtil true morningVm) = [19428 * msPerDay]
  ∧ setAllDay utcUtil false morningVm = morningVm
  ∧ exclusionsOf
      (setAllDay utcUtil false (set_startTime None (setAllDay utcUtil true morningVm)))
    = [].
Proof.
  destruct (setAllDay_exclusions utcUtil false morningVm) as (_ & _ & Hsame & _).
  destruct (setAllDay_exclusions utcUtil true morningVm) as (_ & _ & _ & Hday).
  destruct (setAllDay_exclusions utcUtil false
              (set_startTime None (setAllDay utcUtil true morningVm)))
    as (_ & _ & _ & Htimed).
  split; [|split].
  - rewrite Hday by discriminate. reflexivity.
  - by apply Hsame.
  - rewrite Htimed by discriminate. reflexivity.
Defined.

(** ** Alarms *)

Lemma changeAlarm_loop_None (identifier : string) (trigger' : option string)
    (l : list AlarmInfo) :
  (∀ a, a ∈ l → alarmIdentifier a ≠ identifier) →
  changeAlarm_loop identifier trigger' l = None.
Proof.
  induction l as [|a l IH]; intros Hl; cbn; [done|].
  rewrite bool_decide_eq_false_2 by (apply Hl; left).
  rewrite IH; [done|]. intros b Hb. apply Hl. by right.
Qed.

Lemma changeAlarm_loop_first (identifier : string) (trigger' : option string)
    (before after : list AlarmInfo) (a : AlarmInfo) :
  alarmIdentifier a = identifier →
  (∀ b, b ∈ before → alarmIdentifier b ≠ identifier) →
  changeAlarm_loop identifier trigger' (before ++ a :: after)
  = Some (before ++ match trigger' with
                    | Some t =>
                        if bool_decide (t = "") then after
                        else {| alarmIdentifier := identifier; trigger := t |} :: after
                    | None => after
                    end).
Proof.
  intros Ha. induction before as [|b before IH]; intros Hbefore; cbn.
  - rewrite bool_decide_eq_true_2 by done. by rewrite Ha.
  - rewrite bool_decide_eq_false_2 by (apply Hbefore; left).
    rewrite IH; [done|]. intros c Hc. apply Hbefore. by right.
Qed.

Lemma set_alarms_same (vm : CalendarEventViewModel) : set_alarms (alarms vm) vm = vm.
Proof. by destruct vm. Qed.

(** X6. Changing or removing an alarm under an identifier that no alarm of
    the draft carries leaves the view model as it is. *)
Theorem changeAlarm_unknown_identifier (identifier : string) (trigger' : option string)
    (vm : CalendarEventViewModel) :
  identifier ∉ alarmIds vm →
  changeAlarm identifier trigger' vm = vm.
Proof.
  intros Hid. unfold changeAlarm. rewrite changeAlarm_loop_None; [done|].
  intros a Ha Heq. apply Hid. unfold alarmIds. apply list_elem_of_fmap. by exists a.
Qed.

Lemma changeAlarm_unknown_identifier_witness :
  changeAlarm "none" None (addAlarm utcEnv utcUtil "5M" morningVm)
  = addAlarm utcEnv utcUtil "5M" morningVm.
Proof.
  apply changeAlarm_unknown_identifier.
  apply (bool_decide_unpack _). vm_compute. exact I.
Defined.

(** X7. [changeAlarm] acts on the first alarm that carries the identifier and
    on no other: with no trigger (or the empty one) that alarm is taken out
    of the list, with a trigger it gets the trigger in its place; the alarms
    before and after it, also one with the same identifier, stay as they are,
    in their order. *)
Theorem changeAlarm_first_match_only (identifier : string)
    (vm : CalendarEventViewModel) (before after : list AlarmInfo) (a : AlarmInfo) :
  alarms vm = before ++ a :: after →
  alarmIdentifier a = identifier →
  identifier ∉ alarmIdentifier <$> before →
  alarms (changeAlarm identifier None vm) = before ++ after
  ∧ alarms (changeAlarm identifier (Some "") vm) = before ++ after
  ∧ ∀ t, t ≠ "" →
         alarms (changeAlarm identifier (Some t) vm)
         = before ++ {| alarmIdentifier := identifier; trigger := t |} :: after.
Proof.
  intros Halarms Ha Hbefore.
  assert (∀ b, b ∈ before → alarmIdentifier b ≠ identifier) as Hb.
  { intros b Hin Heq. apply Hbefore. apply list_elem_of_fmap. by exists b. }
  unfold changeAlarm. rewrite Halarms.
  repeat split.
  - by rewrite (changeAlarm_loop_first identifier None before after a Ha Hb).
  - by rewrite (changeAlarm_loop_first identifier (Some "") before after a Ha Hb).
  - intros t Ht.
    rewrite (changeAlarm_loop_first identifier (Some t) before after a Ha Hb).
    by rewrite bool_decide_eq_false_2.
Qed.

Lemma changeAlarm_first_match_only_witness :
  let twice := set_alarms [ createCalendarAlarm "a" "5M"; createCalendarAlarm "b" "1H";
                            createCalendarAlarm "b" "1D" ] morningVm in
  alarms (changeAlarm "b" None twice)
  = [ createCalendarAlarm "a" "5M"; createCalendarAlarm "b" "1D" ].
Proof.
  cbn zeta.
  refine (proj1 (changeAlarm_first_match_only "b"
                   (set_alarms [ createCalendarAlarm "a" "5M"; createCalendarAlarm "b" "1H";
                                 createCalendarAlarm "b" "1D" ] morningVm)
                   [createCalendarAlarm "a" "5M"]
                   [createCalendarAlarm "b" "1D"] (createCalendarAlarm "b" "1H")
                   eq_refl eq_refl _)).
  apply (bool_decide_unpack _). vm_compute. exact I.
Defined.

(** X8. An alarm that was added under an identifier no other alarm carries is
    taken out again by [changeAlarm] with that identifier and no trigger,
    which restores the view model; with a trigger, the outcome is that of
    having added the alarm with that trigger. *)
Theorem addAlarm_changeAlarm_round_trip (env : Env) (uenv : UtilEnv)
    (trigger' : string) (vm : CalendarEventViewModel) :
  let identifier := generateEventElementId uenv (now env) in
  identifier ∉ alarmIds vm →
  changeAlarm identifier None (addAlarm env uenv trigger' vm) = vm
  ∧ ∀ t, t ≠ "" →
         changeAlarm identifier (Some t) (addAlarm env uenv trigger' vm)
         = addAlarm env uenv t vm.
Proof.
  cbn zeta. intros Hfresh.
  assert (∀ b, b ∈ alarms vm → alarmIdentifier b ≠ generateEventElementId uenv (now env))
    as Hb.
  { intros b Hin Heq. apply Hfresh. apply list_elem_of_fmap. by exists b. }
  unfold changeAlarm, addAlarm. cbn [alarms set_alarms].
  split; [|intros t Ht];
    rewrite (changeAlarm_loop_first (generateEventElementId uenv (now env)) _ (alarms vm) []
               (createCalendarAlarm (generateEventElementId uenv (now env)) trigger')
               eq_refl Hb).
  - rewrite app_nil_r. by destruct vm.
  - by rewrite bool_decide_eq_false_2.
Qed.

Lemma addAlarm_changeAlarm_round_trip_witness :
  changeAlarm (pretty (now utcEnv)) None (addAlarm utcEnv utcUtil "5M" morningVm)
  = morningVm.
Proof.
  refine (proj1 (addAlarm_changeAlarm_round_trip utcEnv utcUtil "5M" morningVm _)).
  apply (bool_decide_unpack _). vm_compute. exact I.
Defined.

(** ** Materializing the event *)

(** The ways in which [_initializeNewEvent] fails. *)
Lemma _initializeNewEvent_error (env : Env) (vm : CalendarEventViewModel) (e : Error) :
  _initializeNewEvent env vm = inl e →
  e = UserError "timeFormatInvalid_msg"
    ∧ _allDay vm = false ∧ (startTime vm = None ∨ endTime vm = None)
  ∨ e = AssertNotNullFailed ∧ selectedCalendar vm = None
  ∨ e = UserError "startAfterEnd_label"
  ∨ e = UserError "invalidDate_msg"
  ∨ e = UserError "pre1970Start_msg".
Proof.
  unfold _initializeNewEvent, createRepeatRule. intros H.
  repeat (case_match; simplify_eq); eauto 10.
Qed.

(** ** Rescheduling *)

(** X9. Rescheduling by any amount, zero included, empties the exclusions of
    the draft (they are not moved), and leaves both times of the day set, so
    that materializing the event afterwards does not fail for an invalid time
    format. *)
Theorem rescheduleEvent_resets (env : Env) (uenv : UtilEnv) (delta : Z)
    (vm : CalendarEventViewModel) :
  let vm' := rescheduleEvent uenv delta vm in
  exclusionsOf vm' = []
  ∧ is_Some (startTime vm') ∧ is_Some (endTime vm')
  ∧ _initializeNewEvent env vm' ≠ inl (UserError "timeFormatInvalid_msg").
Proof.
  cbn zeta. unfold rescheduleEvent. cbn zeta.
  match goal with
  | |- context [deleteExcludedDates ?v] =>
      set (w := v);
      destruct (deleteExcludedDates_frame w) as (Hst & Het & _)
  end.
  split; [apply exclusionsOf_deleteExcludedDates|].
  split; [rewrite Hst; by eexists|]. split; [rewrite Het; by eexists|].
  intros Herr.
  destruct (_initializeNewEvent_error _ _ _ Herr)
    as [(_ & _ & [Hnone|Hnone])|[(? & _)|[?|[?|?]]]]; try discriminate.
  - by rewrite Hst in Hnone.
  - by rewrite Het in Hnone.
Qed.

(** ** Materializing the event, continued *)

(** X10. [_initializeNewEvent] fails with the invalid-time-format error
    exactly when the event is a timed one and its start time or its end time
    is not valid; every other failure is one of three other user errors, or
    the failed assertion that a calendar is selected when a new identity has
    to be generated. *)
Theorem _initializeNewEvent_invalid_time (env : Env) (vm : CalendarEventViewModel) :
  (_initializeNewEvent env vm = inl (UserError "timeFormatInvalid_msg")
   ↔ _allDay vm = false ∧ (startTime vm = None ∨ endTime vm = None))
  ∧ ∀ e, _initializeNewEvent env vm = inl e →
         e = UserError "timeFormatInvalid_msg"
         ∨ e = UserError "startAfterEnd_label"
         ∨ e = UserError "invalidDate_msg"
         ∨ e = UserError "pre1970Start_msg"
         ∨ e = AssertNotNullFailed ∧ selectedCalendar vm = None.
Proof.
  split; [split|].
  - intros Herr.
    destruct (_initializeNewEvent_error _ _ _ Herr)
      as [(_ & ? & ?)|[(? & _)|[?|[?|?]]]]; by try discriminate.
  - intros (Htimed & Hnone). unfold _initializeNewEvent. rewrite Htimed.
    destruct Hnone as [-> | ->]; [done|]. by destruct (startTime vm).
  - intros e Herr.
    destruct (_initializeNewEvent_error _ _ _ Herr)
      as [(? & _)|[(? & ?)|[?|[?|?]]]]; eauto 10.
Qed.

Lemma _initializeNewEvent_invalid_time_witness :
  _initializeNewEvent utcEnv (setStartTime utcUtil None morningVm)
  = inl (UserError "timeFormatInvalid_msg").
Proof.
  apply (proj1 (_initializeNewEvent_invalid_time utcEnv _)).
  split; [reflexivity|]. by left.
Defined.

(** X11. The event [_initializeNewEvent] yields is a valid one; it carries
    the draft's texts, organizer and attendees; and when there is an existing
    event it keeps that event's identity: its id, its owner group, its alarm
    references and, when it is set, its uid. *)
Theorem _initializeNewEvent_keeps_identity (env : Env) (vm : CalendarEventViewModel)
    (ev : CalendarEvent) :
  _initializeNewEvent env vm = inr ev →
  checkEventValidity env ev = Valid
  ∧ ev_summary ev = summary vm ∧ ev_description ev = note vm
  ∧ ev_location ev = location vm ∧ ev_organizer ev = organizer vm
  ∧ ev_attendees ev
    = map (λ a, {| att_address := g_address a; att_status := g_status a |}) (attendees vm)
  ∧ (repeat vm = None → repeatRule ev = None)
  ∧ ∀ old, existingEvent vm = Some old →
           _id ev = _id old ∧ _ownerGroup ev = _ownerGroup old
           ∧ alarmInfos ev = alarmInfos old
           ∧ sequence ev
             = incrementSequence env (sequence old) (bool_decide (_eventType vm = OWN))
           ∧ ∀ u, uid old = Some u → u ≠ "" → uid ev = Some u.
Proof.
  unfold _initializeNewEvent. intros H.
  repeat (case_match; simplify_eq); cbn;
    repeat match goal with |- _ ∧ _ => split end;
    try done; intros; simplify_eq; cbn;
    repeat match goal with |- _ ∧ _ => split end;
    try done; intros; simplify_eq; try done.
  all: by rewrite bool_decide_eq_true in *.
Qed.

Lemma _initializeNewEvent_keeps_identity_witness :
  ∃ ev, _initializeNewEvent utcEnv externalVm = inr ev
        ∧ _id ev = Some ("list", "elem") ∧ uid ev = Some "uid".
Proof.
  destruct (_initializeNewEvent utcEnv externalVm) as [e|ev] eqn:Hnew;
    [vm_compute in Hnew; discriminate|].
  destruct (_initializeNewEvent_keeps_identity utcEnv externalVm ev Hnew)
    as (_ & _ & _ & _ & _ & _ & _ & Hold).
  destruct (Hold sharedEvent eq_refl) as (Hid & _ & _ & _ & Huid).
  exists ev. split; [done|]. split; [exact Hid|]. by apply Huid.
Defined.

(** X12. The recurrence rule made from the draft's recurrence data carries
    the draft's exclusions in their order.  A rule that ends after a count
    has a count of at least one, written as [String] renders it; recurrence
    data with a smaller count give a rule that never ends.  Making the rule fails, with
    the start-after-end error, exactly when the rule ends on a date and the
    start of the day after that date lies before the start of the event. *)
Theorem createRepeatRule_exclusions_and_end (env : Env) (newEvent : CalendarEvent)
    (r : RepeatData) (vm : CalendarEventViewModel) :
  let endOfSeries := getStartOfNextDayWithZone env (endValue r) (_zone vm) in
  (∀ e, createRepeatRule env newEvent r vm = inl e
        ↔ e = UserError "startAfterEnd_label" ∧ endType r = UntilDate
          ∧ endOfSeries < getEventStart env newEvent (_zone vm))
  ∧ ∀ rule, createRepeatRule env newEvent r vm = inr rule →
      map date (rr_excludedDates rule) = excludedDates r
      ∧ (rr_endType rule = Count
         ↔ endType r = Count ∧ 1 <= endValue r)
      ∧ (rr_endType rule = Count → rr_endValue rule = Some (numberToString env (endValue r)))
      ∧ (endType r = Count → endValue r < 1 → rr_endType rule = Never)
      ∧ (rr_endType rule = UntilDate ↔ endType r = UntilDate).
Proof.
  cbn zeta. unfold createRepeatRule. split.
  - intros e. destruct (endType r) eqn:Hend.
    + split; [done|]. by intros (_ & ? & _).
    + destruct (endValue r <? 1); (split; [done|]); by intros (_ & ? & _).
    + destruct (Z.ltb_spec (getStartOfNextDayWithZone env (endValue r) (_zone vm))
                  (getEventStart env newEvent (_zone vm))) as [Hlt|Hge].
      * split; [by intros [= <-]|]. by intros (-> & _).
      * split; [done|]. intros (_ & _ & ?). lia.
  - intros rule Hrule.
    assert (map date (map (λ d, {| date := d |}) (excludedDates r)) = excludedDates r) as Hex.
    { rewrite map_map. cbn. apply map_id. }
    destruct (endType r) eqn:Hend.
    + simplify_eq. cbn. repeat split; try done. by intros [? _].
    + destruct (Z.ltb_spec (endValue r) 1) as [Hlt|Hge]; simplify_eq; cbn;
        repeat split; try done; try lia.
    + case_match; simplify_eq. cbn. repeat split; try done. by intros [? _].
Qed.

Lemma createRepeatRule_exclusions_and_end_witness :
  ∃ rule, createRepeatRule utcEnv sharedEvent
            {| frequency := DAILY; interval := 1; endType := Count; endValue := 0;
               excludedDates := [5; 7] |} morningVm = inr rule
          ∧ rr_endType rule = Never
          ∧ map date (rr_excludedDates rule) = [5; 7].
Proof.
  set (r := {| frequency := DAILY; interval := 1; endType := Count; endValue := 0;
               excludedDates := [5; 7] |}).
  destruct (createRepeatRule utcEnv sharedEvent r morningVm) as [e|rule] eqn:Hrule;
    [vm_compute in Hrule; discriminate|].
  destruct (createRepeatRule_exclusions_and_end utcEnv sharedEvent r morningVm)
    as [_ H].
  destruct (H rule Hrule) as (Hex & _ & _ & Hnever & _).
  exists rule. split; [done|]. split; [|exact Hex].
  apply Hnever; [reflexivity|]. by vm_compute.
Defined.

(** ** What a read-only event allows *)

(** X13. On a read-only event (one in a calendar shared for reading, or one
    with attendees in a calendar shared for writing) the editor can modify
    neither the own attendance nor the organizer, forced updates and password
    fields are not offered, and [selectGoing] and [setOrganizer] leave the
    view model untouched; alarms can still be modified exactly when the
    calendar is shared for writing. *)
Theorem readOnly_event_is_frozen (env : Env) (vm : CalendarEventViewModel) :
  isReadOnlyEvent vm = true →
  canModifyOwnAttendance env vm = false
  ∧ canModifyOrganizer env vm = false
  ∧ isForceUpdateAvailable vm = false
  ∧ shouldShowPasswordFields vm = false
  ∧ isInvite vm = false
  ∧ (∀ going, selectGoing env going vm = vm)
  ∧ (∀ newOrganizer, setOrganizer env newOrganizer vm = vm)
  ∧ (canModifyAlarms vm = true ↔ _eventType vm = SHARED_RW).
Proof.
  unfold isReadOnlyEvent. intros Hro.
  assert (_eventType vm = SHARED_RO ∨ _eventType vm = SHARED_RW) as Hshared.
  { apply orb_true_iff in Hro as [H|H].
    - left. by apply bool_decide_eq_true in H.
    - right. apply andb_true_iff in H as [H _]. by apply bool_decide_eq_true in H. }
  assert (canModifyOwnAttendance env vm = false) as Hatt.
  { unfold canModifyOwnAttendance. by destruct Hshared as [-> | ->]. }
  assert (canModifyOrganizer env vm = false) as Horg.
  { unfold canModifyOrganizer. by destruct Hshared as [-> | ->]. }
  repeat match goal with |- _ ∧ _ => split end; try done.
  - unfold isForceUpdateAvailable. by destruct Hshared as [-> | ->].
  - unfold shouldShowPasswordFields.
    destruct Hshared as [-> | ->]; apply andb_false_r.
  - unfold isInvite. by destruct Hshared as [-> | ->].
  - intros going. unfold selectGoing. by rewrite Hatt.
  - intros o. unfold setOrganizer. by rewrite Horg.
  - unfold canModifyAlarms. by destruct Hshared as [-> | ->].
Qed.

Lemma readOnly_event_is_frozen_witness :
  selectGoing utcEnv DECLINED sharedGuestVm = sharedGuestVm
  ∧ canModifyAlarms sharedGuestVm = true.
Proof.
  destruct (readOnly_event_is_frozen utcEnv sharedGuestVm eq_refl)
    as (_ & _ & _ & _ & _ & Hgoing & _ & Halarms).
  split; [apply Hgoing|]. by apply Halarms.
Defined.

(** ** The calendars an event can be moved to *)

Lemma _initGuestStatus_fixed env ex vm :
  fixedByInitGuestStatus (_initGuestStatus env ex vm) = fixedByInitGuestStatus vm.
Proof.
  unfold _initGuestStatus. destruct ex as [ev|]; [|done].
  change (fixedByInitGuestStatus vm)
    with (fixedByInitGuestStatus (set_guestStatuses ∅ vm)).
  generalize (set_guestStatuses ∅ vm). clear vm.
  induction (ev_attendees ev) as [|att l IH]; intros v; cbn [foldl]; [done|].
  rewrite IH. by case_bool_decide.
Qed.

(** X14. For a view model as the constructor leaves it, listing the available
    calendars never fails.  Every calendar listed is one of the calendars
    given; for a read-only event only calendars of the event's owner group
    are listed; for an invitation, and for an own event with attendees, no
    shared calendar is listed; and for an own event without attendees, only
    calendars on whose group the user has write capability. *)
Theorem getAvailableCalendars_constructed (env : Env) (uc : UserController)
    (mp : MailboxProperties) (own : list string) (im um cm rm : SendMailModel)
    (zone : string) (cals : gmap Id CalendarInfo) (ex : option CalendarEvent)
    (rt : option Mail) (sel : option CalendarInfo) :
  let vm := construct env uc mp own im um cm rm zone cals ex rt sel in
  ∃ l, getAvailableCalendars env vm = inr l
       ∧ (∀ info, info ∈ l → ∃ k, cals !! k = Some info)
       ∧ (isReadOnlyEvent vm = true →
          ∃ ev, ex = Some ev
                ∧ ∀ info, info ∈ l → Some (group_id (group info)) = _ownerGroup ev)
       ∧ (_eventType vm = INVITE ∨ _eventType vm = OWN ∧ attendees vm ≠ [] →
          ∀ info, info ∈ l → shared info = false)
       ∧ (_eventType vm = OWN ∧ attendees vm = [] →
          ∀ info, info ∈ l → hasCapabilityOnGroup env (user uc) (group info) Write = true).
Proof.
  cbn zeta. unfold construct.
  match goal with |- context [_initGuestStatus env ex ?b] => set (base := b) end.
  set (vm := _initGuestStatus env ex base).
  pose proof (_initGuestStatus_fixed env ex base) as Hfixed.
  fold vm in Hfixed. unfold fixedByInitGuestStatus in Hfixed.
  injection Hfixed as Htype Hex Hcals Huc _ _ _.
  subst base. cbn in Htype, Hex, Hcals, Huc.
  assert (∀ info, info ∈ (map_to_list (calendars vm)).*2 → ∃ k, cals !! k = Some info)
    as Hvalues.
  { intros info Hin. apply list_elem_of_fmap in Hin as ([k i] & -> & Hin).
    apply elem_of_map_to_list in Hin. rewrite Hcals in Hin. by exists k. }
  assert (isReadOnlyEvent vm = true → is_Some ex) as Hsome.
  { unfold isReadOnlyEvent. rewrite Htype. unfold initEventTypeAndOrganizers.
    destruct ex; [by eexists|]. cbn. discriminate. }
  unfold getAvailableCalendars.
  destruct (isReadOnlyEvent vm) eqn:Hro.
  - destruct (Hsome eq_refl) as [ev ->]. rewrite Hex.
    eexists. split; [reflexivity|].
    assert (_eventType vm = SHARED_RO ∨ _eventType vm = SHARED_RW) as Hshared.
    { unfold isReadOnlyEvent in Hro. apply orb_true_iff in Hro as [H|H].
      - left. by apply bool_decide_eq_true in H.
      - right. apply andb_true_iff in H as [H _]. by apply bool_decide_eq_true in H. }
    repeat match goal with |- _ ∧ _ => split end.
    + intros info Hin. apply list_elem_of_filter in Hin as [_ Hin]. by apply Hvalues.
    + intros _. exists ev. split; [done|].
      intros info Hin. by apply list_elem_of_filter in Hin as [? _].
    + intros [Hinv|[Hown _]]; destruct Hshared; congruence.
    + intros [Hown _]; destruct Hshared; congruence.
  - unfold isReadOnlyEvent in Hro.
    destruct ((0 <? Z.of_nat (length (attendees vm)))
              || bool_decide (_eventType vm = INVITE)) eqn:Hguests.
    + eexists. split; [reflexivity|].
      repeat match goal with |- _ ∧ _ => split end; [|done|..].
      * intros info Hin. apply list_elem_of_filter in Hin as [_ Hin]. by apply Hvalues.
      * intros _ info Hin. by apply list_elem_of_filter in Hin as [? _].
      * intros [Hown Hnone]. rewrite Hnone, Hown in Hguests. done.
    + eexists. split; [reflexivity|].
      apply orb_false_iff in Hguests as [Hlen Hinv].
      apply bool_decide_eq_false in Hinv.
      repeat match goal with |- _ ∧ _ => split end; [|done|..].
      * intros info Hin. apply list_elem_of_filter in Hin as [_ Hin]. by apply Hvalues.
      * intros [?|[_ Hne]]; [done|].
        destruct (attendees vm); [done|]. apply Z.ltb_ge in Hlen. cbn [length] in Hlen. lia.
      * intros _ info Hin. apply list_elem_of_filter in Hin as [Hcap _].
        by rewrite Huc in Hcap.
Qed.

Lemma getAvailableCalendars_constructed_witness :
  getAvailableCalendars utcEnv sharedGuestVm = inr [rwCalendar]
  ∧ ∃ l, getAvailableCalendars utcEnv (demoConstruct (Some inviteEvent)) = inr l
         ∧ ∀ info, info ∈ l → shared info = false.
Proof.
  split; [reflexivity|].
  destruct (getAvailableCalendars_constructed utcEnv demoUserController []
              demoOwnAddresses emptyModel emptyModel emptyModel emptyModel "UTC"
              demoCalendars (Some inviteEvent) None (Some ownCalendar))
    as (l & Hl & _ & _ & Hinvite & _).
  exists l. split; [exact Hl|]. apply Hinvite. by left.
Defined.

(** ** Passwords of guests *)

Lemma updatePassword_cancel_entry (env : Env) (guest : Guest)
    (password : string) (vm : CalendarEventViewModel) (inCancel : Recipient) :
  findRecipientWithAddress env r_address (bccRecipients (_cancelModel vm))
    (address (g_address guest)) = Some inCancel →
  getPassword (r_address inCancel) (_updateModel (updatePassword env guest password vm))
  = password.
Proof.
  intros Hfind. unfold updatePassword.
  match goal with
  | |- context [findRecipientWithAddress env r_address (bccRecipients (_cancelModel ?v))
                  (address (g_address guest))] =>
      replace (_cancelModel v) with (_cancelModel vm) by (repeat case_match; reflexivity)
  end.
  rewrite Hfind. unfold getPassword. cbn. by rewrite lookup_insert_eq.
Qed.

(** X15. [updatePassword] never writes to the cancel roster: the password of
    a guest found on the cancel roster is recorded on the update roster,
    under the address of the cancel roster's entry.  The recipients of the
    three rosters stay as they are. *)
Theorem updatePassword_spares_cancel_roster (env : Env) (guest : Guest)
    (password : string) (vm : CalendarEventViewModel) :
  let vm' := updatePassword env guest password vm in
  _cancelModel vm' = _cancelModel vm
  ∧ bccRecipients (_inviteModel vm') = bccRecipients (_inviteModel vm)
  ∧ bccRecipients (_updateModel vm') = bccRecipients (_updateModel vm)
  ∧ ∀ inCancel,
      findRecipientWithAddress env r_address (bccRecipients (_cancelModel vm))
        (address (g_address guest)) = Some inCancel →
      getPassword (r_address inCancel) (_updateModel vm') = password.
Proof.
  cbn zeta. repeat match goal with |- _ ∧ _ => split end.
  - unfold updatePassword. repeat case_match; reflexivity.
  - unfold updatePassword. repeat case_match; reflexivity.
  - unfold updatePassword. repeat case_match; reflexivity.
  - apply updatePassword_cancel_entry.
Qed.

Lemma updatePassword_spares_cancel_roster_witness :
  let guest := {| g_address := other; g_type := UNKNOWN; g_status := ACCEPTED |} in
  passwords (_cancelModel (updatePassword utcEnv guest "secret" removedGuestVm)) = ∅
  ∧ getPassword "other@x.com"
      (_updateModel (updatePassword utcEnv guest "secret" removedGuestVm)) = "secret".
Proof.
  cbn zeta.
  destruct (updatePassword_spares_cancel_roster utcEnv
              {| g_address := other; g_type := UNKNOWN; g_status := ACCEPTED |}
              "secret" removedGuestVm) as (Hcancel & _ & _ & Hupdate).
  split.
  - rewrite Hcancel. reflexivity.
  - exact (Hupdate {| r_address := "other@x.com"; r_name := "Other"; r_type := UNKNOWN;
                      r_contact := None |} eq_refl).
Defined.

(** X16. A password set for a guest is the password read for that guest: when
    the guest's address is found on the invite roster in the same spelling;
    or when the invite roster holds no password under the address and the
    address is found on the update roster, or on the cancel roster, in the
    same spelling.  The password must not be empty. *)
Theorem updatePassword_getGuestPassword (env : Env) (guest : Guest)
    (password : string) (vm : CalendarEventViewModel) :
  let a := address (g_address guest) in
  let found (m : SendMailModel) :=
    ∃ r, findRecipientWithAddress env r_address (bccRecipients m) a = Some r
         ∧ r_address r = a in
  password ≠ "" →
  found (_inviteModel vm)
  ∨ getPassword a (_inviteModel vm) = ""
    ∧ (∀ r, findRecipientWithAddress env r_address (bccRecipients (_inviteModel vm)) a
            = Some r → r_address r ≠ a)
    ∧ (found (_updateModel vm) ∨ found (_cancelModel vm)) →
  getGuestPassword guest (updatePassword env guest password vm) = password.
Proof.
  cbn zeta. intros Hp Hcase.
  pose proof (updatePassword_cancel_entry env guest password vm) as Hcancel.
  unfold getGuestPassword.
  assert (∀ k p (m : SendMailModel),
            getPassword k (setPassword k p m) = p) as Hset.
  { intros k p m. unfold getPassword. cbn. by rewrite lookup_insert_eq. }
  assert (∀ k k' p (m : SendMailModel), k' ≠ k →
            getPassword k (setPassword k' p m) = getPassword k m) as Hother.
  { intros k k' p m Hne. unfold getPassword. cbn. by rewrite lookup_insert_ne. }
  destruct Hcase as [(r & Hfind & Hr)|(Hnone & Hspelling & Hrest)].
  - assert (getPassword (address (g_address guest))
              (_inviteModel (updatePassword env guest password vm)) = password) as ->.
    { unfold updatePassword. rewrite Hfind, Hr.
      repeat case_match; cbn; apply Hset. }
    by rewrite bool_decide_eq_false_2.
  - assert (getPassword (address (g_address guest))
              (_inviteModel (updatePassword env guest password vm)) = "") as ->.
    { unfold updatePassword.
      destruct (findRecipientWithAddress env r_address (bccRecipients (_inviteModel vm))
                  (address (g_address guest))) as [r|] eqn:Hfind.
      - pose proof (Hspelling r eq_refl).
        repeat case_match; cbn; by rewrite Hother.
      - repeat case_match; cbn; done. }
    cbn [negb bool_decide decide_rel]. rewrite bool_decide_eq_true_2 by done. cbn [negb].
    assert (getPassword (address (g_address guest))
              (_updateModel (updatePassword env guest password vm)) = password) as ->.
    { destruct Hrest as [(r & Hfind & Hr)|(r & Hfind & Hr)].
      - unfold updatePassword.
        match goal with
        | |- context [findRecipientWithAddress env r_address (bccRecipients (_updateModel ?v))
                        (address (g_address guest))] =>
            replace (_updateModel v) with (_updateModel vm) by (by case_match)
        end.
        rewrite Hfind, Hr.
        case_match; cbn; [|apply Hset].
        match goal with
        | |- getPassword ?k (setPassword ?k' _ _) = _ =>
            destruct (decide (k' = k)) as [->|Hne]; [apply Hset|rewrite Hother by done]
        end.
        apply Hset.
      - rewrite <- Hr. by apply Hcancel. }
    by rewrite bool_decide_eq_false_2.
Qed.

Lemma updatePassword_getGuestPassword_witness :
  getGuestPassword {| g_address := other; g_type := UNKNOWN; g_status := ACCEPTED |}
    (updatePassword utcEnv
       {| g_address := other; g_type := UNKNOWN; g_status := ACCEPTED |}
       "secret" removedGuestVm) = "secret".
Proof.
  apply updatePassword_getGuestPassword; [done|].
  right. split; [reflexivity|]. split; [intros r; discriminate|].
  right. eexists. split; reflexivity.
Defined.

(** ** Runs of the save protocol *)

Lemma follows_run {A} I (Q : list Call → CalendarEventViewModel → Error + A → Prop)
    (p : Proc A) (o : Oracle) (n : nat) :
  follows I Q p → Q (run o n p).2 (run o n p).1.1 (run o n p).1.2.
Proof.
  revert Q n. induction p as [vm r|R vm c k IH]; intros Q n Hp; cbn in *; [done|].
  destruct Hp as [Hvm Hk].
  specialize (IH (o n R c) vm _ (S n) (Hk _ _ Hvm)).
  by destruct (run o (S n) (k (o n R c) vm)) as [[? ?] ?].
Qed.

Lemma ledger_fold (l : list CalendarEventAttendee) (v : CalendarEventViewModel) :
  foldl (λ vm a, set_guestStatuses
                   (<[address (att_address a) := NEEDS_ACTION]> (_guestStatuses vm)) vm) v l
  = set_guestStatuses
      (foldl (λ m a, <[address (att_address a) := NEEDS_ACTION]> m) (_guestStatuses v) l) v.
Proof.
  revert v. induction l as [|a l IH]; intros v; cbn [foldl]; [by destruct v|].
  by rewrite IH.
Qed.

Lemma _saveEvent_call (ev : CalendarEvent) (al : list AlarmInfo)
    (vm : CalendarEventViewModel) :
  _saveEvent ev al vm
  = if bool_decide (accountType (user (_userController vm)) = EXTERNAL)
    then Done vm (inr tt)
    else match selectedCalendar vm with
         | None => Done vm (inl AssertNotNullFailed)
         | Some cal => Susp vm (saveEventCall ev al cal vm) (λ r vm', Done vm' r)
         end.
Proof.
  unfold _saveEvent, saveEventCall, bind, get, await, ret, throw. cbn [bindP].
  repeat case_match; reflexivity.
Qed.

Lemma callKind_saveEventCall ev al cal vm :
  callKind (call (saveEventCall ev al cal vm)) = KPersist.
Proof. unfold saveEventCall. by repeat case_match. Qed.

Lemma onPayloadTooLarge_afterCatch (e : Error) (vm : CalendarEventViewModel) :
  onPayloadTooLarge e vm = Done vm (inl (afterCatch e)).
Proof. by destruct e. Qed.

Ltac stuck p :=
  lazymatch p with
  | bindP ?q _ => stuck q
  | catchP ?q _ => stuck q
  | finallyP ?q _ => stuck q
  | Done _ ?r => r
  | (if ?b then _ else _) _ => b
  | (match ?x with _ => _ end) _ => x
  | if ?b then _ else _ => b
  | match ?x with _ => _ end => x
  end.

Ltac atom b :=
  lazymatch b with
  | ?a && _ => atom a
  | ?a || _ => atom a
  | negb ?a => atom a
  | _ => b
  end.

Lemma sameGuards_fields (vm v : CalendarEventViewModel) :
  sameGuards vm v →
  _eventType v = _eventType vm
  ∧ _userController v = _userController vm
  ∧ isForceUpdates v = isForceUpdates vm
  ∧ hasBusinessFeature v = hasBusinessFeature vm
  ∧ _inviteModel v = _inviteModel vm
  ∧ _updateModel v = _updateModel vm
  ∧ _cancelModel v = _cancelModel vm.
Proof. unfold sameGuards, guardFields. intros [= -> -> -> -> -> -> ->]. done. Qed.

Ltac exec_cbn :=
  cbn [bindP catchP finallyP set_guestStatuses set_existingEvent set_processing
       _eventType _userController isForceUpdates hasBusinessFeature
       _inviteModel _updateModel _cancelModel selectedCalendar andb orb negb].

Ltac exec_norm :=
  exec_cbn;
  rewrite ?_saveEvent_call, ?onPayloadTooLarge_afterCatch, ?ledger_fold;
  exec_cbn;
  repeat match goal with
         | H : sameGuards ?vm ?v |- context [_eventType ?v] =>
             rewrite (proj1 (sameGuards_fields vm v H))
         | H : sameGuards ?vm ?v |- context [_userController ?v] =>
             rewrite (proj1 (proj2 (sameGuards_fields vm v H)))
         | H : sameGuards ?vm ?v |- context [isForceUpdates ?v] =>
             rewrite (proj1 (proj2 (proj2 (sameGuards_fields vm v H))))
         | H : sameGuards ?vm ?v |- context [hasBusinessFeature ?v] =>
             rewrite (proj1 (proj2 (proj2 (proj2 (sameGuards_fields vm v H)))))
         | H : sameGuards ?vm ?v |- context [_inviteModel ?v] =>
             rewrite (proj1 (proj2 (proj2 (proj2 (proj2 (sameGuards_fields vm v H))))))
         | H : sameGuards ?vm ?v |- context [_updateModel ?v] =>
             rewrite (proj1 (proj2 (proj2 (proj2 (proj2 (proj2
                        (sameGuards_fields vm v H)))))))
         | H : sameGuards ?vm ?v |- context [_cancelModel ?v] =>
             rewrite (proj2 (proj2 (proj2 (proj2 (proj2 (proj2
                        (sameGuards_fields vm v H)))))))
         end;
  cbn [andb orb negb].

Ltac exec_step :=
  exec_norm;
  lazymatch goal with
  | |- follows _ _ (Done _ _) => fail
  | |- follows _ _ (Susp _ _ _) =>
      cbn [follows]; split;
      [|let r := fresh "r" in let v := fresh "v" in let Hv := fresh "Hv" in
        intros r v Hv ]
  | |- follows _ _ ?p =>
      let s := stuck p in
      let a := atom s in
      first [ match goal with H : a = _ |- _ => rewrite H end
            | lazymatch a with
              | bool_decide (@eq UpdateResponse ?x ?y) =>
                  first [ is_var x; destruct x
                        | let b := eval vm_compute in a in change a with b ]
              end
            | destruct a eqn:? ]
  end.

Ltac solve_guards :=
  lazymatch goal with
  | |- sameGuards ?vm ?vm => reflexivity
  | |- sameGuards _ _ => match goal with H : sameGuards _ _ |- _ => exact H end
  end.

Ltac leaf_norm :=
  exec_norm;
  cbn [follows];
  unfold kindsOf;
  cbn [fmap list_fmap];
  rewrite ?callKind_saveEventCall;
  cbn [callKind call projT2 outcomeOf].

Lemma afterCatch_not_payload e : afterCatch e ≠ PayloadTooLargeError.
Proof. by destruct e. Qed.


(** Every run of [saveAndSend], however it is resumed as long as the guard
    fields stay as they are, satisfies [saveAndSendPost]: by symbolic
    execution of the protocol. *)
Lemma saveAndSend_follows (env : Env) (vm : CalendarEventViewModel) :
  follows (sameGuards vm) (saveAndSendPost vm) (saveAndSend env vm).
Proof.
  unfold saveAndSend, saveAndSend_guarded, saveAndSend_protocol, _sendNotificationAndSave,
    _sendNotificationAndSave_p, _respondToOrganizerAndSave, _sendInvite,
    shouldShowSendInviteNotAvailable, _hasUpdatableAttendees.
  unfold bind, get, await, ret, throw, modify, liftE.
  unfold saveAndSendPost.
  repeat exec_step.
  all: try solve_guards.
  all: leaf_norm.
  all: split; [|first [discriminate | reflexivity
                      | intros [= H]; by apply afterCatch_not_payload in H ]].
  all: try (vm_compute; reflexivity).
  all: try (repeat match goal with
                   | |- context [bool_decide ?P] => destruct (bool_decide P)
                   | |- context [0 <? ?x] => destruct (0 <? x)
                   | |- context [isForceUpdates ?x] => destruct (isForceUpdates x)
                   end; vm_compute; reflexivity).
  all: exfalso;
    repeat match goal with
           | H : bool_decide _ = true |- _ => apply bool_decide_eq_true in H
           end; congruence.
Qed.

Lemma saveAndSend_run_post (env : Env) (vm : CalendarEventViewModel) (o : Oracle)
    (n : nat) :
  saveAndSendPost vm (run o n (saveAndSend env vm)).2
    (run o n (saveAndSend env vm)).1.1 (run o n (saveAndSend env vm)).1.2.
Proof. apply (follows_run (sameGuards vm)), saveAndSend_follows. Qed.

Lemma hasKind_false (k : CallKind) (l : list CallKind) : hasKind k l = false → k ∉ l.
Proof.
  unfold hasKind. intros Hno Hin.
  assert (existsb (λ x, bool_decide (x = k)) l = true) as Hyes.
  { apply existsb_exists. exists k. split; [by apply list_elem_of_In|].
    by apply bool_decide_eq_true. }
  congruence.
Qed.

Lemma hasAnyKind_false (ks l : list CallKind) :
  negb (hasAnyKind ks l) = true → ∀ k, k ∈ ks → k ∉ l.
Proof.
  unfold hasAnyKind. intros Hno k Hk. apply negb_true_iff in Hno.
  apply hasKind_false.
  destruct (hasKind k l) eqn:Hhas; [|done].
  assert (existsb (λ k, hasKind k l) ks = true) as Hyes.
  { apply existsb_exists. exists k. split; [by apply list_elem_of_In|done]. }
  congruence.
Qed.

Lemma unless_elim (premise conclusion : bool) :
  unless premise conclusion = true → premise = true → conclusion = true.
Proof. unfold unless. by destruct premise, conclusion. Qed.

(** The parts of [saveAndSendPostB]. *)
Lemma saveAndSendPostB_parts (fOwn fInvite fForce fFree fExternal
    fHasInvite fHasUpdate fHasCancel : bool) (kinds : list CallKind) (r : option bool) :
  saveAndSendPostB fOwn fInvite fForce fFree fExternal fHasInvite fHasUpdate fHasCancel
    kinds r = true →
  (countKind KPersist kinds <= 1)%nat
  ∧ (r = Some false →
     ∀ k, k ∈ [KPersist; KSendInvite; KSendCancellation; KSendUpdate; KSendResponse] →
          k ∉ kinds)
  ∧ (r = Some true → fExternal = false → countKind KPersist kinds = 1%nat)
  ∧ (fOwn = false → fInvite = false →
     ∀ k, k ∈ [KSendInvite; KSendCancellation; KSendUpdate; KSendResponse;
               KAskForUpdates; KAskInsecurePassword; KIsNewPaidPlan] → k ∉ kinds)
  ∧ (fInvite = true → fOwn = false →
     (∀ k, k ∈ [KSendInvite; KSendCancellation; KSendUpdate;
                KAskForUpdates; KAskInsecurePassword; KIsNewPaidPlan] → k ∉ kinds)
     ∧ (countKind KSendResponse kinds <= 1)%nat)
  ∧ (fOwn = true → ∀ k, k ∈ [KSendResponse; KDispose] → k ∉ kinds)
  ∧ (fForce = true → KAskForUpdates ∉ kinds)
  ∧ (fFree = true →
     ∀ k, k ∈ [KSendCancellation; KSendUpdate; KIsNewPaidPlan] → k ∉ kinds)
  ∧ (fFree = true → fHasInvite = true → KSendInvite ∉ kinds)
  ∧ (fHasUpdate = false → ∀ k, k ∈ [KSendUpdate; KAskForUpdates] → k ∉ kinds)
  ∧ (fHasCancel = false → KSendCancellation ∉ kinds)
  ∧ (fHasInvite = false → KAskInsecurePassword ∉ kinds).
Proof.
  unfold saveAndSendPostB. intros H.
  repeat match type of H with
         | _ && _ = true => let H' := fresh "P" in apply andb_true_iff in H as [H H']
         end.
  repeat match goal with |- _ ∧ _ => split end.
  - by apply Nat.leb_le.
  - intros ->. by apply hasAnyKind_false, (unless_elim _ _ P9).
  - intros -> ->. by apply Nat.eqb_eq, (unless_elim _ _ P8).
  - intros -> ->. by apply hasAnyKind_false, (unless_elim _ _ P7).
  - intros -> ->. pose proof (unless_elim _ _ P6 eq_refl) as [? ?]%andb_true_iff.
    split; [by apply hasAnyKind_false|by apply Nat.leb_le].
  - intros ->. by apply hasAnyKind_false, (unless_elim _ _ P5).
  - intros ->. apply hasKind_false, negb_true_iff. by apply (unless_elim _ _ P4).
  - intros ->. by apply hasAnyKind_false, (unless_elim _ _ P3).
  - intros -> ->. apply hasKind_false, negb_true_iff. by apply (unless_elim _ _ P2).
  - intros ->. by apply hasAnyKind_false, (unless_elim _ _ P1).
  - intros ->. apply hasKind_false, negb_true_iff. by apply (unless_elim _ _ P0).
  - intros ->. apply hasKind_false, negb_true_iff. by apply (unless_elim _ _ P).
Qed.

Lemma roster_flag_false (l : list Recipient) : l = [] → (0 <? Z.of_nat (length l)) = false.
Proof. by intros ->. Qed.

Lemma roster_flag_true (l : list Recipient) : l ≠ [] → (0 <? Z.of_nat (length l)) = true.
Proof. destruct l; [done|]. intros _. apply Z.ltb_lt. cbn [length]. lia. Qed.

(** X17. No run of [saveAndSend] writes the event to the calendar store more
    than once.  A run that resolves to true, for a user who is not an
    external one, has written it exactly once; a run that resolves to false
    has neither written the event nor sent any mail. *)
Theorem saveAndSend_true_iff_written_once (env : Env) (vm : CalendarEventViewModel)
    (o : Oracle) (n : nat) :
  let res := run o n (saveAndSend env vm) in
  let kinds := kindsOf res.2 in
  (countKind KPersist kinds <= 1)%nat
  ∧ (res.1.2 = inr true → accountType (user (_userController vm)) ≠ EXTERNAL →
     countKind KPersist kinds = 1%nat)
  ∧ (res.1.2 = inr false →
     ∀ k, k ∈ [KPersist; KSendInvite; KSendCancellation; KSendUpdate; KSendResponse] →
          k ∉ kinds).
Proof.
  cbn zeta. destruct (saveAndSend_run_post env vm o n) as [HB _].
  apply saveAndSendPostB_parts in HB as (Hmost & Hfalse & Htrue & _).
  split; [exact Hmost|]. split.
  - intros Hr Hext. apply Htrue; [by rewrite Hr|]. by apply bool_decide_eq_false_2.
  - intros Hr. apply Hfalse. by rewrite Hr.
Qed.

Lemma saveAndSend_true_iff_written_once_witness :
  countKind KPersist
    (kindsOf (run (benignOracle yes true true None) 0
                (saveAndSend utcEnv (addGuest utcEnv "x@ex.com" None draftVm))).2)
  = 1%nat.
Proof.
  refine (proj1 (proj2 (saveAndSend_true_iff_written_once utcEnv
                          (addGuest utcEnv "x@ex.com" None draftVm)
                          (benignOracle yes true true None) 0)) _ _).
  - by vm_compute.
  - by vm_compute.
Defined.

(** X18. [saveAndSend] does not reject with the payload-too-large error of a
    collaborator: a run that ends with this error has made no call but the
    one awaiting the initialisation of the view model, which is awaited
    outside the chain that replaces the error by a user error. *)
Theorem saveAndSend_payload_too_large (env : Env) (vm : CalendarEventViewModel)
    (o : Oracle) (n : nat) :
  (run o n (saveAndSend env vm)).1.2 = inl PayloadTooLargeError →
  kindsOf (run o n (saveAndSend env vm)).2 = [KInitialized].
Proof. destruct (saveAndSend_run_post env vm o n) as [_ H]. exact H. Qed.

Lemma saveAndSend_payload_too_large_witness :
  kindsOf (run failingInitOracle 0 (saveAndSend utcEnv draftVm)).2 = [KInitialized]
  ∧ (run tooLargeOracle 0 (saveAndSend utcEnv draftVm)).1.2
    = inl (UserError "requestTooLarge_msg").
Proof.
  split; [|by vm_compute].
  apply saveAndSend_payload_too_large. by vm_compute.
Defined.

(** X19. Saving an event of a shared calendar sends no mail and asks the user
    nothing, whatever the rosters hold. *)
Theorem saveAndSend_shared_sends_nothing (env : Env) (vm : CalendarEventViewModel)
    (o : Oracle) (n : nat) :
  _eventType vm = SHARED_RO ∨ _eventType vm = SHARED_RW →
  ∀ k, k ∈ [KSendInvite; KSendCancellation; KSendUpdate; KSendResponse;
            KAskForUpdates; KAskInsecurePassword; KIsNewPaidPlan] →
       k ∉ kindsOf (run o n (saveAndSend env vm)).2.
Proof.
  intros Hshared. destruct (saveAndSend_run_post env vm o n) as [HB _].
  apply saveAndSendPostB_parts in HB as (_ & _ & _ & Hs & _).
  apply Hs; apply bool_decide_eq_false_2; destruct Hshared as [-> | ->]; done.
Qed.

Lemma saveAndSend_shared_sends_nothing_witness :
  KSendInvite
  ∉ kindsOf (run (benignOracle yes true true None) 0
               (saveAndSend utcEnv (addGuest utcEnv "x@ex.com" None externalVm))).2.
Proof.
  apply saveAndSend_shared_sends_nothing; [right; reflexivity|].
  apply (bool_decide_unpack _). by vm_compute.
Defined.

(** X20. Saving an invitation sends no invitation, cancellation or update
    and asks the user nothing; it sends at most one response.  Saving an own
    event sends no response. *)
Theorem saveAndSend_invitation_only_responds (env : Env) (vm : CalendarEventViewModel)
    (o : Oracle) (n : nat) :
  let kinds := kindsOf (run o n (saveAndSend env vm)).2 in
  (_eventType vm = INVITE →
   (∀ k, k ∈ [KSendInvite; KSendCancellation; KSendUpdate;
              KAskForUpdates; KAskInsecurePassword; KIsNewPaidPlan] → k ∉ kinds)
   ∧ (countKind KSendResponse kinds <= 1)%nat)
  ∧ (_eventType vm = OWN → ∀ k, k ∈ [KSendResponse; KDispose] → k ∉ kinds).
Proof.
  cbn zeta. destruct (saveAndSend_run_post env vm o n) as [HB _].
  apply saveAndSendPostB_parts in HB as (_ & _ & _ & _ & Hi & Ho & _).
  split.
  - intros Ht. apply Hi; rewrite Ht; done.
  - intros Ht. apply Ho. by rewrite Ht.
Qed.

Lemma saveAndSend_invitation_only_responds_witness :
  let kinds := kindsOf (run (benignOracle yes true true None) 0
                          (saveAndSend utcEnv
                             (set_endTime (Some {| hours := 11; minutes := 0 |})
                                (set_startTime (Some {| hours := 10; minutes := 0 |})
                                   acceptingVm)))).2 in
  (KSendInvite ∉ kinds) ∧ (countKind KSendResponse kinds <= 1)%nat.
Proof.
  cbn zeta.
  destruct (saveAndSend_invitation_only_responds utcEnv
              (set_endTime (Some {| hours := 11; minutes := 0 |})
                 (set_startTime (Some {| hours := 10; minutes := 0 |}) acceptingVm))
              (benignOracle yes true true None) 0) as [Hinvite _].
  destruct (Hinvite eq_refl) as [Hnone Hone].
  split; [|exact Hone]. apply Hnone.
  apply (bool_decide_unpack _). by vm_compute.
Defined.

(** X21. When updates are forced the user is not asked whether to send them.
    An update is neither asked about nor sent when the update roster is
    empty; no cancellation is sent when the cancel roster is empty; and the
    user is not asked about insecure passwords when the invite roster is
    empty. *)
Theorem saveAndSend_questions_and_rosters (env : Env) (vm : CalendarEventViewModel)
    (o : Oracle) (n : nat) :
  let kinds := kindsOf (run o n (saveAndSend env vm)).2 in
  (isForceUpdates vm = true → KAskForUpdates ∉ kinds)
  ∧ (bccRecipients (_updateModel vm) = [] →
     ∀ k, k ∈ [KSendUpdate; KAskForUpdates] → k ∉ kinds)
  ∧ (bccRecipients (_cancelModel vm) = [] → KSendCancellation ∉ kinds)
  ∧ (bccRecipients (_inviteModel vm) = [] → KAskInsecurePassword ∉ kinds).
Proof.
  cbn zeta. destruct (saveAndSend_run_post env vm o n) as [HB _].
  apply saveAndSendPostB_parts
    in HB as (_ & _ & _ & _ & _ & _ & Hf & _ & _ & Hu & Hc & Hi).
  repeat split.
  - exact Hf.
  - intros Hnone. apply Hu. by apply roster_flag_false.
  - intros Hnone. apply Hc. by apply roster_flag_false.
  - intros Hnone. apply Hi. by apply roster_flag_false.
Qed.

Lemma saveAndSend_questions_and_rosters_witness :
  KSendCancellation
  ∉ kindsOf (run (benignOracle yes true true None) 0
               (saveAndSend utcEnv (addGuest utcEnv "x@ex.com" None draftVm))).2.
Proof.
  destruct (saveAndSend_questions_and_rosters utcEnv
              (addGuest utcEnv "x@ex.com" None draftVm)
              (benignOracle yes true true None) 0) as (_ & _ & Hcancel & _).
  apply Hcancel. reflexivity.
Defined.

(** X22. For a user on the free plan no run of [saveAndSend] sends a
    cancellation or an update, and none sends an invitation when the invite
    roster is not empty: the protocol is left with the business-feature
    error before anything is sent. *)
Theorem saveAndSend_free_plan_sends_nothing (env : Env) (vm : CalendarEventViewModel)
    (o : Oracle) (n : nat) :
  accountType (user (_userController vm)) = FREE →
  let kinds := kindsOf (run o n (saveAndSend env vm)).2 in
  (∀ k, k ∈ [KSendCancellation; KSendUpdate; KIsNewPaidPlan] → k ∉ kinds)
  ∧ (bccRecipients (_inviteModel vm) ≠ [] → KSendInvite ∉ kinds).
Proof.
  intros Hfree. cbn zeta. destruct (saveAndSend_run_post env vm o n) as [HB _].
  apply saveAndSendPostB_parts
    in HB as (_ & _ & _ & _ & _ & _ & _ & Hf & Hfi & _).
  split.
  - apply Hf. by apply bool_decide_eq_true_2.
  - intros Hsome. apply Hfi; [by apply bool_decide_eq_true_2|].
    by apply roster_flag_true.
Qed.

Lemma saveAndSend_free_plan_sends_nothing_witness :
  (KSendInvite ∉ kindsOf (run (benignOracle yes true true None) 0
                            (saveAndSend utcEnv freeVm)).2)
  ∧ (run (benignOracle yes true true None) 0 (saveAndSend utcEnv freeVm)).1.2
    = inl (BusinessFeatureRequiredError "businessFeatureRequiredInvite_msg").
Proof.
  split; [|by vm_compute].
  refine (proj2 (saveAndSend_free_plan_sends_nothing utcEnv freeVm
                   (benignOracle yes true true None) 0 eq_refl) _).
  by vm_compute.
Defined.
(** ** Removing and adding guests *)

Lemma removeRecipient_subset recipient (m : SendMailModel) (r : Recipient) :
  r ∈ bccRecipients (removeRecipient recipient BCC m) → r ∈ bccRecipients m.
Proof.
  unfold removeRecipient. cbn. intros Hin.
  by apply list_elem_of_filter in Hin as [_ ?].
Qed.

Lemma removeAttendee_rosters (env : Env) (guest : Guest) (vm : CalendarEventViewModel) :
  (∀ r, r ∈ bccRecipients (_inviteModel (removeAttendee env guest vm)) →
        r ∈ bccRecipients (_inviteModel vm))
  ∧ (∀ r, r ∈ bccRecipients (_updateModel (removeAttendee env guest vm)) →
          r ∈ bccRecipients (_updateModel vm)).
Proof.
  unfold removeAttendee. split.
  - intros r. repeat case_match; cbn; try done; apply removeRecipient_subset; done.
  - intros r. repeat case_match; cbn; try done; apply removeRecipient_subset; done.
Qed.

Lemma removeAttendee_cancelled (env : Env) (guest : Guest) (vm : CalendarEventViewModel)
    (ev : CalendarEvent) (x : CalendarEventAttendee) :
  existingEvent vm = Some ev →
  findAttendeeInAddresses env att_address (ev_attendees ev) [address (g_address guest)]
  = Some x →
  is_Some (findRecipientWithAddress env r_address
             (bccRecipients (_cancelModel (removeAttendee env guest vm)))
             (address (att_address x))).
Proof.
  unfold removeAttendee. intros -> ->.
  match goal with
  | |- context [addRecipient env BCC ?p ?m] =>
      pose proof (addRecipient_found env BCC p m) as Hfound
  end.
  exact Hfound.
Qed.

(** X23. Removing a guest takes recipients off the invite and update rosters
    and adds none to them, and leaves the own attendee and the organizer as
    they are.  A guest who is an attendee of the existing event is then on
    the cancel roster; for any other guest, and for a new event, the cancel
    roster gains no recipient. *)
Theorem removeAttendee_moves_to_cancel (env : Env) (guest : Guest)
    (vm : CalendarEventViewModel) :
  let vm' := removeAttendee env guest vm in
  let a := address (g_address guest) in
  (∀ r, r ∈ bccRecipients (_inviteModel vm') → r ∈ bccRecipients (_inviteModel vm))
  ∧ (∀ r, r ∈ bccRecipients (_updateModel vm') → r ∈ bccRecipients (_updateModel vm))
  ∧ _ownAttendee vm' = _ownAttendee vm
  ∧ organizer vm' = organizer vm
  ∧ (∀ ev x, existingEvent vm = Some ev →
       findAttendeeInAddresses env att_address (ev_attendees ev) [a] = Some x →
       is_Some (findRecipientWithAddress env r_address
                  (bccRecipients (_cancelModel vm')) (address (att_address x))))
  ∧ ((∀ ev, existingEvent vm = Some ev →
        findAttendeeInAddresses env att_address (ev_attendees ev) [a] = None) →
     ∀ r, r ∈ bccRecipients (_cancelModel vm') → r ∈ bccRecipients (_cancelModel vm)).
Proof.
  cbn zeta. repeat match goal with |- _ ∧ _ => split end.
  - apply removeAttendee_rosters.
  - apply removeAttendee_rosters.
  - unfold removeAttendee. repeat case_match; reflexivity.
  - unfold removeAttendee. repeat case_match; reflexivity.
  - apply removeAttendee_cancelled.
  - intros Hnone r. unfold removeAttendee.
    destruct (existingEvent vm) as [ev|] eqn:Hex.
    + rewrite (Hnone ev eq_refl).
      repeat case_match; cbn; try done; apply removeRecipient_subset; done.
    + repeat case_match; cbn; try done; apply removeRecipient_subset; done.
Qed.

Lemma removeAttendee_moves_to_cancel_witness :
  r_address <$> bccRecipients (_cancelModel removedGuestVm) = ["other@x.com"]
  ∧ is_Some (findRecipientWithAddress utcEnv r_address
               (bccRecipients (_cancelModel removedGuestVm)) "other@x.com").
Proof.
  split; [reflexivity|].
  destruct (removeAttendee_moves_to_cancel utcEnv
              {| g_address := other; g_type := UNKNOWN; g_status := ACCEPTED |}
              (demoConstruct
                 (Some (demoEvent (Some "own") (Some me)
                          [ {| att_address := me; att_status := ACCEPTED |};
                            {| att_address := other; att_status := ACCEPTED |} ]))))
    as (_ & _ & _ & _ & Hcancel & _).
  exact (Hcancel _ {| att_address := other; att_status := ACCEPTED |} eq_refl eq_refl).
Defined.

Lemma not_attendee_not_updated env vm a :
  findAttendeeInAddresses env g_address (attendees vm) [a] = None →
  findRecipientWithAddress env r_address (bccRecipients (_updateModel vm)) a = None.
Proof.
  unfold findAttendeeInAddresses, findRecipientWithAddress.
  rewrite !find_None_iff. intros H r Hr.
  specialize (H {| g_address := {| name := r_name r; address := r_address r |};
                   g_status := default NEEDS_ACTION (_guestStatuses vm !! r_address r);
                   g_type := r_type r |}).
  cbn in H. rewrite bool_decide_eq_false in *. intros Heq.
  apply H; [|rewrite Heq; apply list_elem_of_here].
  unfold attendees.
  assert ({| g_address := {| name := r_name r; address := r_address r |};
             g_type := r_type r;
             g_status := default NEEDS_ACTION (_guestStatuses vm !! r_address r) |}
          ∈ makeGuestList vm (_updateModel vm)) as Hin.
  { unfold makeGuestList. apply list_elem_of_fmap. by exists r. }
  destruct (_ownAttendee vm); [apply list_elem_of_further|]; apply elem_of_app; by right.
Qed.

Lemma length_attendees vm :
  length (attendees vm)
  = ((match _ownAttendee vm with Some _ => 1 | None => 0 end)
     + length (bccRecipients (_inviteModel vm))
     + length (bccRecipients (_updateModel vm)))%nat.
Proof.
  unfold attendees, makeGuestList.
  destruct (_ownAttendee vm); cbn [length]; rewrite length_app, !length_map; lia.
Qed.

Lemma find_none_filter env (l : list Recipient) (a : string) :
  findRecipientWithAddress env r_address l a = None →
  filter (λ r, r_address r ≠ a) l = l.
Proof.
  unfold findRecipientWithAddress. rewrite find_None_iff. intros Hnone.
  induction l as [|r l IH]; [done|].
  rewrite filter_cons_True.
  - f_equal. apply IH. intros x Hx. apply Hnone. by right.
  - intros Heq. specialize (Hnone r (list_elem_of_here _ _)).
    apply bool_decide_eq_false in Hnone. apply Hnone. by rewrite Heq.
Qed.

(** What [addGuest] does for a foreign address that is not an attendee yet,
    before the editor may join. *)
Lemma addGuest_foreign env a contact vm :
  a ∉ _ownMailAddresses vm →
  findAttendeeInAddresses env g_address (attendees vm) [a] = None →
  let invited :=
    set_inviteModel
      (setRecipientList BCC
         (bccRecipients (_inviteModel vm)
            ++ [{| r_address := a; r_name := ""; r_type := UNKNOWN;
                   r_contact := contact |}]) (_inviteModel vm)) vm in
  let listed :=
    if bool_decide (is_Some (_guestStatuses vm !! a)) then invited
    else set_guestStatuses (<[a := ADDED]> (_guestStatuses vm)) invited in
  addGuest env a contact vm
  = if (Z.of_nat (length (attendees listed)) =? 1)
       && negb (bool_decide (is_Some (findOwnAttendee env listed)))
    then selectGoing env ACCEPTED listed
    else listed.
Proof.
  intros Hforeign Hnew. cbn zeta. unfold addGuest.
  rewrite Hnew. rewrite bool_decide_eq_false_2 by (by intros [? ?]).
  rewrite (bool_decide_eq_false_2 _ Hforeign). cbn [negb].
  unfold addRecipient. cbn [pr_address getRecipientList pr_name pr_contact default].
  rewrite (not_attendee_not_invited _ _ _ Hnew).
  cbn [_guestStatuses set_inviteModel].
  destruct (bool_decide (is_Some (_guestStatuses vm !! a))); reflexivity.
Qed.

(** X24. Adding a foreign address as a guest and removing that guest again
    leaves the view model as it was, when the address was not an attendee,
    was neither on the cancel roster nor an attendee of the existing event,
    had no status in the ledger, and was not the first attendee. *)
Theorem addGuest_removeAttendee_round_trip (env : Env) (a : string)
    (contact : option Contact) (guest : Guest) (vm : CalendarEventViewModel) :
  address (g_address guest) = a →
  a ∉ _ownMailAddresses vm →
  findAttendeeInAddresses env g_address (attendees vm) [a] = None →
  findRecipientWithAddress env r_address (bccRecipients (_cancelModel vm)) a = None →
  (∀ ev, existingEvent vm = Some ev →
         findAttendeeInAddresses env att_address (ev_attendees ev) [a] = None) →
  _guestStatuses vm !! a = None →
  attendees vm ≠ [] →
  removeAttendee env guest (addGuest env a contact vm) = vm.
Proof.
  intros Hguest Hforeign Hnew Hcancel Hexisting Hledger Hothers.
  rewrite (addGuest_foreign env a contact vm Hforeign Hnew). cbn zeta.
  rewrite Hledger. rewrite bool_decide_eq_false_2 by (by intros [? ?]).
  match goal with
  | |- context [if ?c then _ else _] => assert (c = false) as ->
  end.
  { apply andb_false_iff. left. apply Z.eqb_neq.
    rewrite length_attendees. cbn [_ownAttendee _inviteModel _updateModel set_guestStatuses
                                   set_inviteModel bccRecipients setRecipientList].
    rewrite length_app. cbn [length].
    assert (length (attendees vm) ≠ 0%nat) as Hlen by (by destruct (attendees vm)).
    rewrite length_attendees in Hlen. lia. }
  unfold removeAttendee. rewrite Hguest.
  cbn [existingEvent set_guestStatuses set_inviteModel _inviteModel bccRecipients
       setRecipientList _updateModel _cancelModel _guestStatuses].
  assert (match existingEvent vm with
          | Some ev => findAttendeeInAddresses env att_address (ev_attendees ev) [a]
          | None => None
          end = None) as ->.
  { destruct (existingEvent vm) as [ev|] eqn:Hex; [by apply Hexisting|done]. }
  pose proof (not_attendee_not_invited _ _ _ Hnew) as Hinvite.
  pose proof (not_attendee_not_updated _ _ _ Hnew) as Hupdate.
  assert (findRecipientWithAddress env r_address
            (bccRecipients (_inviteModel vm)
               ++ [{| r_address := a; r_name := ""; r_type := UNKNOWN;
                      r_contact := contact |}]) a
          = Some {| r_address := a; r_name := ""; r_type := UNKNOWN;
                    r_contact := contact |}) as ->.
  { unfold findRecipientWithAddress in *. rewrite find_app_None by done.
    cbn. by rewrite bool_decide_eq_true_2. }
  cbn [existingEvent set_guestStatuses set_inviteModel _inviteModel bccRecipients
       setRecipientList _updateModel _cancelModel _guestStatuses removeRecipient
       getRecipientList r_address].
  rewrite Hupdate.
  cbn [existingEvent set_guestStatuses set_inviteModel _inviteModel bccRecipients
       setRecipientList _updateModel _cancelModel _guestStatuses removeRecipient
       getRecipientList r_address].
  rewrite Hcancel.
  assert (removeRecipient
            {| r_address := a; r_name := ""; r_type := UNKNOWN; r_contact := contact |} BCC
            (setRecipientList BCC
               (bccRecipients (_inviteModel vm)
                  ++ [{| r_address := a; r_name := ""; r_type := UNKNOWN;
                         r_contact := contact |}]) (_inviteModel vm))
          = _inviteModel vm) as ->.
  { unfold removeRecipient, setRecipientList.
    cbn [getRecipientList bccRecipients toRecipients confidential passwords sender
         senderName r_address].
    rewrite filter_app, (find_none_filter env _ _ Hinvite).
    rewrite filter_cons_False by (cbn; by intros ?).
    rewrite filter_nil, app_nil_r. by destruct (_inviteModel vm). }
  rewrite delete_insert_id by done.
  by destruct vm.
Qed.

Lemma addGuest_removeAttendee_round_trip_witness :
  removeAttendee utcEnv
    {| g_address := {| name := ""; address := "y@ex.com" |}; g_type := UNKNOWN;
       g_status := ADDED |}
    (addGuest utcEnv "y@ex.com" None (addGuest utcEnv "x@ex.com" None draftVm))
  = addGuest utcEnv "x@ex.com" None draftVm.
Proof.
  apply addGuest_removeAttendee_round_trip; try reflexivity.
  - apply (bool_decide_unpack _). by vm_compute.
  - intros ev. by vm_compute.
  - by vm_compute.
Defined.

Lemma find_is_Some {A} (f : A → bool) (l : list A) (x : A) :
  x ∈ l → f x = true → is_Some (List.find f l).
Proof.
  intros Hin Hf. destruct (List.find f l) eqn:Hfind; [by eexists|].
  rewrite find_None_iff in Hfind. rewrite (Hfind x Hin) in Hf. discriminate.
Qed.

Lemma invited_is_attendee env vm (r : Recipient) (a : string) :
  r ∈ bccRecipients (_inviteModel vm) →
  cleanMailAddress env (r_address r) = cleanMailAddress env a →
  is_Some (findAttendeeInAddresses env g_address (attendees vm) [a]).
Proof.
  intros Hin Hclean. unfold findAttendeeInAddresses.
  apply (find_is_Some _ _
           {| g_address := {| name := r_name r; address := r_address r |};
              g_status := default NEEDS_ACTION (_guestStatuses vm !! r_address r);
              g_type := r_type r |}).
  - unfold attendees.
    assert ({| g_address := {| name := r_name r; address := r_address r |};
               g_type := r_type r;
               g_status := default NEEDS_ACTION (_guestStatuses vm !! r_address r) |}
            ∈ makeGuestList vm (_inviteModel vm)) as Hguest.
    { unfold makeGuestList. apply list_elem_of_fmap. by exists r. }
    destruct (_ownAttendee vm); [apply list_elem_of_further|]; apply elem_of_app; by left.
  - cbn. apply bool_decide_eq_true. rewrite Hclean. apply list_elem_of_here.
Qed.

Lemma selectGoing_rosters env g vm :
  _updateModel (selectGoing env g vm) = _updateModel vm
  ∧ _cancelModel (selectGoing env g vm) = _cancelModel vm
  ∧ _ownMailAddresses (selectGoing env g vm) = _ownMailAddresses vm.
Proof. unfold selectGoing. repeat case_match; done. Qed.

Lemma setOrganizer_rosters env o vm :
  _updateModel (setOrganizer env o vm) = _updateModel vm
  ∧ _cancelModel (setOrganizer env o vm) = _cancelModel vm
  ∧ _ownMailAddresses (setOrganizer env o vm) = _ownMailAddresses vm.
Proof. unfold setOrganizer. by case_match. Qed.

Lemma addGuest_rosters env a contact vm :
  _updateModel (addGuest env a contact vm) = _updateModel vm
  ∧ _cancelModel (addGuest env a contact vm) = _cancelModel vm
  ∧ _ownMailAddresses (addGuest env a contact vm) = _ownMailAddresses vm.
Proof.
  unfold addGuest.
  repeat match goal with
         | |- context [selectGoing env ?g ?v] =>
             destruct (selectGoing_rosters env g v) as (-> & -> & ->)
         | |- context [setOrganizer env ?o ?v] =>
             destruct (setOrganizer_rosters env o v) as (-> & -> & ->)
         | |- context [if ?b then _ else _] => destruct b
         | |- context [match ?x with _ => _ end] => destruct x
         end; cbn; done.
Qed.

Lemma removeAttendee_ownMailAddresses env guest vm :
  _ownMailAddresses (removeAttendee env guest vm) = _ownMailAddresses vm.
Proof. unfold removeAttendee. repeat case_match; reflexivity. Qed.

Lemma addGuest_foreign_is_attendee env a contact vm :
  a ∉ _ownMailAddresses vm →
  is_Some (findAttendeeInAddresses env g_address (attendees (addGuest env a contact vm)) [a])
  ∧ (findAttendeeInAddresses env g_address (attendees vm) [a] = None →
     is_Some (findRecipientWithAddress env r_address
                (bccRecipients (_inviteModel (addGuest env a contact vm))) a)).
Proof.
  intros Hforeign.
  destruct (findAttendeeInAddresses env g_address (attendees vm) [a]) as [g|] eqn:Hnew.
  - split; [|done]. unfold addGuest. rewrite Hnew.
    rewrite bool_decide_eq_true_2 by (by eexists). rewrite Hnew. by eexists.
  - assert (is_Some (findRecipientWithAddress env r_address
                       (bccRecipients (_inviteModel (addGuest env a contact vm))) a))
      as Hinvited.
    { rewrite (addGuest_foreign env a contact vm Hforeign Hnew). cbn zeta.
      match goal with
      | |- context [bccRecipients (_inviteModel ?v)] =>
          assert (bccRecipients (_inviteModel v)
                  = bccRecipients (_inviteModel vm)
                      ++ [{| r_address := a; r_name := ""; r_type := UNKNOWN;
                             r_contact := contact |}]) as ->
      end.
      { repeat case_match; rewrite ?selectGoing_inviteModel; reflexivity. }
      unfold findRecipientWithAddress.
      apply (find_is_Some _ _ {| r_address := a; r_name := ""; r_type := UNKNOWN;
                                 r_contact := contact |}).
      - apply elem_of_app. right. apply list_elem_of_here.
      - by apply bool_decide_eq_true. }
    split; [|done].
    destruct Hinvited as [r Hr].
    apply find_Some_elem in Hr as [Hin Hmatch].
    apply bool_decide_eq_true in Hmatch.
    by apply (invited_is_attendee env _ r a).
Qed.

(** X25. A guest of the existing event who is removed and whose address is
    then added again is an attendee and is on the cancel roster at once; when
    the removal had taken the address off the attendee list, the address is
    on the invite roster too. *)
Theorem removeAttendee_addGuest_on_both_rosters (env : Env) (guest : Guest)
    (contact : option Contact) (vm : CalendarEventViewModel)
    (ev : CalendarEvent) (x : CalendarEventAttendee) :
  let a := address (g_address guest) in
  let removed := removeAttendee env guest vm in
  let vm' := addGuest env a contact removed in
  existingEvent vm = Some ev →
  findAttendeeInAddresses env att_address (ev_attendees ev) [a] = Some x →
  a ∉ _ownMailAddresses vm →
  is_Some (findRecipientWithAddress env r_address
             (bccRecipients (_cancelModel vm')) (address (att_address x)))
  ∧ is_Some (findAttendeeInAddresses env g_address (attendees vm') [a])
  ∧ (findAttendeeInAddresses env g_address (attendees removed) [a] = None →
     is_Some (findRecipientWithAddress env r_address
                (bccRecipients (_inviteModel vm')) a)).
Proof.
  cbn zeta. intros Hex Hx Hforeign.
  pose proof (removeAttendee_cancelled env guest vm) as Hcancel.
  destruct (addGuest_rosters env (address (g_address guest)) contact
              (removeAttendee env guest vm)) as (_ & -> & _).
  split; [by apply (Hcancel ev x)|].
  apply addGuest_foreign_is_attendee.
  by rewrite removeAttendee_ownMailAddresses.
Qed.

Lemma removeAttendee_addGuest_on_both_rosters_witness :
  let vm' := addGuest utcEnv "other@x.com" None removedGuestVm in
  r_address <$> bccRecipients (_inviteModel vm') = ["other@x.com"]
  ∧ is_Some (findRecipientWithAddress utcEnv r_address
               (bccRecipients (_cancelModel vm')) "other@x.com").
Proof.
  cbn zeta. split; [reflexivity|].
  refine (proj1 (removeAttendee_addGuest_on_both_rosters utcEnv
                   {| g_address := other; g_type := UNKNOWN; g_status := ACCEPTED |} None
                   guestEventVm guestEvent {| att_address := other; att_status := ACCEPTED |}
                   eq_refl eq_refl _)).
  apply (bool_decide_unpack _). by vm_compute.
Defined.

(** ** The own attendance *)

Lemma find_is_Some_fmap {A B} (p : B → bool) (f : A → B) (l1 l2 : list A) :
  f <$> l1 = f <$> l2 →
  bool_decide (is_Some (List.find (λ x, p (f x)) l1))
  = bool_decide (is_Some (List.find (λ x, p (f x)) l2)).
Proof.
  revert l2. induction l1 as [|x l1 IH]; intros [|y l2] Heq; try done.
  injection Heq as Hxy Heq. cbn. rewrite Hxy.
  destruct (p (f y)).
  - rewrite !bool_decide_eq_true_2; by try eexists.
  - by apply IH.
Qed.

Lemma attendees_addresses_set_guestStatuses m vm :
  g_address <$> attendees (set_guestStatuses m vm) = g_address <$> attendees vm.
Proof.
  unfold attendees, makeGuestList.
  cbn [_ownAttendee _inviteModel _updateModel set_guestStatuses].
  destruct (_ownAttendee vm); cbn [fmap list_fmap];
    rewrite ?fmap_app, <- !list_fmap_compose; reflexivity.
Qed.

Lemma canModifyOwnAttendance_set_guestStatuses env m vm :
  canModifyOwnAttendance env (set_guestStatuses m vm) = canModifyOwnAttendance env vm.
Proof.
  unfold canModifyOwnAttendance, findOwnAttendee, findAttendeeInAddresses.
  cbn [_eventType _ownMailAddresses set_guestStatuses].
  f_equal. f_equal.
  pose (p := λ a : EncryptedMailAddress,
               bool_decide (cleanMailAddress env (address a)
                              ∈ map (cleanMailAddress env) (_ownMailAddresses vm))).
  apply (find_is_Some_fmap p g_address).
  apply attendees_addresses_set_guestStatuses.
Qed.

(** X26. Of two choices of the own attendance the later one counts: the view
    model is the one the later choice alone would have given.  On an own
    event the editor is, after the choice, the first attendee listed, with
    the status chosen. *)
Theorem selectGoing_last_choice_counts (env : Env) (first second : CalendarAttendeeStatus)
    (vm : CalendarEventViewModel) :
  selectGoing env second (selectGoing env first vm) = selectGoing env second vm
  ∧ (_eventType vm = OWN →
     ∃ o, _ownAttendee (selectGoing env second vm) = Some o
          ∧ head (attendees (selectGoing env second vm))
            = Some {| g_address := o; g_type := INTERNAL; g_status := second |}).
Proof.
  split.
  - unfold selectGoing at 2.
    destruct (canModifyOwnAttendance env vm) eqn:Hcan; [|done].
    destruct (_ownAttendee vm) as [o|] eqn:Hown.
    + unfold selectGoing.
      rewrite canModifyOwnAttendance_set_guestStatuses, Hcan.
      cbn [_ownAttendee set_guestStatuses _guestStatuses]. rewrite Hown.
      rewrite insert_insert_eq. reflexivity.
    + case_bool_decide as Htype; [|done].
      unfold selectGoing.
      rewrite canModifyOwnAttendance_set_guestStatuses.
      unfold canModifyOwnAttendance at 1. cbn [_eventType set_ownAttendee].
      rewrite (bool_decide_eq_true_2 _ Htype). cbn [orb].
      cbn [_ownAttendee set_guestStatuses set_ownAttendee _guestStatuses address].
      rewrite ?Hcan, ?Hown, ?(bool_decide_eq_true_2 _ Htype).
      cbn [_guestStatuses set_ownAttendee address].
      rewrite insert_insert_eq. reflexivity.
  - intros Htype. unfold selectGoing, canModifyOwnAttendance.
    rewrite (bool_decide_eq_true_2 _ Htype). cbn [orb].
    destruct (_ownAttendee vm) as [o|] eqn:Hown.
    + exists o. split; [exact Hown|].
      unfold attendees. cbn [_ownAttendee set_guestStatuses _guestStatuses]. rewrite Hown.
      cbn [head]. by rewrite lookup_insert_eq.
    + eexists. split; [reflexivity|].
      unfold attendees.
      cbn [_ownAttendee set_guestStatuses set_ownAttendee _guestStatuses head address].
      by rewrite lookup_insert_eq.
Qed.

Lemma selectGoing_last_choice_counts_witness :
  ∃ o, _ownAttendee (selectGoing utcEnv DECLINED draftVm) = Some o
       ∧ head (attendees (selectGoing utcEnv DECLINED draftVm))
         = Some {| g_address := o; g_type := INTERNAL; g_status := DECLINED |}.
Proof.
  apply (proj2 (selectGoing_last_choice_counts utcEnv ACCEPTED DECLINED draftVm)).
  reflexivity.
Defined.

(** ** The editor's own addresses and the rosters *)

Lemma addRecipient_elem env p (m : SendMailModel) (r : Recipient) :
  r ∈ bccRecipients (addRecipient env BCC p m) →
  r ∈ bccRecipients m ∨ r_address r = pr_address p.
Proof.
  unfold addRecipient. case_match; [by left|].
  cbn. intros [?|Hnew%list_elem_of_singleton]%elem_of_app; [by left|].
  right. by rewrite Hnew.
Qed.

Lemma addGuest_invited env a contact vm (r : Recipient) :
  r ∈ bccRecipients (_inviteModel (addGuest env a contact vm)) →
  r ∈ bccRecipients (_inviteModel vm) ∨ r_address r = a ∧ a ∉ _ownMailAddresses vm.
Proof.
  unfold addGuest.
  destruct (bool_decide (is_Some (findAttendeeInAddresses env g_address (attendees vm) [a])));
    [by left|].
  destruct (decide (a ∈ _ownMailAddresses vm)) as [Hown|Hforeign].
  - rewrite (bool_decide_eq_true_2 _ Hown). cbn [negb].
    intros Hin. left. revert Hin.
    repeat match goal with
           | |- context [selectGoing env ?g ?v] => rewrite (selectGoing_inviteModel env g v)
           | |- context [setOrganizer env ?o ?v] => rewrite (setOrganizer_inviteModel env o v)
           | |- context [if ?b then _ else _] => destruct b
           | |- context [match ?x with _ => _ end] => destruct x
           end; cbn; done.
  - rewrite (bool_decide_eq_false_2 _ Hforeign). cbn [negb].
    intros Hin.
    assert (r ∈ bccRecipients
                  (addRecipient env BCC
                     {| pr_address := a; pr_name := None; pr_contact := contact |}
                     (_inviteModel vm))) as Hadded.
    { revert Hin.
      repeat match goal with
             | |- context [selectGoing env ?g ?v] => rewrite (selectGoing_inviteModel env g v)
             | |- context [if ?b then _ else _] => destruct b
             end; cbn; done. }
    apply addRecipient_elem in Hadded as [?|?]; [by left|by right].
Qed.

Lemma _initGuestStatus_noOwnAddressInvited env ex vm :
  noOwnAddressInvited env vm → noOwnAddressInvited env (_initGuestStatus env ex vm).
Proof.
  unfold _initGuestStatus. destruct ex as [ev|]; [|done].
  intros Hvm.
  assert (noOwnAddressInvited env (set_guestStatuses ∅ vm)) as Hstart by done.
  revert Hstart. generalize (set_guestStatuses ∅ vm). clear Hvm vm.
  induction (ev_attendees ev) as [|att l IH]; intros v Hv; cbn [foldl]; [done|].
  apply IH.
  case_bool_decide as Hown; [done|].
  intros r. cbn [_inviteModel _updateModel _ownMailAddresses set_guestStatuses set_updateModel].
  intros [Hin|Hin]; [apply Hv; by left|].
  apply addRecipient_elem in Hin as [Hin|Hnew]; [apply Hv; by right|].
  cbn in Hnew. rewrite Hnew. intros Hmine. apply Hown.
  unfold findAttendeeInAddresses. cbn.
  rewrite bool_decide_eq_true_2; [by eexists|exact Hmine].
Qed.

(** X27. That no recipient of the invite roster or of the update roster has
    an own address of the editor, in whatever spelling, holds after the
    constructor if it holds of the rosters given to it, and is kept by
    removing a guest, choosing the own attendance and setting the organizer.
    Adding a guest keeps it when the address is an own one letter for
    letter, is not an own one in any spelling, or is an attendee already; it
    breaks it for an own address in another spelling that is not an attendee
    yet: that address is put on the invite roster. *)
Theorem own_addresses_never_invited (env : Env) :
  (∀ uc mp own im um cm rm zone cals ex rt sel,
     (∀ r, r ∈ bccRecipients im ∨ r ∈ bccRecipients um →
           cleanMailAddress env (r_address r) ∉ cleanMailAddress env <$> own) →
     noOwnAddressInvited env (construct env uc mp own im um cm rm zone cals ex rt sel))
  ∧ (∀ vm, noOwnAddressInvited env vm →
           (∀ guest, noOwnAddressInvited env (removeAttendee env guest vm))
           ∧ (∀ going, noOwnAddressInvited env (selectGoing env going vm))
           ∧ (∀ o, noOwnAddressInvited env (setOrganizer env o vm))
           ∧ (∀ a contact,
                a ∈ _ownMailAddresses vm
                ∨ (cleanMailAddress env a ∉ cleanMailAddress env <$> _ownMailAddresses vm)
                ∨ is_Some (findAttendeeInAddresses env g_address (attendees vm) [a]) →
                noOwnAddressInvited env (addGuest env a contact vm)))
  ∧ (∀ vm a contact,
       a ∉ _ownMailAddresses vm →
       cleanMailAddress env a ∈ cleanMailAddress env <$> _ownMailAddresses vm →
       findAttendeeInAddresses env g_address (attendees vm) [a] = None →
       ¬ noOwnAddressInvited env (addGuest env a contact vm)).
Proof.
  split; [|split].
  - intros uc mp own im um cm rm zone cals ex rt sel Hgiven.
    unfold construct. by apply _initGuestStatus_noOwnAddressInvited.
  - intros vm Hvm. split; [|split; [|split]].
    + intros guest r. rewrite removeAttendee_ownMailAddresses.
      destruct (removeAttendee_rosters env guest vm) as (Hi & Hu).
      intros [Hin|Hin]; apply Hvm; [left; by apply Hi|right; by apply Hu].
    + intros going r.
      destruct (selectGoing_rosters env going vm) as (-> & _ & ->).
      rewrite selectGoing_inviteModel. apply Hvm.
    + intros o r.
      destruct (setOrganizer_rosters env o vm) as (-> & _ & ->).
      rewrite setOrganizer_inviteModel. apply Hvm.
    + intros a contact Hcase.
      destruct (decide (is_Some (findAttendeeInAddresses env g_address (attendees vm) [a])))
        as [Hattendee|Hnew].
      { unfold addGuest. by rewrite (bool_decide_eq_true_2 _ Hattendee). }
      intros r.
      destruct (addGuest_rosters env a contact vm) as (-> & _ & ->).
      intros [Hin|Hin]; [|apply Hvm; by right].
      apply addGuest_invited in Hin as [Hin|[-> Hforeign]]; [apply Hvm; by left|].
      by destruct Hcase as [?|[?|?]].
  - intros vm a contact Hforeign Hspelled Hnew Hkept.
    destruct (addGuest_foreign_is_attendee env a contact vm Hforeign) as [_ Hinvited].
    destruct (Hinvited Hnew) as [r Hr].
    apply find_Some_elem in Hr as [Hin Hsame].
    apply bool_decide_eq_true in Hsame.
    apply (Hkept r); [by left|].
    destruct (addGuest_rosters env a contact vm) as (_ & _ & ->).
    by rewrite Hsame.
Qed.

Lemma own_addresses_never_invited_witness :
  noOwnAddressInvited utcEnv (addGuest utcEnv "me@tutanota.com" None guestEventVm)
  ∧ ¬ noOwnAddressInvited foldingEnv
        (addGuest foldingEnv "ME@tutanota.com" None (demoConstruct None)).
Proof.
  destruct (own_addresses_never_invited utcEnv) as (Hconstruct & Hkeep & _).
  destruct (own_addresses_never_invited foldingEnv) as (_ & _ & Hbreak).
  split.
  - apply Hkeep.
    + apply Hconstruct. intros r [Hin|Hin]; by apply elem_of_nil in Hin.
    + left. apply (bool_decide_unpack _). by vm_compute.
  - apply Hbreak; [apply (bool_decide_unpack _); by vm_compute
                  |apply (bool_decide_unpack _); by vm_compute
                  |reflexivity].
Defined.

(** ** Excluding an occurrence, the other paths *)

(** X28. [excludeThisOccurrence] never changes the view model and never
    creates an event: it makes no call at all, or loads the series, or loads
    the series and updates it once.  For an event that does not repeat, and
    when no calendar is selected, it makes no call and succeeds.  When the
    series cannot be loaded it fails with the error of the load and writes
    nothing; when the load finds no event, or one that does not repeat, it
    succeeds and writes nothing. *)
Theorem excludeThisOccurrence_other_paths (o : Oracle) (n : nat)
    (vm : CalendarEventViewModel) :
  let res := run o n (excludeThisOccurrence vm) in
  res.1.1 = vm
  ∧ (kindsOf res.2 = [] ∨ kindsOf res.2 = [KLoad] ∨ kindsOf res.2 = [KLoad; KPersist])
  ∧ (∀ c, c ∈ res.2 → isCreateEvent c = false)
  ∧ ((∀ ev, existingEvent vm = Some ev → repeatRule ev = None) ∨ selectedCalendar vm = None →
     res = (vm, inr tt, []))
  ∧ ∀ clicked, existingEvent vm = Some clicked → is_Some (selectedCalendar vm) →
               is_Some (repeatRule clicked) →
      match o n _ (LoadCalendarEvent (_id clicked)) with
      | inl e => res = (vm, inl e, [call (LoadCalendarEvent (_id clicked))])
      | inr None => res = (vm, inr tt, [call (LoadCalendarEvent (_id clicked))])
      | inr (Some root) =>
          repeatRule root = None →
          res = (vm, inr tt, [call (LoadCalendarEvent (_id clicked))])
      end.
Proof.
  assert (∀ l : list Call, Forall (λ c, isCreateEvent c = false) l →
                           ∀ c, c ∈ l → isCreateEvent c = false) as Hall.
  { intros l Hl. by apply Forall_forall. }
  cbn zeta. unfold excludeThisOccurrence, bind, get, await. cbn [bindP].
  destruct (existingEvent vm) as [clicked|] eqn:Hex.
  2: { cbn. repeat split; eauto; try done; try (apply Hall; by repeat constructor). }
  destruct (selectedCalendar vm) as [sel|] eqn:Hsel.
  2: { cbn. repeat split; eauto; try done; try (apply Hall; by repeat constructor);
       try (by intros ? ? [? ?]). }
  destruct (repeatRule clicked) as [rule|] eqn:Hrule.
  2: { rewrite bool_decide_eq_false_2 by (by intros [? ?]). cbn [bindP ret].
       rewrite Hrule. cbn.
       repeat split; eauto; try done; try (apply Hall; by repeat constructor);
       try (intros ? [= <-] _ [? ?]; congruence). }
  rewrite bool_decide_eq_true_2 by (by eexists). cbn [bindP run].
  assert (∀ P : Prop,
            (∀ ev, Some clicked = Some ev → repeatRule ev = None) ∨ Some sel = None → P)
    as Hnot.
  { intros P [Hno|?]; [|done]. specialize (Hno _ eq_refl). congruence. }
  assert (∀ P : CalendarEvent → Prop,
            P clicked → ∀ c, Some clicked = Some c → is_Some (Some sel) →
                             is_Some (repeatRule c) → P c) as Hclicked.
  { by intros P HP c [= <-] _ _. }
  destruct (o n _ (LoadCalendarEvent (_id clicked))) as [e|[root|]] eqn:Hload;
    cbn [bindP run ret].
  1, 3: cbn; repeat split;
        first [ done | apply Hall; by repeat constructor | exact (Hnot _)
              | apply Hclicked; by rewrite Hload | by eauto ].
  destruct (repeatRule root) as [rootRule|] eqn:Hroot; cbn [bindP run ret].
  2: { cbn; repeat split;
         first [ done | apply Hall; by repeat constructor | exact (Hnot _)
               | apply Hclicked; by rewrite Hload | by eauto ]. }
  destruct (_ownerGroup clicked) as [ownerGroup|]; cbn [bindP run throw].
  2: { cbn; repeat split;
         first [ done | apply Hall; by repeat constructor | exact (Hnot _)
               | apply Hclicked; by rewrite Hload, Hroot | by eauto ]. }
  destruct (calendars vm !! ownerGroup) as [cal|]; cbn [bindP run ret].
  2: { cbn; repeat split;
         first [ done | apply Hall; by repeat constructor | exact (Hnot _)
               | apply Hclicked; by rewrite Hload, Hroot | by eauto ]. }
  cbn. destruct (o (S n) unit _); cbn; repeat split;
    first [ done | apply Hall; by repeat constructor | exact (Hnot _)
          | apply Hclicked; by rewrite Hload, Hroot | by eauto ].
Qed.

Lemma excludeThisOccurrence_other_paths_witness :
  run failingLoadOracle 0 (excludeThisOccurrence (demoConstruct (Some clickedOccurrence)))
  = (demoConstruct (Some clickedOccurrence), inl NotFoundError,
     [call (LoadCalendarEvent (Some ("list", "series")))])
  ∧ run failingLoadOracle 0 (excludeThisOccurrence guestEventVm) = (guestEventVm, inr tt, []).
Proof.
  split.
  - refine (proj2 (proj2 (proj2 (proj2
              (excludeThisOccurrence_other_paths failingLoadOracle 0
                 (demoConstruct (Some clickedOccurrence))))))
              clickedOccurrence eq_refl _ _); by eexists.
  - refine (proj1 (proj2 (proj2 (proj2
              (excludeThisOccurrence_other_paths failingLoadOracle 0 guestEventVm)))) _).
    left. by intros ev [= <-].
Defined.

(** ** Saving a draft that cannot be materialized *)

Lemma _initializeNewEvent_set_processing env b vm :
  _initializeNewEvent env (set_processing b vm) = _initializeNewEvent env vm.
Proof. by destruct vm. Qed.

(** X29. When the draft cannot be materialized (its times are not valid, its
    start is not before its end, ...), [saveAndSend] is rejected with the
    error of [_initializeNewEvent], which is never the too-large error, after
    waiting for the recipients to be resolved: it asks nothing, sends nothing
    and writes nothing, and the view model is left as it was, free for the
    next attempt. *)
Theorem saveAndSend_rejects_invalid_draft (env : Env) (o : Oracle) (n : nat)
    (vm : CalendarEventViewModel) (e : Error) :
  _processing vm = false →
  o n _ AwaitInitialized = inr tt →
  o (S n) _ WaitForResolvedRecipients = inr tt →
  _initializeNewEvent env vm = inl e →
  run o n (saveAndSend env vm)
  = (vm, inl e, [call AwaitInitialized; call WaitForResolvedRecipients])
  ∧ e ≠ PayloadTooLargeError.
Proof.
  intros Hfree Hinit Hresolved Herr.
  assert (e ≠ PayloadTooLargeError) as Hkind.
  { destruct (_initializeNewEvent_error _ _ _ Herr)
      as [(-> & _)|[(-> & _)|[-> |[-> | ->]]]]; done. }
  split; [|done].
  unfold saveAndSend, bind, await. cbn [bindP run]. rewrite Hinit. cbn [bindP].
  unfold saveAndSend_guarded, bind, get. cbn [bindP]. rewrite Hfree.
  unfold modify. cbn [bindP].
  unfold saveAndSend_protocol, bind, await, get, liftE.
  cbn [bindP catchP finallyP run]. rewrite Hresolved. cbn [bindP catchP finallyP run].
  rewrite _initializeNewEvent_set_processing, Herr. cbn [bindP catchP finallyP run].
  assert (onPayloadTooLarge e = throw e) as -> by by destruct e.
  unfold throw. cbn [finallyP run].
  assert (set_processing false (set_processing true vm) = vm) as ->.
  { destruct vm. cbn in Hfree. by subst. }
  reflexivity.
Qed.

Lemma saveAndSend_rejects_invalid_draft_witness :
  run (benignOracle yes true true None) 0 (saveAndSend utcEnv endBeforeStartVm)
  = (endBeforeStartVm, inl (UserError "startAfterEnd_label"),
     [call AwaitInitialized; call WaitForResolvedRecipients]).
Proof.
  refine (proj1 (saveAndSend_rejects_invalid_draft utcEnv (benignOracle yes true true None) 0
                   endBeforeStartVm (UserError "startAfterEnd_label")
                   eq_refl eq_refl eq_refl _)).
  by vm_compute.
Defined.
